(** * orcaslicer-mcp: the access-control and execution-safety core

    A shallow embedding of [src/utils.ts] (path sandbox, filename validator,
    safe file I/O, audit log, G-code metadata parser, error texts), of the
    handlers of [src/index.ts] that list, search, read and update profiles,
    run the slicer and report the health of the installation, and of the
    log threshold and the work directory of [src/config.ts].

    Conventions of the embedding
    - A JavaScript string is a [string]: a sequence of code units, here the
      8-bit ones of [ascii].  Every code unit above 255 is outside all the
      character classes the program tests, except for a few Unicode blanks.
    - The POSIX flavour of [node:path] is modelled (separator [/]).
    - A number is the rational it stands for; what [parseFloat] and
      [parseInt] return is rounded to the nearest IEEE double.
    - The module-level configuration of [config.ts] is an explicit record. *)

From Stdlib Require Import String Ascii NArith ZArith QArith Bool List Lia.
From Stdlib Require Import Sorted Qpower.
From stdpp Require Import gmap strings pretty.
Import ListNotations.

Set Warnings "-register-all".

Local Open Scope string_scope.
Local Open Scope bool_scope.

(* ================================================================== *)
(** ** Code units and character classes *)

Module Char.

Definition code (c : ascii) : N := N_of_ascii c.

Definition between (lo hi : N) (c : ascii) : bool :=
  ((lo <=? code c) && (code c <=? hi))%N.

Definition is_digit : ascii -> bool := between 48 57.
Definition is_upper : ascii -> bool := between 65 90.
Definition is_lower : ascii -> bool := between 97 122.
Definition is_alpha (c : ascii) : bool := is_upper c || is_lower c.

Definition is_char (x : ascii) (c : ascii) : bool := Ascii.eqb c x.

(** [\w] *)
Definition is_word (c : ascii) : bool :=
  is_alpha c || is_digit c || is_char "_" c.

(** Line terminators among the 8-bit code units: LF and CR. *)
Definition is_line_terminator (c : ascii) : bool :=
  (code c =? 10)%N || (code c =? 13)%N.

(** [\s], also the set [String.prototype.trim] strips: TAB, LF, VT, FF,
    CR, SPACE and NBSP. *)
Definition is_space (c : ascii) : bool :=
  between 9 13 c || (code c =? 32)%N || (code c =? 160)%N.

(** [.] without the [s] flag. *)
Definition dot (c : ascii) : bool := negb (is_line_terminator c).

(** [[\d.]] *)
Definition is_digit_or_dot (c : ascii) : bool := is_digit c || is_char "." c.

(** [[\w\s]] *)
Definition is_word_or_space (c : ascii) : bool := is_word c || is_space c.

(** [[a-zA-Z_]] *)
Definition is_alpha_or_underscore (c : ascii) : bool :=
  is_alpha c || is_char "_" c.

(** [[a-zA-Z0-9_\-]] *)
Definition is_name_start (c : ascii) : bool :=
  is_alpha c || is_digit c || is_char "_" c || is_char "-" c.

(** [[a-zA-Z0-9_\-. ]] *)
Definition is_name_char (c : ascii) : bool :=
  is_name_start c || is_char "." c || is_char " " c.

(** [toLowerCase] on one code unit: A-Z, and the Latin-1 capitals. *)
Definition to_lower (c : ascii) : ascii :=
  if is_upper c then ascii_of_N (code c + 32)
  else if between 192 222 c && negb (code c =? 215)%N
       then ascii_of_N (code c + 32)
  else c.

(** Equality under the [i] flag: only ASCII letters fold. *)
Definition fold_ascii (c : ascii) : ascii :=
  if is_upper c then ascii_of_N (code c + 32) else c.

Definition is_ci (x : ascii) (c : ascii) : bool :=
  Ascii.eqb (fold_ascii c) (fold_ascii x).

End Char.

(* ================================================================== *)
(** ** Strings *)

Module Str.

Definition len (s : string) : nat := String.length s.

Fixpoint drop (n : nat) (s : string) : string :=
  match n, s with
  | O, _ => s
  | S _, EmptyString => EmptyString
  | S n', String _ s' => drop n' s'
  end.

Fixpoint take (n : nat) (s : string) : string :=
  match n, s with
  | O, _ => EmptyString
  | S _, EmptyString => EmptyString
  | S n', String c s' => String c (take n' s')
  end.

(** [s.slice(n)] for [n >= 0]. *)
Definition slice_from (n : nat) (s : string) : string := drop n s.

(** [s.slice(0, n)]. *)
Definition slice_to (n : nat) (s : string) : string := take n s.

(** [s.slice(-n)] for [n > 0]: the last [n] code units, all of [s] when
    it is shorter. *)
Definition slice_last (n : nat) (s : string) : string :=
  drop (len s - n) s.

Fixpoint startsWith (p s : string) : bool :=
  match p, s with
  | EmptyString, _ => true
  | String a p', String b s' => Ascii.eqb a b && startsWith p' s'
  | String _ _, EmptyString => false
  end.

Definition is_empty (s : string) : bool :=
  match s with EmptyString => true | _ => false end.

Fixpoint trimStart (s : string) : string :=
  match s with
  | String c s' => if Char.is_space c then trimStart s' else s
  | EmptyString => EmptyString
  end.

Fixpoint trimEnd (s : string) : string :=
  match s with
  | String c s' =>
      let t := trimEnd s' in
      if Char.is_space c && is_empty t then EmptyString else String c t
  | EmptyString => EmptyString
  end.

Definition trim (s : string) : string := trimEnd (trimStart s).

Fixpoint map (f : ascii -> ascii) (s : string) : string :=
  match s with
  | String c s' => String (f c) (map f s')
  | EmptyString => EmptyString
  end.

Definition toLowerCase : string -> string := map Char.to_lower.

Fixpoint forallb (p : ascii -> bool) (s : string) : bool :=
  match s with
  | String c s' => p c && forallb p s'
  | EmptyString => true
  end.

Fixpoint existsb (p : ascii -> bool) (s : string) : bool :=
  match s with
  | String c s' => p c || existsb p s'
  | EmptyString => false
  end.

(** [s.split(sep)] for a one-character separator: never the empty list. *)
Fixpoint split (sep : ascii) (s : string) : list string :=
  match s with
  | EmptyString => [EmptyString]
  | String c s' =>
      if Ascii.eqb c sep then EmptyString :: split sep s'
      else match split sep s' with
           | seg :: rest => String c seg :: rest
           | [] => [String c EmptyString]
           end
  end.

(** [segs.join(sep)]. *)
Fixpoint join (sep : string) (segs : list string) : string :=
  match segs with
  | [] => EmptyString
  | [x] => x
  | x :: rest => x +:+ sep +:+ join sep rest
  end.

(** [s.replace(/\s+/g, "_")]: every maximal run of blanks becomes one
    underscore. *)
Fixpoint replace_blank_runs (in_run : bool) (s : string) : string :=
  match s with
  | EmptyString => EmptyString
  | String c s' =>
      if Char.is_space c
      then if in_run then replace_blank_runs true s'
           else String "_" (replace_blank_runs true s')
      else String c (replace_blank_runs false s')
  end.

End Str.

(* ================================================================== *)
(** ** Regular expressions

    The fragment of ECMAScript regular expressions the program uses, all
    anchored at the start ([^]): character classes, concatenation, greedy
    and lazy repetition of a character class, capturing groups that are not
    nested, and the end anchor [$] (no [m] flag: end of input only).  The
    matcher backtracks in the order the ECMAScript semantics prescribes. *)

Module Regex.

Inductive regex : Type :=
| Eps
| Cls (p : ascii -> bool)
| Cat (r1 r2 : regex)
| Star (p : ascii -> bool)
| StarLazy (p : ascii -> bool)
| Grp (r : regex)
| Eos.

Definition Plus (p : ascii -> bool) : regex := Cat (Cls p) (Star p).

(** A literal, compared exactly or under the [i] flag. *)
Fixpoint Lit (s : string) : regex :=
  match s with
  | EmptyString => Eps
  | String c s' => Cat (Cls (Char.is_char c)) (Lit s')
  end.

Fixpoint LitCI (s : string) : regex :=
  match s with
  | EmptyString => Eps
  | String c s' => Cat (Cls (Char.is_ci c)) (LitCI s')
  end.

Fixpoint seq (rs : list regex) : regex :=
  match rs with
  | [] => Eps
  | r :: rs' => Cat r (seq rs')
  end.

Section Matcher.
Context {A : Type}.

(** [[p]*]: the longest run first, then shorter ones. *)
Fixpoint star_greedy (p : ascii -> bool) (s : string)
         (k : string -> option A) : option A :=
  match s with
  | String c s' =>
      if p c
      then match star_greedy p s' k with
           | Some r => Some r
           | None => k s
           end
      else k s
  | EmptyString => k s
  end.

(** [[p]*?]: the shortest run first, then longer ones. *)
Fixpoint star_lazy (p : ascii -> bool) (s : string)
         (k : string -> option A) : option A :=
  match k s with
  | Some r => Some r
  | None =>
      match s with
      | String c s' => if p c then star_lazy p s' k else None
      | EmptyString => None
      end
  end.

(** [exec r s caps k]: match [r] at the front of [s], then continue
    with the rest of the input and the captures made so far. *)
Fixpoint exec (r : regex) (s : string) (caps : list string)
         (k : string -> list string -> option A) : option A :=
  match r with
  | Eps => k s caps
  | Cls p =>
      match s with
      | String c s' => if p c then k s' caps else None
      | EmptyString => None
      end
  | Cat r1 r2 => exec r1 s caps (fun s' caps' => exec r2 s' caps' k)
  | Star p => star_greedy p s (fun s' => k s' caps)
  | StarLazy p => star_lazy p s (fun s' => k s' caps)
  | Grp r1 =>
      exec r1 s caps
           (fun s' caps' =>
              k s' (caps' ++ [Str.take (Str.len s - Str.len s') s])%list)
  | Eos =>
      match s with
      | EmptyString => k s caps
      | String _ _ => None
      end
  end.
End Matcher.

(** [s.match(/^r/)]: the captures [m[1]], [m[2]], ... on success. *)
Definition matches (r : regex) (s : string) : option (list string) :=
  exec r s [] (fun _ caps => Some caps).

(** [/^r/.test(s)] *)
Definition test (r : regex) (s : string) : bool :=
  match matches r s with Some _ => true | None => false end.

(** [m[i]] for [i >= 1]. *)
Definition group (i : nat) (caps : list string) : string :=
  nth (i - 1) caps EmptyString.

End Regex.

(* ================================================================== *)
(** ** [node:path], POSIX flavour

    The functions of [node:path] the program calls.  A path is cut into its
    segments at [/]; [normalizeString] is Node's internal helper that drops
    empty and [.] segments and resolves [..] against the segment before it.
    [process.cwd()] is the explicit argument [cwd]. *)

Module Path.

Definition isAbsolute (p : string) : bool :=
  match p with
  | String c _ => Ascii.eqb c "/"
  | EmptyString => false
  end.

(** One step of [normalizeString]; [acc] holds the segments kept so far,
    the latest first. *)
Definition push_segment (allowAboveRoot : bool) (acc : list string)
           (seg : string) : list string :=
  if String.eqb seg "" || String.eqb seg "." then acc
  else if String.eqb seg ".." then
    match acc with
    | top :: rest =>
        if String.eqb top ".."
        then (if allowAboveRoot then ".." :: acc else acc)
        else rest
    | [] => if allowAboveRoot then [".."] else []
    end
  else seg :: acc.

Definition normalize_segments (allowAboveRoot : bool)
           (segs : list string) : list string :=
  rev (fold_left (push_segment allowAboveRoot) segs []).

Definition normalizeString (path : string) (allowAboveRoot : bool)
  : string :=
  Str.join "/" (normalize_segments allowAboveRoot (Str.split "/" path)).

(** The loop of [resolve], over the arguments from the last to the first
    and then [cwd], until an absolute one is met; empty ones are skipped. *)
Fixpoint resolve_loop (cwd : string) (args_rev : list string)
         (resolvedPath : string) : string * bool :=
  match args_rev with
  | [] =>
      if Str.is_empty cwd then (resolvedPath, false)
      else (cwd +:+ "/" +:+ resolvedPath, isAbsolute cwd)
  | p :: rest =>
      if Str.is_empty p then resolve_loop cwd rest resolvedPath
      else if isAbsolute p then (p +:+ "/" +:+ resolvedPath, true)
      else resolve_loop cwd rest (p +:+ "/" +:+ resolvedPath)
  end.

Definition resolve (cwd : string) (args : list string) : string :=
  let '(resolvedPath, resolvedAbsolute) :=
    resolve_loop cwd (rev args) "" in
  let resolvedPath := normalizeString resolvedPath (negb resolvedAbsolute) in
  if resolvedAbsolute then "/" +:+ resolvedPath
  else if Str.is_empty resolvedPath then "." else resolvedPath.

Definition ends_with_slash (p : string) : bool :=
  match rev (Str.split "/" p) with
  | last :: _ :: _ => Str.is_empty last
  | _ => false
  end.

Definition normalize (path : string) : string :=
  if Str.is_empty path then "." else
  let absolute := isAbsolute path in
  let trailingSeparator := ends_with_slash path in
  let p := normalizeString path (negb absolute) in
  if Str.is_empty p
  then (if absolute then "/" else if trailingSeparator then "./" else ".")
  else
    let p := if trailingSeparator then p +:+ "/" else p in
    if absolute then "/" +:+ p else p.

(** [join(...args)]: the non-empty arguments glued with [/], normalized. *)
Definition join (args : list string) : string :=
  match List.filter (fun a => negb (Str.is_empty a)) args with
  | [] => "."
  | parts => normalize (Str.join "/" parts)
  end.

(** The segments of a path, empty ones dropped. *)
Definition segments (p : string) : list string :=
  List.filter (fun s => negb (Str.is_empty s)) (Str.split "/" p).

Fixpoint strip_common (xs ys : list string) : list string * list string :=
  match xs, ys with
  | x :: xs', y :: ys' =>
      if String.eqb x y then strip_common xs' ys' else (xs, ys)
  | _, _ => (xs, ys)
  end.

(** [relative(from, to)]: both are resolved, the segments they share at
    the front are dropped, one [..] is emitted for each segment left of
    [from], and the segments left of [to] follow. *)
Definition relative (cwd : string) (from to : string) : string :=
  if String.eqb from to then "" else
  let from := resolve cwd [from] in
  let to := resolve cwd [to] in
  if String.eqb from to then "" else
  let '(up, down) := strip_common (segments from) (segments to) in
  Str.join "/" (List.map (fun _ => "..") up ++ down)%list.

Definition last_portion (p : string) : string :=
  List.last (segments p) "".

Definition has_dot (s : string) : bool := Str.existsb (Char.is_char ".") s.

(** From the last [.] of [s] to its end; empty when [s] has no [.]. *)
Fixpoint from_last_dot (s : string) : string :=
  match s with
  | EmptyString => EmptyString
  | String c s' =>
      if has_dot s' then from_last_dot s'
      else if Ascii.eqb c "." then s else EmptyString
  end.

(** [extname(path)]: the extension of the last portion; none when its
    only [.] is its first character, and none for [..]. *)
Definition extname (p : string) : string :=
  let seg := last_portion p in
  let ext := from_last_dot seg in
  if String.eqb ext seg || String.eqb seg ".." then "" else ext.

Definition ends_with (suffix s : string) : bool :=
  (Str.len suffix <=? Str.len s)%nat
  && String.eqb (Str.drop (Str.len s - Str.len suffix) s) suffix.

(** [basename(path, suffix)]: the last portion, without [suffix] when it
    ends with it and is longer than it. *)
Definition basename (p : string) (suffix : string) : string :=
  let seg := last_portion p in
  if Str.is_empty suffix then seg
  else if String.eqb suffix p then ""
  else if ends_with suffix seg && negb (String.eqb suffix seg)
  then Str.take (Str.len seg - Str.len suffix) seg
  else seg.

End Path.

(* ================================================================== *)
(** ** Errors and results *)

(** What the program can throw: the four error classes of [utils.ts], the
    error [execa] rejects with (its [exitCode] is [undefined] when the
    process did not exit by itself), and [OtherError] for whatever else
    the runtime throws (a system error with its code, a TypeError). *)
Inductive Error : Type :=
| SandboxError (message : string)
| FileNotFoundError (path : string)
| ParseError (message : string)
| CliExecutionError (message : string) (exitCode : option Z)
| ExecaError (exitCode : option Z) (stderr : string) (message : string)
| OtherError (code : string).

Inductive Result (A : Type) : Type :=
| Ok (a : A)
| Throw (e : Error).
Arguments Ok {A} a.
Arguments Throw {A} e.

Definition is_ok {A : Type} (r : Result A) : bool :=
  match r with Ok _ => true | Throw _ => false end.

(** The double quote and the line feed. *)
Definition dq : string := String (ascii_of_nat 34) EmptyString.
Definition nl : string := String (ascii_of_nat 10) EmptyString.
Definition LF : ascii := ascii_of_nat 10.
Definition backslash : ascii := ascii_of_nat 92.

(* ================================================================== *)
(** ** JSON values and plain objects *)

Inductive Json : Type :=
| JNull
| JBool (b : bool)
| JNum (q : Q)
| JStr (s : string)
| JArr (items : list Json)
| JObj (props : list (string * Json)).

(** How a spawned process ends: it could not be started, it exited by
    itself, or it was killed when the timeout elapsed. *)
Inductive ProcOutcome : Type :=
| SpawnFailed (code : string)
| Exited (exitCode : Z) (stdout stderr : string)
| TimedOut (stdout stderr : string).

(** What the program takes from its runtime and libraries without this
    development describing it:
    - [JSON.parse] ([None] when it throws) and
      [JSON.stringify(value, null, indent)];
    - from [execa], the first part of the [message] of the error it
      rejects with (the reason and the command), and the way a captured
      stream is printed in that message (without its final line break,
      control characters escaped; a line of printable characters is
      printed as it is);
    - reading and assigning a property of an array: [a[k]] as far as
      [JSON.stringify] can tell (an element, the length, or nothing), and
      the elements after [a[k] = v], which throws for a bad [length]. *)
Record Runtime : Type := {
  JSON_parse : string -> option Json;
  JSON_stringify : nat -> Json -> string;
  execa_shortMessage : string -> list string -> ProcOutcome -> string;
  execa_messagePart : string -> string;
  Array_get : list Json -> string -> option Json;
  Array_set : list Json -> string -> Json -> Result (list Json);
}.

(** Own properties of a plain object, in the order [JSON.stringify] walks
    them: integer keys first, ascending, then the others as created. *)
Module Obj.

Definition props : Type := list (string * Json).

Fixpoint own (o : props) (k : string) : option Json :=
  match o with
  | [] => None
  | (k', v) :: o' => if String.eqb k' k then Some v else own o' k
  end.

Definition has_own (o : props) (k : string) : bool :=
  match own o k with Some _ => true | None => false end.

Fixpoint digits_value (acc : N) (s : string) : N :=
  match s with
  | EmptyString => acc
  | String c s' => digits_value (acc * 10 + (Char.code c - 48)) s'
  end.

(** An array index: a canonical decimal numeral below 2^32 - 1. *)
Definition index_of (k : string) : option N :=
  match k with
  | EmptyString => None
  | String c rest =>
      if Str.forallb Char.is_digit k
         && (Str.is_empty rest || negb (Ascii.eqb c "0"))
         && (Str.len k <=? 10)%nat
         && (digits_value 0 k <? 4294967295)%N
      then Some (digits_value 0 k) else None
  end.

Fixpoint replace (o : props) (k : string) (v : Json) : props :=
  match o with
  | [] => []
  | (k', v') :: o' =>
      if String.eqb k' k then (k', v) :: o' else (k', v') :: replace o' k v
  end.

(** A new integer key goes before the first key that is larger or is
    not an integer key. *)
Fixpoint insert_index (o : props) (i : N) (k : string) (v : Json)
  : props :=
  match o with
  | [] => [(k, v)]
  | (k', v') :: o' =>
      match index_of k' with
      | Some j =>
          if (j <? i)%N then (k', v') :: insert_index o' i k v
          else (k, v) :: o
      | None => (k, v) :: o
      end
  end.

(** [CreateDataProperty]: what an object literal and a spread do. *)
Definition define (o : props) (k : string) (v : Json) : props :=
  if has_own o k then replace o k v
  else match index_of k with
       | Some i => insert_index o i k v
       | None => (o ++ [(k, v)])%list
       end.

(** [o[k] = v].  An own property is overwritten.  Otherwise the key
    [__proto__] reaches the accessor inherited from [Object.prototype],
    which never creates an own property; every other key is created. *)
Definition set (o : props) (k : string) (v : Json) : props :=
  if has_own o k then replace o k v
  else if String.eqb k "__proto__" then o
  else define o k v.

(** [o[k]], as far as [JSON.stringify] can tell: an own property, the
    inherited [__proto__] (an object without own properties), or nothing
    (absent, or an inherited method, which is not serialized). *)
Definition get (o : props) (k : string) : option Json :=
  match own o k with
  | Some v => Some v
  | None => if String.eqb k "__proto__" then Some (JObj []) else None
  end.

(** [{...o, ...extra}] *)
Definition spread (o extra : props) : props :=
  fold_left (fun acc kv => define acc (fst kv) (snd kv)) extra o.

(** A property whose value may be [undefined]: [JSON.stringify] leaves
    it out. *)
Definition optional (k : string) (v : option Json) : props :=
  match v with Some x => [(k, x)] | None => [] end.

(** The names every object created by a literal inherits from
    [Object.prototype]; the operator [in] sees them. *)
Definition inherited_names : list string :=
  [ "constructor"; "__defineGetter__"; "__defineSetter__";
    "hasOwnProperty"; "__lookupGetter__"; "__lookupSetter__";
    "isPrototypeOf"; "propertyIsEnumerable"; "toString"; "valueOf";
    "__proto__"; "toLocaleString" ].

Definition is_inherited (k : string) : bool :=
  List.existsb (String.eqb k) inherited_names.

End Obj.

(* ================================================================== *)
(** ** The world the program runs in *)

(** The module-level values of [config.ts], and [process.cwd()]. *)
Record Config : Type := {
  cwd : string;
  WORKDIR : string;
  ORCA_USER_DIR : string;
  ORCA_SLICER_PATH : string;
}.

(** A file system: the regular files with their contents, the directories
    (the root is always one), and the paths on which every operation
    fails, each with its error code ([EACCES], [EIO], [ENOSPC], ...).
    Paths are absolute and normalized, as [resolve] returns them. *)
Record FS : Type := {
  files : gmap string string;
  dirs : gset string;
  faults : gmap string string;
}.

Record World : Type := {
  fs : FS;
  (** what [log(level, message, ...)] has written, the latest first *)
  oplog : list (string * string);
  (** [new Date().toISOString()] *)
  clock : string;
  (** what running a binary with an argument vector and a timeout does:
      how the process ends and the file system it leaves behind *)
  spawn : string -> list string -> Z -> FS -> ProcOutcome * FS;
}.

Definition with_fs (w : World) (f : FS) : World :=
  {| fs := f; oplog := oplog w; clock := clock w; spawn := spawn w |}.

Definition with_files (f : FS) (m : gmap string string) : FS :=
  {| files := m; dirs := dirs f; faults := faults f |}.

(** Computations that read and change the world and may throw. *)
Definition M (A : Type) : Type := World -> Result A * World.

Definition ret {A : Type} (a : A) : M A := fun w => (Ok a, w).
Definition throw {A : Type} (e : Error) : M A := fun w => (Throw e, w).
Definition lift {A : Type} (r : Result A) : M A := fun w => (r, w).

Definition bind {A B : Type} (m : M A) (k : A -> M B) : M B :=
  fun w =>
    match m w with
    | (Ok a, w') => k a w'
    | (Throw e, w') => (Throw e, w')
    end.

(** [try { m } catch (err) { h err }] *)
Definition try_catch {A : Type} (m : M A) (h : Error -> M A) : M A :=
  fun w =>
    match m w with
    | (Ok a, w') => (Ok a, w')
    | (Throw e, w') => h e w'
    end.

Notation "'let*' x ':=' m 'in' k" := (bind m (fun x => k))
  (at level 10, x name, m at level 100, k at level 200).
Notation "'do' m 'then' k" := (bind m (fun _ => k))
  (at level 10, m at level 100, k at level 200).

(** [log] of [config.ts] *)
Definition log (level message : string) : M unit :=
  fun w =>
    (Ok tt, {| fs := fs w; oplog := (level, message) :: oplog w;
               clock := clock w; spawn := spawn w |}).

(** [node:fs/promises] *)
Module Fs.

(** The directories an absolute path lies in, below the root, the
    outermost first: [/a] and [/a/b] for [/a/b/c]. *)
Definition ancestors (p : string) : list string :=
  let segs := Path.segments p in
  List.map (fun n => "/" +:+ Str.join "/" (firstn n segs))
           (List.seq 1 (length segs - 1)).

(** Walking down to an entry: the first ancestor that is not a directory
    stops the walk, with [ENOTDIR] when it is a regular file and with
    [ENOENT] when it does not exist. *)
Fixpoint walk (f : FS) (path : list string) : option Error :=
  match path with
  | [] => None
  | d :: rest =>
      if bool_decide (d ∈ dirs f) then walk f rest
      else if bool_decide (is_Some (files f !! d))
           then Some (OtherError "ENOTDIR")
           else Some (OtherError "ENOENT")
  end.

(** Why no operation can reach [p]: a fault set on it, or the walk down
    to it. *)
Definition fault (f : FS) (p : string) : option Error :=
  match faults f !! p with
  | Some code => Some (OtherError code)
  | None => walk f (ancestors p)
  end.

Definition readFile (p : string) : M string :=
  fun w =>
    match fault (fs w) p with
    | Some e => (Throw e, w)
    | None =>
        match files (fs w) !! p with
        | Some content => (Ok content, w)
        | None =>
            if bool_decide (p ∈ dirs (fs w))
            then (Throw (OtherError "EISDIR"), w)
            else (Throw (OtherError "ENOENT"), w)
        end
    end.

Definition writeFile (p content : string) : M unit :=
  fun w =>
    match fault (fs w) p with
    | Some e => (Throw e, w)
    | None =>
        if bool_decide (p ∈ dirs (fs w))
        then (Throw (OtherError "EISDIR"), w)
        else (Ok tt,
              with_fs w (with_files (fs w) (<[p := content]> (files (fs w)))))
    end.

Definition appendFile (p content : string) : M unit :=
  fun w =>
    match fault (fs w) p with
    | Some e => (Throw e, w)
    | None =>
        if bool_decide (p ∈ dirs (fs w))
        then (Throw (OtherError "EISDIR"), w)
        else
          let old := default "" (files (fs w) !! p) in
          (Ok tt,
           with_fs w (with_files (fs w)
                        (<[p := old +:+ content]> (files (fs w)))))
    end.

(** [access(p, constants.F_OK)] *)
Definition access (p : string) : M unit :=
  fun w =>
    match fault (fs w) p with
    | Some e => (Throw e, w)
    | None =>
        match files (fs w) !! p with
        | Some _ => (Ok tt, w)
        | None =>
            if bool_decide (p ∈ dirs (fs w)) then (Ok tt, w)
            else (Throw (OtherError "ENOENT"), w)
        end
    end.

End Fs.

(* ================================================================== *)
(** ** Numbers out of text *)

Inductive JsNum : Type :=
| NaN
| Infinity (negative : bool)
| Num (q : Q).

Module Number.

(** The longest prefix of [s] whose characters satisfy [p], and the rest. *)
Fixpoint span (p : ascii -> bool) (s : string) : string * string :=
  match s with
  | String c s' =>
      if p c then let '(a, b) := span p s' in (String c a, b)
      else (EmptyString, s)
  | EmptyString => (EmptyString, EmptyString)
  end.

Definition digits_value (s : string) : Z :=
  Z.of_N (Obj.digits_value 0 s).

Definition sign (s : string) : bool * string :=
  match s with
  | String "-" s' => (true, s')
  | String "+" s' => (false, s')
  | _ => (false, s)
  end.

Definition signed (negative : bool) (q : Q) : Q :=
  if negative then Qopp q else q.

(** [10^e] *)
Definition pow10 (e : Z) : Q := Qpower (10 # 1) e.

(** An exponent part [e], [e+], [e-] followed by at least one digit. *)
Definition exponent (s : string) : Z :=
  match s with
  | String c s' =>
      if Ascii.eqb c "e" || Ascii.eqb c "E" then
        let '(negative, t) := sign s' in
        let '(ds, _) := span Char.is_digit t in
        if Str.is_empty ds then 0%Z
        else if negative then (- digits_value ds)%Z else digits_value ds
      else 0%Z
  | EmptyString => 0%Z
  end.

(** [a / b] rounded to the nearest integer, a tie to the even one, for
    [b > 0]. *)
Definition div_half_even (a b : Z) : Z :=
  let q := (a / b)%Z in
  match (2 * (a mod b) ?= b)%Z with
  | Lt => q
  | Gt => (q + 1)%Z
  | Eq => if Z.even q then q else (q + 1)%Z
  end.

(** [2^k <= num / den] *)
Definition ge_pow2 (num : Z) (den : positive) (k : Z) : bool :=
  if (0 <=? k)%Z then (Zpos den * 2 ^ k <=? num)%Z
  else (Zpos den <=? num * 2 ^ (- k))%Z.

(** The [b] with [2^b <= num / den < 2^(b+1)], for [num > 0]. *)
Definition binade (num : Z) (den : positive) : Z :=
  let k := (Z.log2 num - Z.log2 (Zpos den))%Z in
  if ge_pow2 num den k then k else (k - 1)%Z.

(** The Number value of a rational that is not negative: the nearest
    IEEE 754 double, a tie to the one with an even significand.  A double
    is [m * 2^e] with [m < 2^53] and [-1074 <= e <= 971]; what rounds
    beyond the largest one is [Infinity]. *)
Definition to_double (q : Q) : JsNum :=
  let num := Qnum q in
  let den := Qden q in
  if (num <=? 0)%Z then Num 0
  else
    let e := Z.max (binade num den - 52) (-1074) in
    let m :=
      if (0 <=? e)%Z then div_half_even num (Zpos den * 2 ^ e)
      else div_half_even (num * 2 ^ (- e)) (Zpos den) in
    if (971 <? e)%Z || ((e =? 971)%Z && (m =? 2 ^ 53)%Z)
    then Infinity false
    else Num (Qred (inject_Z m * Qpower 2 e)).

(** The sign put back on a magnitude (a negative zero is kept as zero). *)
Definition with_sign (negative : bool) (n : JsNum) : JsNum :=
  match n with
  | NaN => NaN
  | Infinity _ => Infinity negative
  | Num q => Num (signed negative q)
  end.

(** [parseFloat(s)]: leading blanks are skipped and the longest prefix
    that is a decimal literal is read; [NaN] when there is none. *)
Definition parseFloat (s : string) : JsNum :=
  let s := Str.trimStart s in
  let '(negative, s) := sign s in
  if Str.startsWith "Infinity" s then Infinity negative else
  let '(ip, r) := span Char.is_digit s in
  let '(fp, r) :=
    match r with
    | String "." r' => span Char.is_digit r'
    | _ => (EmptyString, r)
    end in
  if Str.is_empty ip && Str.is_empty fp then NaN
  else
    let mantissa := inject_Z (digits_value (ip +:+ fp)) in
    let e := (exponent r - Z.of_nat (Str.len fp))%Z in
    with_sign negative (to_double (mantissa * pow10 e)).

(** [parseInt(s, 10)] *)
Definition parseInt (s : string) : JsNum :=
  let s := Str.trimStart s in
  let '(negative, s) := sign s in
  let '(ds, _) := span Char.is_digit s in
  if Str.is_empty ds then NaN
  else with_sign negative (to_double (inject_Z (digits_value ds))).

End Number.

(* ================================================================== *)
(** ** The G-code metadata parser *)

Inductive JsVal : Type :=
| VStr (s : string)
| VNum (n : JsNum).

(** [GcodeMetadata]: the own properties of the object [meta]. *)
Abbreviation GcodeMetadata := (gmap string JsVal).

(** [key in meta]: an own property, or a name inherited from
    [Object.prototype]. *)
Definition key_in (key : string) (meta : GcodeMetadata) : bool :=
  bool_decide (is_Some (meta !! key)) || Obj.is_inherited key.

Module Gcode.
Import Regex.

(** [/^estimated printing time.*?=\s*(.+)$/i] *)
Definition re_time : regex :=
  seq [ LitCI "estimated printing time"; StarLazy Char.dot; Lit "=";
        Star Char.is_space; Grp (Plus Char.dot); Eos ].

(** [/^filament used\s*\[mm\]\s*=\s*([\d.]+)/i] *)
Definition re_filament_mm : regex :=
  seq [ LitCI "filament used"; Star Char.is_space; LitCI "[mm]";
        Star Char.is_space; Lit "="; Star Char.is_space;
        Grp (Plus Char.is_digit_or_dot) ].

(** [/^filament used\s*\[g\]\s*=\s*([\d.]+)/i] *)
Definition re_filament_g : regex :=
  seq [ LitCI "filament used"; Star Char.is_space; LitCI "[g]";
        Star Char.is_space; Lit "="; Star Char.is_space;
        Grp (Plus Char.is_digit_or_dot) ].

(** [/^filament cost\s*=\s*([\d.]+)/i] *)
Definition re_cost : regex :=
  seq [ LitCI "filament cost"; Star Char.is_space; Lit "=";
        Star Char.is_space; Grp (Plus Char.is_digit_or_dot) ].

(** [/^total layers count\s*=\s*(\d+)/i] *)
Definition re_layers : regex :=
  seq [ LitCI "total layers count"; Star Char.is_space; Lit "=";
        Star Char.is_space; Grp (Plus Char.is_digit) ].

(** [/^([a-zA-Z_][\w\s]*\w)\s*=\s*(.+)$/] *)
Definition re_kv : regex :=
  seq [ Grp (seq [ Cls Char.is_alpha_or_underscore;
                   Star Char.is_word_or_space; Cls Char.is_word ]);
        Star Char.is_space; Lit "="; Star Char.is_space;
        Grp (Plus Char.dot); Eos ].

(** [kvMatch[1].trim().replace(/\s+/g, "_").toLowerCase()] *)
Definition normalize_key (k : string) : string :=
  Str.toLowerCase (Str.replace_blank_runs false (Str.trim k)).

(** The body of the loop over the lines. *)
Definition processLine (meta : GcodeMetadata) (line : string)
  : GcodeMetadata :=
  let trimmed := Str.trim line in
  if negb (Str.startsWith ";" trimmed) then meta else
  let body := Str.trim (Str.slice_from 1 trimmed) in
  match matches re_time body with
  | Some timeMatch =>
      <["estimatedTime" := VStr (Str.trim (group 1 timeMatch))]> meta
  | None =>
  match matches re_filament_mm body with
  | Some filMmMatch =>
      <["filamentUsedMm" :=
          VNum (Number.parseFloat (group 1 filMmMatch))]> meta
  | None =>
  match matches re_filament_g body with
  | Some filGMatch =>
      <["filamentUsedG" :=
          VNum (Number.parseFloat (group 1 filGMatch))]> meta
  | None =>
  match matches re_cost body with
  | Some costMatch =>
      <["filamentCost" :=
          VNum (Number.parseFloat (group 1 costMatch))]> meta
  | None =>
  match matches re_layers body with
  | Some layerMatch =>
      <["layerCount" := VNum (Number.parseInt (group 1 layerMatch))]> meta
  | None =>
  match matches re_kv body with
  | Some kvMatch =>
      let key := normalize_key (group 1 kvMatch) in
      if negb (key_in key meta)
      then <[key := VStr (Str.trim (group 2 kvMatch))]> meta
      else meta
  | None => meta
  end end end end end end.

Definition parseGcodeMetadata (gcode : string) : GcodeMetadata :=
  let tail := Str.slice_last 4096 gcode in
  let lines := Str.split LF tail in
  fold_left processLine lines ∅.

End Gcode.

(* ================================================================== *)
(** ** [utils.ts] and the handlers of [index.ts] *)

Inductive ProfileType : Type := machine | filament | process.

Definition type_name (t : ProfileType) : string :=
  match t with
  | machine => "machine"
  | filament => "filament"
  | process => "process"
  end.

(** The value a handler returns: [isError] and the text of its content. *)
Record ToolResponse : Type := {
  isError : bool;
  text : string;
}.

Record UpdateProfileSettingArgs : Type := {
  u_type : ProfileType;
  u_name : string;
  u_key : string;
  u_value : Json;
  u_dry_run : bool;
}.

Record SliceModelArgs : Type := {
  input_file : string;
  output_file : string;
  profile_machine : option string;
  profile_filament : option string;
  profile_process : option string;
  timeout_ms : Z;
}.

(** [/^[a-zA-Z0-9_\-][a-zA-Z0-9_\-. ]*$/] *)
Definition SAFE_FILENAME_RE : Regex.regex :=
  Regex.seq [ Regex.Cls Char.is_name_start; Regex.Star Char.is_name_char;
              Regex.Eos ].

Definition AUDIT_LOG_FILENAME : string := "tuning_history.log".

(** [err.message] *)
Definition message_of (e : Error) : string :=
  match e with
  | SandboxError m => m
  | FileNotFoundError p => "File not found: " +:+ p
  | ParseError m => m
  | CliExecutionError m _ => m
  | ExecaError _ _ m => m
  | OtherError code => code
  end.

(** [`${exitCode}`] for a number or [undefined] *)
Definition show_exit (exitCode : option Z) : string :=
  match exitCode with
  | Some n => pretty n
  | None => "undefined"
  end.

(** An optional string argument used as a condition: [undefined] and the
    empty string are falsy. *)
Definition truthy (o : option string) : option string :=
  match o with
  | Some s => if Str.is_empty s then None else Some s
  | None => None
  end.

Section Core.

Variable cfg : Config.
Variable rt : Runtime.

Definition getAllowedRoots : list string :=
  [ Path.resolve (cwd cfg) [WORKDIR cfg];
    Path.resolve (cwd cfg) [ORCA_USER_DIR cfg] ].

(** The callback of [roots.some]. *)
Definition inside_root (normalised root : string) : bool :=
  let rel := Path.relative (cwd cfg) root normalised in
  negb (Str.startsWith ".." rel) && negb (Path.isAbsolute rel).

Definition access_denied_message (raw normalised : string)
           (roots : list string) : string :=
  "Access denied: path " +:+ dq +:+ raw +:+ dq +:+ " resolves to "
    +:+ dq +:+ normalised +:+ dq
    +:+ " which is outside the allowed directories: "
    +:+ Str.join ", " roots.

Definition resolveSandboxed (raw : string) : Result string :=
  let resolved := Path.resolve (cwd cfg) [raw] in
  let normalised := Path.normalize resolved in
  let roots := getAllowedRoots in
  let inside := List.existsb (inside_root normalised) roots in
  if negb inside
  then Throw (SandboxError (access_denied_message raw normalised roots))
  else Ok normalised.

Definition validateFilename (name : string) : Result unit :=
  if negb (Regex.test SAFE_FILENAME_RE name)
  then Throw (SandboxError
                ("Invalid filename " +:+ dq +:+ name +:+ dq +:+
                 ": only alphanumerics, underscores, hyphens, periods, and spaces are allowed."))
  else Ok tt.

(** [if (err.code === "ENOENT") throw new FileNotFoundError(safe);
     throw err;] *)
Definition enoent_to_not_found (safe : string) {A : Type} (err : Error)
  : M A :=
  match err with
  | OtherError code =>
      if String.eqb code "ENOENT" then throw (FileNotFoundError safe)
      else throw err
  | _ => throw err
  end.

Definition safeReadFile (filePath : string) : M string :=
  let* safe := lift (resolveSandboxed filePath) in
  try_catch (Fs.readFile safe) (enoent_to_not_found safe).

Definition safeWriteFile (filePath content : string) : M unit :=
  let* safe := lift (resolveSandboxed filePath) in
  do Fs.writeFile safe content then
  log "info" "File written".

Definition safeFileExists (filePath : string) : M bool :=
  let* safe := lift (resolveSandboxed filePath) in
  try_catch (do Fs.access safe then ret true)
            (fun _ => ret false).

Definition auditLog (action : string) (details : Obj.props) : M unit :=
  let logPath := Path.resolve (cwd cfg) [WORKDIR cfg; AUDIT_LOG_FILENAME] in
  fun w =>
    let entry :=
      JSON_stringify rt 0
        (JObj (Obj.spread [("ts", JStr (clock w)); ("action", JStr action)]
                          details)) in
    try_catch (Fs.appendFile logPath (entry +:+ nl))
              (fun err => log "error" "Failed to write audit log") w.

Definition parseJSON (raw label : string) : Result Json :=
  match JSON_parse rt raw with
  | Some v => Ok v
  | None => Throw (ParseError ("Failed to parse JSON from " +:+ label))
  end.

Definition profileDir (type : ProfileType) : string :=
  Path.join [ORCA_USER_DIR cfg; type_name type].

Definition readProfile (type : ProfileType) (name : string) : M Json :=
  do lift (validateFilename name) then
  let filePath := Path.join [profileDir type; name] in
  let* raw := safeReadFile filePath in
  lift (parseJSON raw filePath).

(** The name the updated profile is saved under. *)
Definition targetName_of (name : string) (dry_run : bool) : string :=
  if dry_run then
    let ext := Path.extname name in
    let base := Path.basename name ext in
    base +:+ "_tuned" +:+ ext
  else name.

(** [data[key]], as far as [JSON.stringify] can tell.  Reading a
    property of [null] throws a TypeError.  A string has its characters
    and its length; of what a primitive inherits only [__proto__] is
    serialized (the prototype of a number prints as [0], of a string as
    the empty string, of a boolean as [false]). *)
Definition property_get (data : Json) (key : string)
  : Result (option Json) :=
  match data with
  | JObj props => Ok (Obj.get props key)
  | JArr items => Ok (Array_get rt items key)
  | JNull => Throw (OtherError "TypeError")
  | JStr s =>
      Ok (if String.eqb key "__proto__" then Some (JStr "")
          else if String.eqb key "length"
          then Some (JNum (inject_Z (Z.of_nat (Str.len s))))
          else match Obj.index_of key with
               | Some i =>
                   match Str.take 1 (Str.drop (N.to_nat i) s) with
                   | EmptyString => None
                   | c => Some (JStr c)
                   end
               | None => None
               end)
  | JNum _ =>
      Ok (if String.eqb key "__proto__" then Some (JNum 0) else None)
  | JBool _ =>
      Ok (if String.eqb key "__proto__" then Some (JBool false) else None)
  end.

(** [data[key] = value] in strict code, and the document afterwards.  On
    a primitive the assignment throws a TypeError, except for
    [__proto__], whose inherited setter ignores a primitive. *)
Definition property_set (data : Json) (key : string) (value : Json)
  : Result Json :=
  match data with
  | JObj props => Ok (JObj (Obj.set props key value))
  | JArr items =>
      match Array_set rt items key value with
      | Ok items' => Ok (JArr items')
      | Throw e => Throw e
      end
  | JNull => Throw (OtherError "TypeError")
  | JStr _ | JNum _ | JBool _ =>
      if String.eqb key "__proto__" then Ok data
      else Throw (OtherError "TypeError")
  end.

Definition handleUpdateProfileSetting (args : UpdateProfileSettingArgs)
  : M ToolResponse :=
  let* data := readProfile (u_type args) (u_name args) in
  let* oldValue := lift (property_get data (u_key args)) in
  let* data := lift (property_set data (u_key args) (u_value args)) in
  let targetName := targetName_of (u_name args) (u_dry_run args) in
  let targetPath := Path.join [profileDir (u_type args); targetName] in
  do safeWriteFile targetPath (JSON_stringify rt 2 data) then
  do auditLog "update_profile_setting"
       ([ ("type", JStr (type_name (u_type args)));
          ("profile", JStr (u_name args));
          ("savedAs", JStr targetName);
          ("key", JStr (u_key args)) ]
        ++ Obj.optional "oldValue" oldValue
        ++ [ ("newValue", u_value args);
             ("dryRun", JBool (u_dry_run args)) ])%list then
  ret {| isError := false;
         text :=
           JSON_stringify rt 2
             (JObj ([ ("success", JBool true);
                      ("profile", JStr targetName);
                      ("key", JStr (u_key args)) ]
                    ++ Obj.optional "oldValue" oldValue
                    ++ [ ("newValue", u_value args);
                         ("dry_run", JBool (u_dry_run args)) ])%list) |}.

(** The [message] of the error [execa] rejects with: the short message,
    then what was captured of the standard error, then of the standard
    output, the parts that are not empty separated by an empty line. *)
Definition execa_message (file : string) (args : list string)
           (outcome : ProcOutcome) : string :=
  let '(stdout, stderr) :=
    match outcome with
    | Exited _ stdout stderr | TimedOut stdout stderr => (stdout, stderr)
    | SpawnFailed _ => (EmptyString, EmptyString)
    end in
  Str.join (nl +:+ nl)
    (List.filter (fun part => negb (Str.is_empty part))
       [ execa_shortMessage rt file args outcome;
         execa_messagePart rt stderr;
         execa_messagePart rt stdout ]).

(** [execa(file, args, { timeout })] without a shell: it resolves when
    the process exits with code 0 and rejects otherwise.  The error has
    an [exitCode] only when the process exited by itself; it carries what
    was captured of the standard error, and its message holds all that
    was captured. *)
Definition execa (file : string) (args : list string) (timeout : Z)
  : M (Z * string * string) :=
  fun w =>
    let '(outcome, fs') := spawn w file args timeout (fs w) in
    let w' := with_fs w fs' in
    let message := execa_message file args outcome in
    match outcome with
    | Exited code stdout stderr =>
        if (code =? 0)%Z then (Ok (code, stdout, stderr), w')
        else (Throw (ExecaError (Some code) stderr message), w')
    | TimedOut stdout stderr => (Throw (ExecaError None stderr message), w')
    | SpawnFailed code => (Throw (ExecaError None "" message), w')
    end.

(** The [catch] clause of [handleSliceModel].  [isExeca] is the test
    ["exitCode" in errObj]: it holds for the error of a process that
    exited by itself and for a [CliExecutionError], not for the error of
    a process that was killed or never started, which has no such
    property. *)
Definition slice_failure (err : Error) : Error :=
  let isExeca :=
    match err with
    | ExecaError (Some _) _ _ | CliExecutionError _ _ => true
    | _ => false
    end in
  let exitCode :=
    if isExeca then
      match err with
      | ExecaError c _ _ | CliExecutionError _ c => c
      | _ => None
      end
    else None in
  let stderr :=
    if isExeca then
      match err with
      | ExecaError _ stderr _ => Str.slice_to 2000 stderr
      | _ => ""
      end
    else "" in
  let message := message_of err in
  CliExecutionError
    ("Slicing failed (exit " +:+ show_exit exitCode +:+ "): " +:+ message
       +:+ nl +:+ stderr)
    exitCode.

(** The [try] statement of [handleSliceModel]: run the slicer, record
    the run, build the answer. *)
Definition run_slicer (args : SliceModelArgs) (cliArgs : list string)
  : M ToolResponse :=
  try_catch
    (let* result := execa (ORCA_SLICER_PATH cfg) cliArgs (timeout_ms args) in
     let '(exitCode, stdout, stderr) := result in
     do auditLog "slice_model"
          [ ("input", JStr (input_file args));
            ("output", JStr (output_file args));
            ("exitCode", JNum (inject_Z exitCode)) ] then
     ret {| isError := false;
            text :=
              JSON_stringify rt 2
                (JObj [ ("success", JBool true);
                        ("output_file", JStr (output_file args));
                        ("stdout", JStr (Str.slice_to 2000 stdout));
                        ("stderr", JStr (Str.slice_to 2000 stderr)) ]) |})
    (fun err => throw (slice_failure err)).

(** [if (profile) { validateFilename(profile); cliArgs.push(flag,
    resolveSandboxed(join(profileDir(type), profile))); }] *)
Definition push_profile (flag : string) (type : ProfileType)
           (profile : option string) (cliArgs : list string)
  : Result (list string) :=
  match truthy profile with
  | Some name =>
      match validateFilename name with
      | Throw e => Throw e
      | Ok _ =>
          match resolveSandboxed (Path.join [profileDir type; name]) with
          | Throw e => Throw e
          | Ok p => Ok (cliArgs ++ [flag; p])%list
          end
      end
  | None => Ok cliArgs
  end.

Definition handleSliceModel (args : SliceModelArgs) : M ToolResponse :=
  do lift (validateFilename (input_file args)) then
  do lift (validateFilename (output_file args)) then
  let* inputPath :=
    lift (resolveSandboxed (Path.join [WORKDIR cfg; input_file args])) in
  let* outputPath :=
    lift (resolveSandboxed (Path.join [WORKDIR cfg; output_file args])) in
  let* present := safeFileExists inputPath in
  if negb present then
    ret {| isError := true;
           text := "[404 Not Found] Input file not found: "
                     +:+ input_file args |}
  else
    let cliArgs := ["--slice"; inputPath; "-o"; outputPath] in
    let* cliArgs :=
      lift (push_profile "--load-settings" machine
                         (profile_machine args) cliArgs) in
    let* cliArgs :=
      lift (push_profile "--load-filaments" filament
                         (profile_filament args) cliArgs) in
    let* cliArgs :=
      lift (push_profile "--load-process" process
                         (profile_process args) cliArgs) in
    do log "info" "Slicing" then
    run_slicer args cliArgs.

End Core.

(* ================================================================== *)
(** ** A sample installation, for the examples *)

Definition sample_config : Config :=
  {| cwd := "/home/user";
     WORKDIR := "/work";
     ORCA_USER_DIR := "/orca";
     ORCA_SLICER_PATH := "/usr/bin/orca-slicer" |}.

Definition empty_fs : FS := {| files := ∅; dirs := ∅; faults := ∅ |}.

(** A world whose slicer binary does not exist. *)
Definition sample_world (f : FS) : World :=
  {| fs := f;
     oplog := [];
     clock := "2024-01-01T00:00:00.000Z";
     spawn := fun _ _ _ f' => (SpawnFailed "ENOENT", f') |}.

(** A world whose slicer exits with a given code and output, changing
    nothing. *)
Definition exiting_world (code : Z) (stdout stderr : string) : World :=
  {| fs := empty_fs;
     oplog := [];
     clock := "2024-01-01T00:00:00.000Z";
     spawn := fun _ _ _ f' => (Exited code stdout stderr, f') |}.

(** 3000 characters of output. *)
Definition long_output : string :=
  Str.join "" (List.repeat "0123456789" 300).

(** A [JSON] for the examples, exact on the fragment they use: objects,
    arrays, strings without escape sequences, integers, booleans and
    [null].  Text outside the fragment is not parsed. *)
Module SampleJson.

Definition skip_ws : string -> string := Str.trimStart.

(** The characters up to the closing quote, and what follows it. *)
Fixpoint string_body (s : string) : option (string * string) :=
  match s with
  | EmptyString => None
  | String c s' =>
      if Ascii.eqb c (ascii_of_nat 34) then Some (EmptyString, s')
      else if Ascii.eqb c backslash then None
      else match string_body s' with
           | Some (body, rest) => Some (String c body, rest)
           | None => None
           end
  end.

Definition integer (s : string) : option (Json * string) :=
  let '(negative, t) :=
    match s with
    | String "-" t => (true, t)
    | _ => (false, s)
    end in
  let '(ds, rest) := Number.span Char.is_digit t in
  if Str.is_empty ds then None
  else Some (JNum (Number.signed negative (inject_Z (Number.digits_value ds))),
             rest).

Definition keyword (word : string) (v : Json) (s : string)
  : option (Json * string) :=
  if Str.startsWith word s then Some (v, Str.drop (Str.len word) s) else None.

Fixpoint value (fuel : nat) (s : string) : option (Json * string) :=
  match fuel with
  | O => None
  | S fuel' =>
      match skip_ws s with
      | String "n" _ as t => keyword "null" JNull t
      | String "t" _ as t => keyword "true" (JBool true) t
      | String "f" _ as t => keyword "false" (JBool false) t
      | String "[" t =>
          match skip_ws t with
          | String "]" rest => Some (JArr [], rest)
          | _ =>
              match elements fuel' t with
              | Some (items, rest) => Some (JArr items, rest)
              | None => None
              end
          end
      | String "{" t =>
          match skip_ws t with
          | String "}" rest => Some (JObj [], rest)
          | _ =>
              match members fuel' t with
              | Some (props, rest) =>
                  Some (JObj (Obj.spread [] props), rest)
              | None => None
              end
          end
      | String c t as u =>
          if Ascii.eqb c (ascii_of_nat 34) then
            match string_body t with
            | Some (body, rest) => Some (JStr body, rest)
            | None => None
            end
          else integer u
      | EmptyString => None
      end
  end

with elements (fuel : nat) (s : string) : option (list Json * string) :=
  match fuel with
  | O => None
  | S fuel' =>
      match value fuel' s with
      | Some (v, rest) =>
          match skip_ws rest with
          | String "]" rest' => Some ([v], rest')
          | String "," rest' =>
              match elements fuel' rest' with
              | Some (vs, rest'') => Some (v :: vs, rest'')
              | None => None
              end
          | _ => None
          end
      | None => None
      end
  end

with members (fuel : nat) (s : string)
  : option (list (string * Json) * string) :=
  match fuel with
  | O => None
  | S fuel' =>
      match skip_ws s with
      | String c t =>
          if Ascii.eqb c (ascii_of_nat 34) then
            match string_body t with
            | Some (key, rest) =>
                match skip_ws rest with
                | String ":" rest' =>
                    match value fuel' rest' with
                    | Some (v, rest'') =>
                        match skip_ws rest'' with
                        | String "}" r => Some ([(key, v)], r)
                        | String "," r =>
                            match members fuel' r with
                            | Some (kvs, r') => Some ((key, v) :: kvs, r')
                            | None => None
                            end
                        | _ => None
                        end
                    | None => None
                    end
                | _ => None
                end
            | None => None
            end
          else None
      | EmptyString => None
      end
  end.

Definition parse (text : string) : option Json :=
  match value (S (Str.len text)) text with
  | Some (v, rest) => if Str.is_empty (skip_ws rest) then Some v else None
  | None => None
  end.

Definition quote (s : string) : string := dq +:+ s +:+ dq.

Definition number (q : Q) : string :=
  if (Z.pos (Qden q) =? 1)%Z then pretty (Qnum q)
  else pretty (Qnum q) +:+ "/" +:+ pretty (Z.pos (Qden q)).

Fixpoint spaces (n : nat) : string :=
  match n with O => EmptyString | S n' => String " " (spaces n') end.

(** [gap] is the indentation unit, [cur] the indentation reached. *)
Fixpoint print (gap cur : string) (v : Json) : string :=
  let inner := cur +:+ gap in
  let break := if Str.is_empty gap then EmptyString else nl +:+ inner in
  let close := if Str.is_empty gap then EmptyString else nl +:+ cur in
  let colon := if Str.is_empty gap then ":" else ": " in
  match v with
  | JNull => "null"
  | JBool true => "true"
  | JBool false => "false"
  | JNum q => number q
  | JStr s => quote s
  | JArr [] => "[]"
  | JArr items =>
      let fix each (l : list Json) : list string :=
        match l with
        | [] => []
        | x :: r => (break +:+ print gap inner x) :: each r
        end in
      "[" +:+ Str.join "," (each items) +:+ close +:+ "]"
  | JObj [] => "{}"
  | JObj props =>
      let fix each (l : list (string * Json)) : list string :=
        match l with
        | [] => []
        | (k, x) :: r =>
            (break +:+ quote k +:+ colon +:+ print gap inner x) :: each r
        end in
      "{" +:+ Str.join "," (each props) +:+ close +:+ "}"
  end.

Definition stringify (indent : nat) (v : Json) : string :=
  print (spaces indent) EmptyString v.

End SampleJson.

(** A runtime for the examples.  Its arrays answer for an index within
    the array and for [length]; assigning such an index replaces the
    element, and the examples assign nothing else to an array. *)
Definition sample_runtime : Runtime :=
  {| JSON_parse := SampleJson.parse;
     JSON_stringify := SampleJson.stringify;
     execa_shortMessage :=
       fun file args outcome =>
         match outcome with
         | SpawnFailed code =>
             "Command failed with " +:+ code +:+ ": " +:+ file
         | Exited code _ _ =>
             "Command failed with exit code " +:+ pretty code +:+ ": "
               +:+ file
         | TimedOut _ _ => "Command timed out: " +:+ file
         end;
     execa_messagePart := fun part => part;
     Array_get :=
       fun items key =>
         if String.eqb key "length"
         then Some (JNum (inject_Z (Z.of_nat (length items))))
         else match Obj.index_of key with
              | Some i => nth_error items (N.to_nat i)
              | None => None
              end;
     Array_set :=
       fun items key value =>
         match Obj.index_of key with
         | Some i =>
             if (N.to_nat i <? length items)%nat
             then Ok (firstn (N.to_nat i) items ++ value
                        :: skipn (S (N.to_nat i)) items)%list
             else Ok items
         | None => Ok items
         end |}.

(* ================================================================== *)
(** ** Vocabulary of the specification *)

(** The class of names the specification allows: the first character an
    ASCII letter, a digit, an underscore or a hyphen; the others ASCII
    letters, digits, underscores, hyphens, periods or spaces. *)
Definition allowed_name (name : string) : bool :=
  match name with
  | String c rest => Char.is_name_start c && Str.forallb Char.is_name_char rest
  | EmptyString => false
  end.

(** The characters the specification names as rejected. *)
Definition forbidden_char (c : ascii) : bool :=
  Char.is_char "/" c || Char.is_char backslash c || Char.is_char "$" c
  || Char.is_char "`" c || Char.is_char ";" c.

(** The two comment lines of the scenario of the specification. *)
Definition line_filament_g : string := "; filament used [g] = 37.5".
Definition line_layers : string := "; total layers count = 150".

(** A comment line, the text after its marker, whether one of the five
    well-known patterns matches that text, and the raw key and value the
    generic pattern captures in it. *)
Definition is_comment (line : string) : bool :=
  Str.startsWith ";" (Str.trim line).

Definition body_of (line : string) : string :=
  Str.trim (Str.slice_from 1 (Str.trim line)).

Definition matches_some (r : Regex.regex) (s : string) : bool :=
  match Regex.matches r s with Some _ => true | None => false end.

Definition well_known (body : string) : bool :=
  matches_some Gcode.re_time body
  || matches_some Gcode.re_filament_mm body
  || matches_some Gcode.re_filament_g body
  || matches_some Gcode.re_cost body
  || matches_some Gcode.re_layers body.

Definition generic_match (body : string) : option (string * string) :=
  match Regex.matches Gcode.re_kv body with
  | Some kv => Some (Regex.group 1 kv, Regex.group 2 kv)
  | None => None
  end.

(** A path segment that names an entry: not empty, not [.], not [..],
    without a separator. *)
Definition proper_segment (seg : string) : bool :=
  negb (Str.is_empty seg) && negb (String.eqb seg ".")
  && negb (String.eqb seg "..") && negb (Str.existsb (Char.is_char "/") seg).

(** [p] is [root] or lies below it; [p] is the entry [name] of [root]. *)
Definition descendant_or_self (root p : string) : Prop :=
  exists rest : list string,
    Path.segments p = (Path.segments root ++ rest)%list.

Definition direct_child (root p name : string) : Prop :=
  Path.segments p = (Path.segments root ++ [name])%list.

(** The absolute form [resolveSandboxed] checks. *)
Definition absolute_form (cfg : Config) (raw : string) : string :=
  Path.normalize (Path.resolve (cwd cfg) [raw]).

Abbreviation all_proper := (Forall (fun s => proper_segment s = true)).
Abbreviation all_no_slash :=
  (Forall (fun s => Str.existsb (Char.is_char "/") s = false)).

(** The segments of the absolute form of [p]: those of [p], after those of
    the working directory when [p] is relative, with [.] and [..]
    resolved. *)
Definition abs_segments (cwd p : string) : list string :=
  Path.normalize_segments false
    ((if Path.isAbsolute p then [] else Str.split "/" cwd)
       ++ Str.split "/" p)%list.

(** The decision of [inside_root], read on the segments of the root and of
    the candidate: the candidate is the root itself, or it continues the
    root with a segment that does not begin with two periods. *)
Definition inside_segments (root candidate : list string) : bool :=
  match Path.strip_common root candidate with
  | ([], []) => true
  | ([], x :: _) => negb (Str.startsWith ".." x)
  | (_ :: _, _) => false
  end.

(** [s.includes(sub)] *)
Fixpoint includes (sub s : string) : bool :=
  Str.startsWith sub s
  || match s with
     | String _ s' => includes sub s'
     | EmptyString => false
     end.

(** A settings directory with one process profile, [infill_density] at 20. *)
Definition sample_profile_text : string :=
  "{" +:+ dq +:+ "infill_density" +:+ dq +:+ ":20," +:+ dq +:+ "layer_height"
      +:+ dq +:+ ":2}".

Definition sample_profiles : FS :=
  {| files := {[ "/orca/process/standard_quality.json" := sample_profile_text ]};
     dirs := {[ "/work"; "/orca"; "/orca/process" ]};
     faults := ∅ |}.

Definition sample_update (key : string) (value : Json)
  : UpdateProfileSettingArgs :=
  {| u_type := process; u_name := "standard_quality.json";
     u_key := key; u_value := value; u_dry_run := true |}.

(* ================================================================== *)
(** ** The rest of the file helpers, and the read-only handlers *)

(** What [stat] reports of an entry. *)
Inductive Stats : Type :=
  | StatFile (size : nat)
  | StatDirectory.

(** [readdir], [stat] and [existsSync] on the file system of the model. *)
Module Dir.

(** The name under which [p] is listed in [dir], when [p] is an entry of
    [dir]. *)
Definition child_name (dir p : string) : option string :=
  match Path.strip_common (Path.segments dir) (Path.segments p) with
  | ([], [name]) => Some name
  | _ => None
  end.

Definition entries (f : FS) (dir : string) : list string :=
  omap (child_name dir)
       ((map_to_list (files f)).*1 ++ elements (dirs f))%list.

Definition readdir (p : string) : M (list string) :=
  fun w =>
    match Fs.fault (fs w) p with
    | Some e => (Throw e, w)
    | None =>
        if bool_decide (p ∈ dirs (fs w)) then (Ok (entries (fs w) p), w)
        else
          match files (fs w) !! p with
          | Some _ => (Throw (OtherError "ENOTDIR"), w)
          | None => (Throw (OtherError "ENOENT"), w)
          end
    end.

Definition stat (p : string) : M Stats :=
  fun w =>
    match Fs.fault (fs w) p with
    | Some e => (Throw e, w)
    | None =>
        match files (fs w) !! p with
        | Some content => (Ok (StatFile (Str.len content)), w)
        | None =>
            if bool_decide (p ∈ dirs (fs w)) then (Ok StatDirectory, w)
            else (Throw (OtherError "ENOENT"), w)
        end
    end.

(** [existsSync(p)]: a relative path is looked up from the working
    directory of the process; every failure reads as [false]. *)
Definition existsSync (cwd p : string) (w : World) : bool :=
  negb (Str.is_empty p) && is_ok (fst (Fs.access (Path.resolve cwd [p]) w)).

End Dir.

(** [Array.prototype.sort()] on strings: ascending by code units. *)
Module Arr.

Fixpoint insert (x : string) (l : list string) : list string :=
  match l with
  | [] => [x]
  | y :: l' => if String.leb x y then x :: l else y :: insert x l'
  end.

Definition sort (l : list string) : list string :=
  fold_right insert [] l.

(** [for (const x of l) body] over a state the body updates. *)
Fixpoint for_of {A S : Type} (l : list A) (body : A -> S -> M S) (s : S)
  : M S :=
  match l with
  | [] => ret s
  | x :: l' => let* s' := body x s in for_of l' body s'
  end.

End Arr.

(** [Object.entries(v)] for a value [JSON.parse] returned. *)
Definition object_entries (v : Json) : Result (list (string * Json)) :=
  match v with
  | JObj props => Ok props
  | JArr items => Ok (imap (fun i x => (pretty i, x)) items)
  | JStr s =>
      Ok (imap (fun i c => (pretty i, JStr (String c EmptyString)))
               (list_ascii_of_string s))
  | JNum _ | JBool _ => Ok []
  | JNull => Throw (OtherError "TypeError")
  end.

Record SearchSettingsArgs : Type := {
  s_query : string;
  s_type : option ProfileType;
}.

(** [errorToContent]: the text of the one content item. *)
Definition errorToContent (err : Error) : string :=
  match err with
  | SandboxError _ => "[403 Forbidden] " +:+ message_of err
  | FileNotFoundError _ => "[404 Not Found] " +:+ message_of err
  | ParseError _ => "[Parse Error] " +:+ message_of err
  | CliExecutionError _ _ => "[CLI Error] " +:+ message_of err
  | _ => "[Internal Error] " +:+ message_of err
  end.

Section Handlers.

Variable cfg : Config.
Variable rt : Runtime.

Definition safeReaddir (dirPath : string) : M (list string) :=
  let* safe := lift (resolveSandboxed cfg dirPath) in
  try_catch (Dir.readdir safe) (enoent_to_not_found safe).

Definition safeStat (filePath : string) : M Stats :=
  let* safe := lift (resolveSandboxed cfg filePath) in
  try_catch (Dir.stat safe) (enoent_to_not_found safe).

Definition listProfileFiles (type : ProfileType) : M (list string) :=
  let dir := profileDir cfg type in
  let* entries :=
    try_catch (let* entries := safeReaddir dir in ret (Some entries))
              (fun _ => ret None) in
  match entries with
  | None => ret []
  | Some entries =>
      ret (Arr.sort (List.filter (Path.ends_with ".json") entries))
  end.

Definition handleListProfiles (type : ProfileType) : M ToolResponse :=
  let* files := listProfileFiles type in
  ret {| isError := false;
         text :=
           JSON_stringify rt 2
             (JObj [ ("type", JStr (type_name type));
                     ("profiles", JArr (List.map JStr files)) ]) |}.

(** One match of [handleSearchSettings]. *)
Definition search_match (t : ProfileType) (f key : string) (value : Json)
  : Json :=
  JObj [ ("type", JStr (type_name t)); ("profile", JStr f);
         ("key", JStr key); ("value", value) ].

(** The loop over the entries of one profile. *)
Definition search_entries (queryLower : string) (t : ProfileType)
           (f : string) (entries : list (string * Json))
           (results : list Json) : list Json :=
  fold_left
    (fun results '(key, value) =>
       if includes queryLower (Str.toLowerCase key)
       then (results ++ [search_match t f key value])%list
       else results)
    entries results.

(** The [try] statement of [handleSearchSettings], for one file. *)
Definition search_profile (queryLower : string) (t : ProfileType)
           (f : string) (results : list Json) : M (list Json) :=
  try_catch
    (let* data := readProfile cfg rt t f in
     let* entries := lift (object_entries data) in
     ret (search_entries queryLower t f entries results))
    (fun _ => ret results).

Definition handleSearchSettings (args : SearchSettingsArgs)
  : M ToolResponse :=
  let types :=
    match s_type args with
    | Some t => [t]
    | None => [machine; filament; process]
    end in
  let queryLower := Str.toLowerCase (s_query args) in
  let* results :=
    Arr.for_of types
      (fun t results =>
         let* files := listProfileFiles t in
         Arr.for_of files (search_profile queryLower t) results)
      [] in
  ret {| isError := false;
         text :=
           JSON_stringify rt 2
             (JObj [ ("query", JStr (s_query args));
                     ("matches", JArr results) ]) |}.


Definition handleHealthCheck : M ToolResponse :=
  fun w =>
    let binaryExists := Dir.existsSync (cwd cfg) (ORCA_SLICER_PATH cfg) w in
    let userDirAccessible :=
      match resolveSandboxed cfg (ORCA_USER_DIR cfg) with
      | Ok _ => Dir.existsSync (cwd cfg) (ORCA_USER_DIR cfg) w
      | Throw _ => false
      end in
    let workdirAccessible := Dir.existsSync (cwd cfg) (WORKDIR cfg) w in
    (Ok {| isError := false;
           text :=
             JSON_stringify rt 2
               (JObj [ ("orcaSlicerPath", JStr (ORCA_SLICER_PATH cfg));
                       ("binaryFound", JBool binaryExists);
                       ("userDir", JStr (ORCA_USER_DIR cfg));
                       ("userDirAccessible", JBool userDirAccessible);
                       ("workDir", JStr (WORKDIR cfg));
                       ("workDirAccessible", JBool workdirAccessible) ]) |},
     w).

(** The [try] statement of the [CallTool] handler, around the handler
    the [switch] selected for the tool [name]. *)
Definition callTool (name : string) (handler : M ToolResponse)
  : M ToolResponse :=
  do log "debug" ("Tool called: " +:+ name) then
  try_catch handler
    (fun err =>
       do log "error" ("Tool error: " +:+ name) then
       ret {| isError := true; text := errorToContent err |}).

(** The [default] case of the [switch]. *)
Definition unknown_tool (name : string) : M ToolResponse :=
  ret {| isError := true; text := "Unknown tool: " +:+ name |}.

End Handlers.

(* ================================================================== *)
(** ** [config.ts] *)

Inductive LogLevel : Type := LevelDebug | LevelInfo | LevelError.

Definition level_name (l : LogLevel) : string :=
  match l with
  | LevelDebug => "debug"
  | LevelInfo => "info"
  | LevelError => "error"
  end.

Definition parseLogLevel (raw : option string) : LogLevel :=
  match raw with
  | Some s =>
      if String.eqb s "debug" then LevelDebug
      else if String.eqb s "info" then LevelInfo
      else if String.eqb s "error" then LevelError
      else LevelInfo
  | None => LevelInfo
  end.

Definition LEVEL_PRIORITY (l : LogLevel) : Z :=
  match l with
  | LevelDebug => 0
  | LevelInfo => 1
  | LevelError => 2
  end.

(** [log] with its threshold: below [LOG_LEVEL] nothing is written. *)
Definition log_at (LOG_LEVEL level : LogLevel) (message : string) : M unit :=
  if (LEVEL_PRIORITY level <? LEVEL_PRIORITY LOG_LEVEL)%Z then ret tt
  else log (level_name level) message.

(** [/^--workdir=(.+)$/] *)
Definition re_workdir : Regex.regex :=
  Regex.seq [ Regex.Lit "--workdir="; Regex.Grp (Regex.Plus Char.dot);
              Regex.Eos ].

(** The loop of [parseWorkdir] over [process.argv.slice(2)]. *)
Fixpoint parseWorkdir_args (cwd : string) (args : list string) : string :=
  match args with
  | [] => cwd
  | arg :: rest =>
      match Regex.matches re_workdir arg with
      | Some m => Path.resolve cwd [Regex.group 1 m]
      | None => parseWorkdir_args cwd rest
      end
  end.

Definition parseWorkdir (cwd : string) (argv : list string) : string :=
  parseWorkdir_args cwd (skipn 2 argv).

Record Overrides : Type := {
  o_workdir : option string;
  o_orcaUserDir : option string;
  o_orcaSlicerPath : option string;
}.

Definition overrideConfig (cfg : Config) (overrides : Overrides) : Config :=
  {| cwd := cwd cfg;
     WORKDIR :=
       match o_workdir overrides with
       | Some d => Path.resolve (cwd cfg) [d]
       | None => WORKDIR cfg
       end;
     ORCA_USER_DIR :=
       match o_orcaUserDir overrides with
       | Some d => Path.resolve (cwd cfg) [d]
       | None => ORCA_USER_DIR cfg
       end;
     ORCA_SLICER_PATH :=
       match o_orcaSlicerPath overrides with
       | Some p => p
       | None => ORCA_SLICER_PATH cfg
       end |}.

(** A settings directory with two process profiles, a note and a
    sub-directory, and a model in the work directory. *)
Definition sample_tree : FS :=
  {| files :=
       {[ "/orca/process/standard_quality.json" := sample_profile_text;
          "/orca/process/draft.json" := "{}";
          "/orca/process/notes.txt" := "not a profile";
          "/work/model.stl" := "solid" ]};
     dirs := {[ "/work"; "/orca"; "/orca/process"; "/orca/process/old" ]};
     faults := ∅ |}.

(** A list of strings in ascending order of code units. *)
Abbreviation ascending :=
  (StronglySorted (fun a b : string => String.leb a b = true)).

(** A match [handleSearchSettings] may report in a world, for a lowered
    query and a profile type when the search is restricted to one: an
    entry of the profile read from a file that [listProfileFiles] lists
    for its type, whose key contains the query when lowered.  Such a file
    has an allowed name that ends in [.json]. *)
Definition search_hit (cfg : Config) (rt : Runtime) (w : World)
           (queryLower : string) (only : option ProfileType) (m : Json)
  : Prop :=
  exists (t : ProfileType) (names : list string) (f : string) (data : Json)
         (entries : list (string * Json)) (key : string) (value : Json),
    m = search_match t f key value
    /\ match only with Some t' => t' = t | None => True end
    /\ listProfileFiles cfg t w = (Ok names, w)
    /\ In f names
    /\ readProfile cfg rt t f w = (Ok data, w)
    /\ object_entries data = Ok entries
    /\ In (key, value) entries
    /\ includes queryLower (Str.toLowerCase key) = true
    /\ allowed_name f = true
    /\ Path.ends_with ".json" f = true.

(** The arguments [handleSliceModel] adds for one optional profile. *)
Definition profile_args (cfg : Config) (flag : string) (type : ProfileType)
           (profile : option string) : list string :=
  match truthy profile with
  | Some name =>
      [flag; absolute_form cfg (Path.join [profileDir cfg type; name])]
  | None => []
  end.

(** An optional profile name that is absent, empty or allowed. *)
Definition profile_allowed (profile : option string) : bool :=
  match truthy profile with
  | Some name => allowed_name name
  | None => true
  end.

(** The shape of an entry of the metadata: the time is a string; the
    three filament figures are numbers, each [NaN], [Infinity] or not
    negative; the layer count is a natural number or [Infinity] (what a
    run of digits too long for a double reads as); and every other key is
    a generic one: written without capital letters or blanks, not a name
    objects inherit, with a string value. *)
Definition typed_entry (k : string) (v : JsVal) : Prop :=
  if String.eqb k "estimatedTime" then exists s, v = VStr s
  else if String.eqb k "filamentUsedMm" || String.eqb k "filamentUsedG"
          || String.eqb k "filamentCost"
  then exists n, v = VNum n
                 /\ (n = NaN \/ n = Infinity false
                     \/ exists q, n = Num q /\ (0 <= q)%Q)
  else if String.eqb k "layerCount"
  then v = VNum (Infinity false)
       \/ exists n : N, v = VNum (Num (inject_Z (Z.of_N n)))
  else (exists s, v = VStr s)
       /\ Str.existsb Char.is_upper k = false
       /\ Str.existsb Char.is_space k = false
       /\ Obj.is_inherited k = false.

(** The well-known field a line sets, with the value it gives it: the
    first of the five patterns that matches the text of a comment line. *)
Definition well_known_field (line : string) : option (string * JsVal) :=
  if negb (is_comment line) then None else
  let body := body_of line in
  match Regex.matches Gcode.re_time body with
  | Some m => Some ("estimatedTime", VStr (Str.trim (Regex.group 1 m)))
  | None =>
  match Regex.matches Gcode.re_filament_mm body with
  | Some m =>
      Some ("filamentUsedMm", VNum (Number.parseFloat (Regex.group 1 m)))
  | None =>
  match Regex.matches Gcode.re_filament_g body with
  | Some m =>
      Some ("filamentUsedG", VNum (Number.parseFloat (Regex.group 1 m)))
  | None =>
  match Regex.matches Gcode.re_cost body with
  | Some m =>
      Some ("filamentCost", VNum (Number.parseFloat (Regex.group 1 m)))
  | None =>
  match Regex.matches Gcode.re_layers body with
  | Some m => Some ("layerCount", VNum (Number.parseInt (Regex.group 1 m)))
  | None => None
  end end end end end.
(* ================================================================== *)
(** * Properties *)

(** ** The tests of the repository, on the embedding *)

Example test_sandbox_allows_and_rejects :
  resolveSandboxed sample_config (Path.join ["/work"; "test.stl"])
  = Ok "/work/test.stl"
  /\ resolveSandboxed sample_config
       (Path.join ["/orca"; "machine"; "my_printer.json"])
     = Ok "/orca/machine/my_printer.json"
  /\ is_ok (resolveSandboxed sample_config
              (Path.join ["/work"; ".."; ".."; "etc"; "passwd"])) = false
  /\ is_ok (resolveSandboxed sample_config "/etc/passwd") = false
  /\ is_ok (resolveSandboxed sample_config
              (Path.join ["/work"; "subdir"; ".."; ".."; ".."; "secret"]))
     = false.
Proof. repeat split; vm_compute; reflexivity. Qed.

Example test_validateFilename :
  List.map (fun name => is_ok (validateFilename name))
           [ "my_printer.json"; "PLA-Generic.json"; "test_cube.stl";
             "output.gcode"; "../evil.json"; "sub/dir.json";
             "$(whoami).json"; "file;rm -rf /.json"; "a`b`.json"; "" ]
  = [ true; true; true; true; false; false; false; false; false; false ].
Proof. vm_compute. reflexivity. Qed.

Example test_parseGcodeMetadata :
  let gcode :=
    Str.join nl [ "G28"; "; filament used [mm] = 12345.67";
                  "; filament used [g] = 37.5"; "; filament cost = 1.23";
                  "; total layers count = 150";
                  "; estimated printing time = 2h 15m 30s" ] in
  let meta := Gcode.parseGcodeMetadata gcode in
  meta !! "filamentUsedMm" = Some (VNum (Number.to_double 12345.67))
  /\ meta !! "filamentUsedG" = Some (VNum (Num (Qred 37.5)))
  /\ meta !! "filamentCost" = Some (VNum (Number.to_double 1.23))
  /\ meta !! "layerCount" = Some (VNum (Num 150))
  /\ meta !! "estimatedTime" = Some (VStr "2h 15m 30s")
  /\ Gcode.parseGcodeMetadata ("G28" +:+ nl +:+ "G1 X10 Y10" +:+ nl) = ∅.
Proof. repeat split; vm_compute; reflexivity. Qed.

(** ** Strings *)

#[local] Arguments String.append !s1 s2 : simpl nomatch.

Lemma len_app (a b : string) : Str.len (a +:+ b) = (Str.len a + Str.len b)%nat.
Proof. induction a as [|c a IH]; simpl; [reflexivity | now rewrite IH]. Qed.

Lemma drop_app_len (a b : string) (k : nat) :
  Str.drop (Str.len a + k) (a +:+ b) = Str.drop k b.
Proof. induction a as [|c a IH]; simpl; [reflexivity | exact IH]. Qed.

Lemma take_len_le (n : nat) (s : string) : (Str.len (Str.take n s) <= n)%nat.
Proof.
  revert s; induction n as [|n IH]; intros [|c s]; simpl; try lia.
  specialize (IH s). lia.
Qed.

Lemma app_assoc_s (a b c : string) : (a +:+ b) +:+ c = a +:+ (b +:+ c).
Proof. induction a as [|x a IH]; simpl; [reflexivity | f_equal; exact IH]. Qed.

Lemma app_empty_r (a : string) : a +:+ "" = a.
Proof. induction a as [|x a IH]; simpl; [reflexivity | f_equal; exact IH]. Qed.

(** ** The regular expression matcher *)

Lemma star_greedy_end {A : Type} (p : ascii -> bool) (s : string) (x : A) :
  Regex.star_greedy p s
    (fun s' => match s' with EmptyString => Some x | String _ _ => None end)
  = if Str.forallb p s then Some x else None.
Proof.
  induction s as [|c s IH]; simpl; [reflexivity|].
  destruct (p c); simpl; [|reflexivity].
  rewrite IH. destruct (Str.forallb p s); reflexivity.
Qed.

Lemma test_SAFE_FILENAME_RE (name : string) :
  Regex.test SAFE_FILENAME_RE name = allowed_name name.
Proof.
  unfold Regex.test, Regex.matches, SAFE_FILENAME_RE. simpl.
  destruct name as [|c rest]; simpl; [reflexivity|].
  destruct (Char.is_name_start c); simpl; [|reflexivity].
  rewrite (star_greedy_end Char.is_name_char rest (@nil string)).
  destruct (Str.forallb Char.is_name_char rest); reflexivity.
Qed.

(** ** The filename validator *)

Lemma forbidden_not_name_char (c : ascii) :
  forbidden_char c = true -> Char.is_name_char c = false.
Proof.
  unfold forbidden_char, Char.is_char. intros H.
  repeat (apply orb_true_iff in H; destruct H as [H|H]);
    apply Ascii.eqb_eq in H; subst c; reflexivity.
Qed.

Lemma name_start_is_name_char (c : ascii) :
  Char.is_name_start c = true -> Char.is_name_char c = true.
Proof. unfold Char.is_name_char. intros ->. reflexivity. Qed.

Lemma forbidden_not_allowed (name : string) :
  Str.existsb forbidden_char name = true -> allowed_name name = false.
Proof.
  destruct name as [|c rest]; simpl; [discriminate|].
  intros H. apply orb_true_iff in H. destruct H as [H|H].
  - apply forbidden_not_name_char in H.
    destruct (Char.is_name_start c) eqn:E; [|reflexivity].
    apply name_start_is_name_char in E. congruence.
  - apply andb_false_iff. right.
    induction rest as [|d rest IH]; simpl in *; [discriminate|].
    apply orb_true_iff in H. destruct H as [H|H].
    + now rewrite (forbidden_not_name_char d H).
    + rewrite (IH H). apply andb_false_r.
Qed.

Lemma validateFilename_allowed (name : string) :
  validateFilename name = if allowed_name name then Ok tt
    else Throw (SandboxError
                  ("Invalid filename " +:+ dq +:+ name +:+ dq +:+
                   ": only alphanumerics, underscores, hyphens, periods, and spaces are allowed.")).
Proof.
  unfold validateFilename. rewrite test_SAFE_FILENAME_RE.
  destruct (allowed_name name); reflexivity.
Qed.

(** C3. The filename validator fails with AccessDenied ([SandboxError]) for
    the empty string and for every name that contains a slash, a
    backslash, a dollar sign, a backtick or a semicolon; it succeeds for
    every name whose first character is an ASCII letter, a digit, an
    underscore or a hyphen and whose other characters are ASCII letters,
    digits, underscores, hyphens, periods or spaces. *)
Theorem validateFilename_rejects_and_accepts :
  (forall name : string,
      name = "" \/ Str.existsb forbidden_char name = true ->
      exists message, validateFilename name = Throw (SandboxError message))
  /\ (forall name : string,
         allowed_name name = true -> validateFilename name = Ok tt).
Proof.
  split; intros name H; rewrite validateFilename_allowed.
  - assert (E : allowed_name name = false).
    { destruct H as [-> | H]; [reflexivity | now apply forbidden_not_allowed]. }
    rewrite E. eauto.
  - now rewrite H.
Qed.

Lemma validateFilename_rejects_and_accepts_witness :
  (exists message,
      validateFilename "file;rm -rf /.json" = Throw (SandboxError message))
  /\ (exists message, validateFilename "" = Throw (SandboxError message))
  /\ validateFilename "PLA-Generic 0.4.json" = Ok tt.
Proof.
  destruct validateFilename_rejects_and_accepts as [Hrej Hacc].
  split; [|split].
  - apply Hrej. right. reflexivity.
  - apply Hrej. left. reflexivity.
  - apply Hacc. reflexivity.
Defined.

(** ** Slices and lines *)

Lemma drop_app_le (k : nat) (a b : string) :
  (k <= Str.len a)%nat -> Str.drop k (a +:+ b) = Str.drop k a +:+ b.
Proof.
  revert a; induction k as [|k IH]; intros a H; [reflexivity|].
  destruct a as [|c a]; simpl in *; [lia|]. apply IH. lia.
Qed.

Lemma slice_last_app_ge (n : nat) (a b : string) :
  (n <= Str.len b)%nat -> Str.slice_last n (a +:+ b) = Str.slice_last n b.
Proof.
  intros H. unfold Str.slice_last. rewrite len_app.
  replace (Str.len a + Str.len b - n)%nat
    with (Str.len a + (Str.len b - n))%nat by lia.
  apply drop_app_len.
Qed.

Lemma slice_last_app_le (n : nat) (a b : string) :
  (Str.len b <= n)%nat ->
  Str.slice_last n (a +:+ b) = Str.slice_last (n - Str.len b) a +:+ b.
Proof.
  intros H. unfold Str.slice_last. rewrite len_app.
  replace (Str.len a + Str.len b - n)%nat
    with (Str.len a - (n - Str.len b))%nat by lia.
  apply drop_app_le. lia.
Qed.

Lemma len_drop (k : nat) (s : string) :
  Str.len (Str.drop k s) = (Str.len s - k)%nat.
Proof.
  revert s; induction k as [|k IH]; intros [|c s]; simpl; try reflexivity.
  apply IH.
Qed.

Lemma slice_last_idem (n : nat) (s : string) :
  Str.slice_last n (Str.slice_last n s) = Str.slice_last n s.
Proof.
  unfold Str.slice_last. rewrite len_drop.
  replace (Str.len s - (Str.len s - n) - n)%nat with 0%nat by lia.
  reflexivity.
Qed.

Lemma split_nonempty (sep : ascii) (s : string) : Str.split sep s <> [].
Proof.
  induction s as [|c s IH]; simpl; [discriminate|].
  destruct (Ascii.eqb c sep); [discriminate|].
  destruct (Str.split sep s); [contradiction | discriminate].
Qed.

Lemma split_app (sep : ascii) (a b : string) :
  Str.split sep (a +:+ String sep b) = (Str.split sep a ++ Str.split sep b)%list.
Proof.
  induction a as [|c a IH]; simpl.
  - now rewrite Ascii.eqb_refl.
  - rewrite IH. destruct (Ascii.eqb c sep); [reflexivity|].
    pose proof (split_nonempty sep a) as Hne.
    destruct (Str.split sep a); [contradiction | reflexivity].
Qed.

(** ** The G-code metadata parser *)

Lemma parseGcodeMetadata_tail (pre g : string) :
  (4096 <= Str.len g)%nat ->
  Gcode.parseGcodeMetadata (pre +:+ g) = Gcode.parseGcodeMetadata g.
Proof.
  intros H. unfold Gcode.parseGcodeMetadata.
  now rewrite slice_last_app_ge.
Qed.

(** C6. The metadata extractor is a total function of its input alone: it
    is defined on every string, it maps the empty string to the empty
    mapping, and its result depends only on the final 4096 code units of
    the input: whatever precedes them does not change the result. *)
Theorem parseGcodeMetadata_total_on_tail :
  Gcode.parseGcodeMetadata "" = ∅
  /\ (forall gcode : string,
         exists meta : GcodeMetadata,
           Gcode.parseGcodeMetadata gcode = meta
           /\ Gcode.parseGcodeMetadata (Str.slice_last 4096 gcode) = meta)
  /\ (forall pre tail : string,
         Str.len tail = 4096%nat ->
         Gcode.parseGcodeMetadata (pre +:+ tail)
         = Gcode.parseGcodeMetadata tail).
Proof.
  split; [reflexivity|]. split.
  - intros gcode. eexists. split; [reflexivity|].
    unfold Gcode.parseGcodeMetadata. now rewrite slice_last_idem.
  - intros pre tail H. apply parseGcodeMetadata_tail. lia.
Qed.

Lemma parseGcodeMetadata_total_on_tail_witness :
  let tail := Str.join "" (repeat "0123456789abcdef" 256) in
  Str.len tail = 4096%nat
  /\ Gcode.parseGcodeMetadata ("; filament cost = 1.23" +:+ nl +:+ tail)
     = Gcode.parseGcodeMetadata tail.
Proof.
  intros tail.
  destruct parseGcodeMetadata_total_on_tail as (_ & _ & H).
  split; [vm_compute; reflexivity|].
  apply (H ("; filament cost = 1.23" +:+ nl) tail). vm_compute. reflexivity.
Defined.

Ltac eval_here t v :=
  replace t with v by (vm_compute; reflexivity).

Lemma processLine_filament_g (meta : GcodeMetadata) :
  Gcode.processLine meta line_filament_g
  = <["filamentUsedG" := VNum (Num (Qred 37.5))]> meta.
Proof.
  unfold Gcode.processLine. cbv zeta.
  eval_here (Str.startsWith ";" (Str.trim line_filament_g)) true.
  cbn [negb].
  set (body := Str.trim (Str.slice_from 1 (Str.trim line_filament_g))).
  eval_here (Regex.matches Gcode.re_time body) (@None (list string)).
  eval_here (Regex.matches Gcode.re_filament_mm body) (@None (list string)).
  eval_here (Regex.matches Gcode.re_filament_g body) (Some ["37.5"]).
  eval_here (Number.parseFloat (Regex.group 1 ["37.5"])) (Num (Qred 37.5)).
  reflexivity.
Qed.

Lemma processLine_layers (meta : GcodeMetadata) :
  Gcode.processLine meta line_layers
  = <["layerCount" := VNum (Num 150)]> meta.
Proof.
  unfold Gcode.processLine. cbv zeta.
  eval_here (Str.startsWith ";" (Str.trim line_layers)) true.
  cbn [negb].
  set (body := Str.trim (Str.slice_from 1 (Str.trim line_layers))).
  eval_here (Regex.matches Gcode.re_time body) (@None (list string)).
  eval_here (Regex.matches Gcode.re_filament_mm body) (@None (list string)).
  eval_here (Regex.matches Gcode.re_filament_g body) (@None (list string)).
  eval_here (Regex.matches Gcode.re_cost body) (@None (list string)).
  eval_here (Regex.matches Gcode.re_layers body) (Some ["150"]).
  eval_here (Number.parseInt (Regex.group 1 ["150"])) (Num 150).
  reflexivity.
Qed.

Lemma fold_two_lines (before after : list string) :
  Forall (fun l => l = "") after ->
  let meta := fold_left Gcode.processLine
                (before ++ [line_filament_g; line_layers] ++ after)%list ∅ in
  meta !! "filamentUsedG" = Some (VNum (Num (Qred 37.5)))
  /\ meta !! "layerCount" = Some (VNum (Num 150)).
Proof.
  intros Hafter. cbv zeta. rewrite !fold_left_app. cbn [fold_left].
  rewrite processLine_filament_g, processLine_layers.
  set (m := <["layerCount" := _]> _).
  assert (Hskip : fold_left Gcode.processLine after m = m).
  { clear -Hafter. induction Hafter as [|l after -> _ IH]; [reflexivity|].
    exact IH. }
  rewrite Hskip. unfold m. split.
  - rewrite lookup_insert_ne by discriminate. apply lookup_insert_eq.
  - apply lookup_insert_eq.
Qed.

(** C7. A G-code text whose last two lines are
    [; filament used [g] = 37.5] and [; total layers count = 150], alone
    or after any text and a line feed, with or without a final line feed,
    yields a mapping with [filamentUsedG] equal to 37.5 and [layerCount]
    equal to 150. *)
Theorem parseGcodeMetadata_scenario :
  forall (before : string) (final_line_feed : bool),
    let ending :=
      line_filament_g +:+ nl +:+ line_layers
        +:+ (if final_line_feed then nl else "") in
    forall gcode : string,
      gcode = ending \/ gcode = before +:+ nl +:+ ending ->
      Gcode.parseGcodeMetadata gcode !! "filamentUsedG"
        = Some (VNum (Num (Qred 37.5)))
      /\ Gcode.parseGcodeMetadata gcode !! "layerCount"
         = Some (VNum (Num 150)).
Proof.
  intros before final_line_feed ending gcode Hg.
  assert (Hlines : exists after,
             Str.split LF ending
             = ([line_filament_g; line_layers] ++ after)%list
             /\ Forall (fun l => l = "") after).
  { destruct final_line_feed.
    - exists [""]. split; [reflexivity | repeat constructor].
    - exists []. split; [reflexivity | constructor]. }
  destruct Hlines as (after & Hsplit & Hafter).
  assert (Hlen : (Str.len ending <= 54)%nat)
    by (destruct final_line_feed; vm_compute; lia).
  destruct Hg as [-> | ->].
  - unfold Gcode.parseGcodeMetadata, Str.slice_last.
    replace (Str.len ending - 4096)%nat with 0%nat by lia.
    cbn [Str.drop]. rewrite Hsplit. now apply (fold_two_lines []).
  - unfold Gcode.parseGcodeMetadata.
    replace (before +:+ nl +:+ ending) with ((before +:+ nl) +:+ ending)
      by apply app_assoc_s.
    rewrite slice_last_app_le by lia.
    set (kept := Str.slice_last _ (before +:+ nl)).
    assert (Hk : exists k, kept = k +:+ nl).
    { unfold kept, Str.slice_last. rewrite len_app.
      change (Str.len nl) with 1%nat.
      exists (Str.drop (Str.len before + 1 - (4096 - Str.len ending)) before).
      apply drop_app_le. lia. }
    destruct Hk as [k ->].
    replace ((k +:+ nl) +:+ ending) with (k +:+ String LF ending)
      by (now rewrite app_assoc_s).
    rewrite split_app, Hsplit. now apply fold_two_lines.
Qed.

Lemma parseGcodeMetadata_scenario_witness :
  let gcode := "G28" +:+ nl +:+ "; filament cost = 1.23" +:+ nl
               +:+ line_filament_g +:+ nl +:+ line_layers +:+ nl in
  Gcode.parseGcodeMetadata gcode !! "filamentUsedG"
    = Some (VNum (Num (Qred 37.5)))
  /\ Gcode.parseGcodeMetadata gcode !! "layerCount" = Some (VNum (Num 150)).
Proof.
  apply (parseGcodeMetadata_scenario
           ("G28" +:+ nl +:+ "; filament cost = 1.23") true).
  right. reflexivity.
Defined.

(** *** Generic keys *)

Lemma to_lower_not_upper (c : ascii) : Char.is_upper (Char.to_lower c) = false.
Proof. destruct c as [[] [] [] [] [] [] [] []]; reflexivity. Qed.

Lemma to_lower_space (c : ascii) :
  Char.is_space (Char.to_lower c) = Char.is_space c.
Proof. destruct c as [[] [] [] [] [] [] [] []]; reflexivity. Qed.

Lemma toLowerCase_no_upper (s : string) :
  Str.existsb Char.is_upper (Str.toLowerCase s) = false.
Proof.
  unfold Str.toLowerCase.
  induction s as [|c s IH]; simpl; [reflexivity|].
  now rewrite to_lower_not_upper, IH.
Qed.

Lemma replace_blank_runs_no_blank (b : bool) (s : string) :
  Str.existsb Char.is_space (Str.replace_blank_runs b s) = false.
Proof.
  revert b; induction s as [|c s IH]; intros b; simpl; [reflexivity|].
  destruct (Char.is_space c) eqn:E.
  - destruct b; simpl; now rewrite ?IH.
  - simpl. now rewrite E, IH.
Qed.

Lemma toLowerCase_blank (s : string) :
  Str.existsb Char.is_space (Str.toLowerCase s)
  = Str.existsb Char.is_space s.
Proof.
  unfold Str.toLowerCase.
  induction s as [|c s IH]; simpl; [reflexivity|].
  now rewrite to_lower_space, IH.
Qed.

Lemma normalize_key_shape (k : string) :
  Str.existsb Char.is_upper (Gcode.normalize_key k) = false
  /\ Str.existsb Char.is_space (Gcode.normalize_key k) = false.
Proof.
  unfold Gcode.normalize_key. split.
  - apply toLowerCase_no_upper.
  - rewrite toLowerCase_blank. apply replace_blank_runs_no_blank.
Qed.

Lemma matches_some_false (r : Regex.regex) (s : string) :
  matches_some r s = false -> Regex.matches r s = None.
Proof. unfold matches_some. destruct (Regex.matches r s); [discriminate|reflexivity]. Qed.

Lemma processLine_generic (meta : GcodeMetadata) (line rawkey rawval : string) :
  is_comment line = true ->
  well_known (body_of line) = false ->
  generic_match (body_of line) = Some (rawkey, rawval) ->
  Gcode.processLine meta line
  = if key_in (Gcode.normalize_key rawkey) meta then meta
    else <[Gcode.normalize_key rawkey := VStr (Str.trim rawval)]> meta.
Proof.
  unfold is_comment, body_of, well_known, generic_match, Gcode.processLine.
  intros Hc Hw Hg. cbv zeta. rewrite Hc. cbn [negb].
  repeat (apply orb_false_iff in Hw; destruct Hw as [Hw ?]).
  repeat match goal with
         | H : matches_some _ _ = false |- _ =>
             apply matches_some_false in H; rewrite H
         end.
  destruct (Regex.matches Gcode.re_kv _) as [kv|]; [|discriminate].
  injection Hg as <- <-.
  destruct (key_in _ meta); reflexivity.
Qed.

Lemma key_in_of_lookup (k : string) (meta : GcodeMetadata) (v : JsVal) :
  meta !! k = Some v -> key_in k meta = true.
Proof.
  intros H. unfold key_in. apply orb_true_iff. left.
  apply bool_decide_eq_true. rewrite H. eauto.
Qed.

(** A key without capitals, once set, is never changed by a later line. *)
Lemma processLine_keeps (meta : GcodeMetadata) (line k : string) (v : JsVal) :
  Str.existsb Char.is_upper k = false ->
  meta !! k = Some v ->
  Gcode.processLine meta line !! k = Some v.
Proof.
  intros Hk Hv. unfold Gcode.processLine. cbv zeta.
  assert (Hne : forall name, Str.existsb Char.is_upper name = true -> name <> k)
    by (intros name Hn ->; congruence).
  destruct (negb _); [exact Hv|].
  repeat match goal with
         | |- context [match Regex.matches ?r ?b with _ => _ end] =>
             destruct (Regex.matches r b)
         end;
    try (rewrite lookup_insert_ne by (apply Hne; reflexivity); exact Hv);
    try exact Hv.
  destruct (key_in _ meta) eqn:Ein; simpl; [exact Hv|].
  rewrite lookup_insert_ne; [exact Hv|].
  intros E. rewrite E in Ein. rewrite (key_in_of_lookup _ _ _ Hv) in Ein.
  discriminate.
Qed.

Lemma fold_processLine_keeps (lines : list string) (meta : GcodeMetadata)
      (k : string) (v : JsVal) :
  Str.existsb Char.is_upper k = false ->
  meta !! k = Some v ->
  fold_left Gcode.processLine lines meta !! k = Some v.
Proof.
  intros Hk. revert meta. induction lines as [|l lines IH]; intros meta Hv.
  - exact Hv.
  - simpl. apply IH. now apply processLine_keeps.
Qed.

(** The part of C8 that holds.  A comment line that matches none of the
    five well-known patterns and fits the generic [key = value] shape has its key normalized (no
    capital letter is left, every run of blanks has become one underscore)
    and is stored as a string only if [key in meta] does not already hold:
    on the line itself, the mapping is left as it is when the key is
    present and gets the key with the trimmed value otherwise; over a
    whole text, a line that stores its key decides the final value of that
    key, whatever lines follow, so that later duplicates are dropped. *)
Theorem generic_key_first_occurrence_wins :
  forall line rawkey rawval : string,
    is_comment line = true ->
    well_known (body_of line) = false ->
    generic_match (body_of line) = Some (rawkey, rawval) ->
    let key := Gcode.normalize_key rawkey in
    let value := VStr (Str.trim rawval) in
    (Str.existsb Char.is_upper key = false
     /\ Str.existsb Char.is_space key = false)
    /\ (forall meta : GcodeMetadata,
           Gcode.processLine meta line
           = if key_in key meta then meta else <[key := value]> meta)
    /\ (forall (before after : list string) (meta0 : GcodeMetadata),
           key_in key (fold_left Gcode.processLine before meta0) = false ->
           fold_left Gcode.processLine (before ++ line :: after)%list meta0
             !! key = Some value)
    /\ (forall meta : GcodeMetadata,
           key_in key meta = true -> Gcode.processLine meta line = meta)
    /\ (forall (meta : GcodeMetadata) (present : JsVal),
           meta !! key = Some present -> Gcode.processLine meta line = meta).
Proof.
  intros line rawkey rawval Hc Hw Hg key value.
  pose proof (normalize_key_shape rawkey) as [Hup Hbl].
  split; [split; assumption|]. split; [|split; [|split]].
  - intros meta. now apply processLine_generic.
  - intros before after meta0 Hin.
    rewrite fold_left_app. simpl.
    apply fold_processLine_keeps; [exact Hup|].
    rewrite (processLine_generic _ _ _ _ Hc Hw Hg).
    fold key. rewrite Hin. apply lookup_insert_eq.
  - intros meta Hin. rewrite (processLine_generic _ _ _ _ Hc Hw Hg).
    fold key. now rewrite Hin.
  - intros meta present Hp. rewrite (processLine_generic _ _ _ _ Hc Hw Hg).
    fold key. now rewrite (key_in_of_lookup _ _ _ Hp).
Qed.

Lemma generic_key_first_occurrence_wins_witness :
  Gcode.parseGcodeMetadata
    ("; Nozzle  Diameter = 0.4" +:+ nl +:+ "; nozzle diameter = 0.6")
    !! "nozzle_diameter" = Some (VStr "0.4").
Proof.
  pose proof (generic_key_first_occurrence_wins
                "; Nozzle  Diameter = 0.4" "Nozzle  Diameter" "0.4"
                eq_refl eq_refl eq_refl) as (_ & _ & H & _).
  exact (H [] ["; nozzle diameter = 0.6"] ∅ eq_refl).
Defined.

(** A name inherited from [Object.prototype] satisfies [key in meta] from
    the start, so a generic line with such a key is never stored. *)
Example inherited_key_is_dropped :
  Gcode.parseGcodeMetadata "; constructor = x" = ∅.
Proof. reflexivity. Qed.

Lemma processLine_never_stores_inherited (meta : GcodeMetadata)
      (line k : string) :
  Obj.is_inherited k = true ->
  meta !! k = None -> Gcode.processLine meta line !! k = None.
Proof.
  intros Hk Hm. unfold Gcode.processLine. cbv zeta.
  destruct (negb _); [exact Hm|].
  repeat match goal with
         | |- context [match Regex.matches ?r ?b with _ => _ end] =>
             destruct (Regex.matches r b)
         end;
    try exact Hm;
    try (rewrite lookup_insert_ne; [exact Hm|];
         intros <-; vm_compute in Hk; discriminate).
  destruct (key_in _ meta) eqn:Ein; cbn [negb]; [exact Hm|].
  rewrite lookup_insert_ne; [exact Hm|].
  intros E. rewrite E in Ein. unfold key_in in Ein.
  rewrite Hk in Ein. now rewrite orb_true_r in Ein.
Qed.

Lemma inherited_keys_never_stored (gcode k : string) :
  Obj.is_inherited k = true -> Gcode.parseGcodeMetadata gcode !! k = None.
Proof.
  intros Hk. unfold Gcode.parseGcodeMetadata. cbv zeta.
  generalize (Str.split LF (Str.slice_last 4096 gcode)). intros lines.
  assert (H : forall meta : GcodeMetadata,
             meta !! k = None ->
             fold_left Gcode.processLine lines meta !! k = None).
  { induction lines as [|l lines IH]; intros meta Hm; [exact Hm|].
    simpl. apply IH. now apply processLine_never_stores_inherited. }
  apply H. apply lookup_empty.
Qed.

(** C8, where the code departs from the claim.  The comment line
    [; Constructor = Object] matches none of the five well-known patterns
    and fits the generic shape; its key normalizes to [constructor], which
    no line has set.  The claim has it stored, as the first occurrence.
    The code drops it: its test [key in meta] also holds for the names
    every object inherits, so that the metadata stays empty, while around
    it an ordinary key is stored at its first occurrence and dropped at
    the second.  For every text, a generic key [constructor] or
    [__proto__] is never stored. *)
Theorem generic_key_with_inherited_name_is_dropped :
  let line := "; Constructor = Object" in
  is_comment line = true
  /\ well_known (body_of line) = false
  /\ generic_match (body_of line) = Some ("Constructor", "Object")
  /\ Gcode.normalize_key "Constructor" = "constructor"
  /\ (∅ : GcodeMetadata) !! "constructor" = None
  /\ key_in "constructor" ∅ = true
  /\ Gcode.parseGcodeMetadata line = ∅
  /\ Gcode.parseGcodeMetadata
       ("; Nozzle  Diameter = 0.4" +:+ nl +:+ line +:+ nl
          +:+ "; nozzle diameter = 0.6")
     = {[ "nozzle_diameter" := VStr "0.4" ]}
  /\ (forall gcode : string,
        Gcode.parseGcodeMetadata gcode !! "constructor" = None
        /\ Gcode.parseGcodeMetadata gcode !! "__proto__" = None).
Proof.
  do 8 (split; [vm_compute; reflexivity|]).
  intros gcode. split; now apply inherited_keys_never_stored.
Qed.

(** ** Safe file I/O *)

(** C2, the claim as stated fails: a path outside the two roots makes
    [safeFileExists] throw the sandbox error instead of answering false. *)
Lemma safeFileExists_throws_outside_roots :
  exists message,
    safeFileExists sample_config "/etc/passwd" (sample_world empty_fs)
    = (Throw (SandboxError message), sample_world empty_fs).
Proof. eexists. vm_compute. reflexivity. Qed.

(** C2, amended. [safeFileExists] never throws for a path the sandbox
    accepts: it answers true when the access check succeeds and false on
    every failure of that check.  For a path the sandbox rejects it throws
    the AccessDenied error of the sandbox.  It never changes the world. *)
Theorem safeFileExists_total_inside_sandbox :
  forall (cfg : Config) (filePath : string) (w : World),
    match resolveSandboxed cfg filePath with
    | Ok safe =>
        safeFileExists cfg filePath w
        = (Ok (is_ok (fst (Fs.access safe w))), w)
    | Throw e =>
        safeFileExists cfg filePath w = (Throw e, w)
        /\ exists message, e = SandboxError message
    end.
Proof.
  intros cfg filePath w. unfold safeFileExists, bind, lift, try_catch.
  destruct (resolveSandboxed cfg filePath) as [safe|e] eqn:E.
  - unfold Fs.access, ret.
    destruct (Fs.fault (fs w) safe); [reflexivity|].
    destruct (files (fs w) !! safe); [reflexivity|].
    destruct (bool_decide _); reflexivity.
  - split; [reflexivity|].
    unfold resolveSandboxed in E.
    destruct (negb _); [|discriminate]. injection E as <-. eauto.
Qed.

(** ** The audit log *)

Lemma appendFile_frame (p content : string) (w : World) :
  exists w',
    snd (Fs.appendFile p content w) = w'
    /\ (forall q, q <> p -> files (fs w') !! q = files (fs w) !! q)
    /\ oplog w' = oplog w
    /\ (is_ok (fst (Fs.appendFile p content w)) = false -> w' = w).
Proof.
  unfold Fs.appendFile. eexists. split; [reflexivity|].
  destruct (Fs.fault (fs w) p); simpl; [auto|].
  destruct (bool_decide _); simpl; [auto|].
  repeat split; try discriminate.
  intros q Hq. now rewrite lookup_insert_ne.
Qed.

Lemma auditLog_run (cfg : Config) (rt : Runtime) (action : string)
      (details : Obj.props) (w : World) :
  let logPath :=
    Path.resolve (cwd cfg) [WORKDIR cfg; AUDIT_LOG_FILENAME] in
  exists w',
    auditLog cfg rt action details w = (Ok tt, w')
    /\ (forall q, q <> logPath -> files (fs w') !! q = files (fs w) !! q)
    /\ (forall content,
           is_ok (fst (Fs.appendFile logPath content w)) = false ->
           fs w' = fs w
           /\ oplog w'
              = ("error", "Failed to write audit log") :: oplog w).
Proof.
  intros logPath.
  unfold auditLog, try_catch. fold logPath.
  set (entry := JSON_stringify rt 0 _ +:+ nl).
  assert (Hfail : forall c1 c2,
             is_ok (fst (Fs.appendFile logPath c1 w))
             = is_ok (fst (Fs.appendFile logPath c2 w))).
  { intros c1 c2. unfold Fs.appendFile.
    destruct (Fs.fault (fs w) logPath); [reflexivity|].
    destruct (bool_decide _); reflexivity. }
  destruct (appendFile_frame logPath entry w)
    as (w1 & Hw1 & Hframe & Hlog & Hsame).
  destruct (Fs.appendFile logPath entry w) as [[[]|e] w1'] eqn:E;
    simpl in Hw1, Hsame; subst w1'.
  - exists w1. split; [reflexivity|]. split; [exact Hframe|].
    intros content Hc. rewrite (Hfail content entry), E in Hc. discriminate.
  - rewrite (Hsame eq_refl). eexists. split; [reflexivity|].
    split; [reflexivity|]. intros _ _. split; reflexivity.
Qed.

(** C9. [auditLog] returns normally for every action and every detail
    mapping, in every world: when the append fails, the failure is
    written to the operational log and the file system is left as it
    is.  Whatever the caller does next is therefore run, and files other
    than the log are never touched. *)
Theorem auditLog_never_throws :
  forall (cfg : Config) (rt : Runtime) (action : string)
         (details : Obj.props) (w : World),
    let logPath :=
      Path.resolve (cwd cfg) [WORKDIR cfg; AUDIT_LOG_FILENAME] in
    exists w',
      auditLog cfg rt action details w = (Ok tt, w')
      /\ (forall q, q <> logPath -> files (fs w') !! q = files (fs w) !! q)
      /\ (forall content,
             is_ok (fst (Fs.appendFile logPath content w)) = false ->
             fs w' = fs w
             /\ oplog w'
                = ("error", "Failed to write audit log") :: oplog w)
      /\ (forall (A : Type) (next : M A),
             (do auditLog cfg rt action details then next) w = next w').
Proof.
  intros cfg rt action details w logPath.
  destruct (auditLog_run cfg rt action details w) as (w' & Hrun & Hframe & Hfail).
  exists w'. split; [exact Hrun|]. split; [exact Hframe|].
  split; [exact Hfail|].
  intros A next. unfold bind. now rewrite Hrun.
Qed.

Lemma auditLog_never_throws_witness :
  let locked :=
    {| files := ∅; dirs := ∅;
       faults := {[ "/work/tuning_history.log" := "EACCES" ]} |} in
  exists w',
    auditLog sample_config sample_runtime
             "slice_model" [] (sample_world locked) = (Ok tt, w')
    /\ fs w' = locked
    /\ oplog w' = [("error", "Failed to write audit log")].
Proof.
  intros locked.
  destruct (auditLog_never_throws sample_config sample_runtime
              "slice_model" [] (sample_world locked))
    as (w' & Hrun & _ & Hfail & _).
  exists w'. split; [exact Hrun|].
  apply (Hfail ""). reflexivity.
Defined.

(** ** The subprocess runner *)

Lemma startsWith_app (x b : string) : Str.startsWith x (x +:+ b) = true.
Proof.
  induction x as [|c x IH]; [reflexivity|].
  simpl. now rewrite Ascii.eqb_refl, IH.
Qed.

Lemma includes_app_r (x a s : string) :
  includes x s = true -> includes x (a +:+ s) = true.
Proof.
  intros H. induction a as [|c a IH]; [exact H|].
  simpl. rewrite IH. apply orb_true_r.
Qed.

Lemma includes_prefix (x b : string) : includes x (x +:+ b) = true.
Proof.
  destruct (x +:+ b) eqn:E; simpl; rewrite <- E, startsWith_app; reflexivity.
Qed.

Lemma includes_self (x : string) : includes x x = true.
Proof. rewrite <- (app_empty_r x) at 2. apply includes_prefix. Qed.

Lemma run_slicer_failure (cfg : Config) (rt : Runtime)
      (args : SliceModelArgs) (cliArgs : list string) (w w' : World)
      (exitCode : option Z) (stderr message : string) :
  execa rt (ORCA_SLICER_PATH cfg) cliArgs (timeout_ms args) w
  = (Throw (ExecaError exitCode stderr message), w') ->
  run_slicer cfg rt args cliArgs w
  = (Throw (slice_failure (ExecaError exitCode stderr message)), w').
Proof.
  intros H. unfold run_slicer, try_catch, bind. rewrite H. reflexivity.
Qed.

(** The part of C4 that holds.  The subprocess invocation fails with
    ProcessFailure ([CliExecutionError]) when the process exits with a
    code other than zero (the error carries that code, and after the
    message of [execa] the first 2000 characters of the captured standard
    error), when it cannot be spawned and when it exceeds the timeout (the
    error carries no exit code, and nothing follows the message of
    [execa]).  The captured output the successful answer embeds is cut to
    its first 2000 characters. *)
Lemma run_slicer_outcomes :
  forall (cfg : Config) (rt : Runtime) (args : SliceModelArgs)
         (cliArgs : list string) (w : World),
    let file := ORCA_SLICER_PATH cfg in
    let outcome := fst (spawn w file cliArgs (timeout_ms args) (fs w)) in
    let after :=
      with_fs w (snd (spawn w file cliArgs (timeout_ms args) (fs w))) in
    let message := execa_message rt file cliArgs outcome in
    let failure (exitCode : option Z) (captured : string) :=
      run_slicer cfg rt args cliArgs w
      = (Throw (CliExecutionError
                  ("Slicing failed (exit " +:+ show_exit exitCode +:+ "): "
                     +:+ message +:+ nl +:+ captured)
                  exitCode), after) in
    (forall code stdout stderr,
        outcome = Exited code stdout stderr -> code <> 0%Z ->
        failure (Some code) (Str.slice_to 2000 stderr))
    /\ (forall code, outcome = SpawnFailed code -> failure None "")
    /\ (forall stdout stderr,
           outcome = TimedOut stdout stderr -> failure None "")
    /\ (forall stdout stderr,
           outcome = Exited 0 stdout stderr ->
           exists w',
             run_slicer cfg rt args cliArgs w
             = (Ok {| isError := false;
                      text :=
                        JSON_stringify rt 2
                          (JObj [ ("success", JBool true);
                                  ("output_file", JStr (output_file args));
                                  ("stdout", JStr (Str.slice_to 2000 stdout));
                                  ("stderr", JStr (Str.slice_to 2000 stderr))
                                ]) |}, w'))
    /\ (forall captured : string,
           (Str.len (Str.slice_to 2000 captured) <= 2000)%nat).
Proof.
  intros cfg rt args cliArgs w file outcome after message failure.
  assert (Hexeca :
            execa rt file cliArgs (timeout_ms args) w
            = match outcome with
              | Exited code stdout stderr =>
                  if (code =? 0)%Z then (Ok (code, stdout, stderr), after)
                  else (Throw (ExecaError (Some code) stderr message), after)
              | TimedOut stdout stderr =>
                  (Throw (ExecaError None stderr message), after)
              | SpawnFailed code => (Throw (ExecaError None "" message), after)
              end).
  { unfold execa, message, outcome, after, file.
    destruct (spawn w _ _ _ _) as [o f]. simpl. reflexivity. }
  split; [|split; [|split; [|split]]].
  - intros code stdout stderr Ho Hne. rewrite Ho in Hexeca.
    destruct (Z.eqb_spec code 0); [contradiction|].
    unfold failure. now rewrite (run_slicer_failure _ _ _ _ _ _ _ _ _ Hexeca).
  - intros code Ho. rewrite Ho in Hexeca.
    unfold failure. now rewrite (run_slicer_failure _ _ _ _ _ _ _ _ _ Hexeca).
  - intros stdout stderr Ho. rewrite Ho in Hexeca.
    unfold failure. now rewrite (run_slicer_failure _ _ _ _ _ _ _ _ _ Hexeca).
  - intros stdout stderr Ho. rewrite Ho in Hexeca. simpl in Hexeca.
    destruct (auditLog_run cfg rt "slice_model"
                [ ("input", JStr (input_file args));
                  ("output", JStr (output_file args));
                  ("exitCode", JNum (inject_Z 0)) ] after)
      as (w' & Hrun & _).
    exists w'. unfold run_slicer, try_catch, bind. fold file.
    rewrite Hexeca. rewrite Hrun. reflexivity.
  - intros captured. apply take_len_le.
Qed.

(** The scenario of the specification: a binary that does not exist. *)
Lemma run_slicer_missing_binary :
  let args :=
    {| input_file := "cube.stl"; output_file := "cube.gcode";
       profile_machine := None; profile_filament := None;
       profile_process := None; timeout_ms := 300000 |} in
  let cliArgs := ["--slice"; "/work/cube.stl"; "-o"; "/work/cube.gcode"] in
  run_slicer sample_config sample_runtime args cliArgs
             (sample_world empty_fs)
  = (Throw (CliExecutionError
              ("Slicing failed (exit undefined): "
                 +:+ "Command failed with ENOENT: /usr/bin/orca-slicer"
                 +:+ nl)
              None), sample_world empty_fs).
Proof.
  intros args cliArgs.
  destruct (run_slicer_outcomes sample_config sample_runtime args cliArgs
              (sample_world empty_fs)) as (_ & Hspawn & _).
  exact (Hspawn "ENOENT" eq_refl).
Qed.

Lemma execa_message_holds_stderr (rt : Runtime) (file : string)
      (args : list string) (code : Z) (stdout stderr : string) :
  includes (execa_messagePart rt stderr)
           (execa_message rt file args (Exited code stdout stderr)) = true.
Proof.
  unfold execa_message. cbn [List.filter].
  destruct (execa_messagePart rt stderr) as [|c part] eqn:E;
    [destruct (Str.join _ _); reflexivity|].
  destruct (Str.is_empty (execa_shortMessage rt file args _));
    destruct (Str.is_empty (execa_messagePart rt stdout));
    cbn [negb Str.is_empty Str.join];
    repeat first [ apply includes_self | apply includes_prefix
                 | apply includes_app_r ].
Qed.

(** C4, where the code departs from the claim.  A slicer that exits with
    code 1 after writing 3000 characters to its standard error makes the
    handler throw a ProcessFailure whose message holds all 3000
    characters: the handler cuts the [stderr] it appends to 2000
    characters, but before it the message of [execa] is embedded as it
    is, and that message already holds the whole captured output.  This
    is so for every failing exit and every output: the error message
    holds, uncut, the captured standard error as [execa] prints it. *)
Theorem run_slicer_error_embeds_whole_stderr :
  let args :=
    {| input_file := "cube.stl"; output_file := "cube.gcode";
       profile_machine := None; profile_filament := None;
       profile_process := None; timeout_ms := 300000 |} in
  let cliArgs := ["--slice"; "/work/cube.stl"; "-o"; "/work/cube.gcode"] in
  let w := exiting_world 1 "" long_output in
  Str.len long_output = 3000%nat
  /\ (exists message : string,
        run_slicer sample_config sample_runtime args cliArgs w
        = (Throw (CliExecutionError message (Some 1%Z)), w)
        /\ includes long_output message = true
        /\ (2000 < Str.len message)%nat)
  /\ (forall (rt : Runtime) (file : string) (argv : list string) (code : Z)
             (stdout stderr : string),
        let message := execa_message rt file argv (Exited code stdout stderr) in
        slice_failure (ExecaError (Some code) stderr message)
        = CliExecutionError
            ("Slicing failed (exit " +:+ pretty code +:+ "): " +:+ message
               +:+ nl +:+ Str.slice_to 2000 stderr)
            (Some code)
        /\ includes (execa_messagePart rt stderr) message = true).
Proof.
  intros args cliArgs w.
  split; [vm_compute; reflexivity|]. split.
  - eexists. split; [vm_compute; reflexivity|].
    split; [vm_compute; reflexivity|].
    apply Nat.ltb_lt. vm_compute. reflexivity.
  - intros rt file argv code stdout stderr message.
    split; [reflexivity|]. apply execa_message_holds_stderr.
Qed.

(** ** Paths *)

Lemma split_no_sep (sep : ascii) (s : string) :
  Str.existsb (Char.is_char sep) s = false -> Str.split sep s = [s].
Proof.
  induction s as [|c s IH]; simpl; [reflexivity|].
  unfold Char.is_char at 1. intros H. apply orb_false_iff in H as [Hc Hs].
  rewrite Hc. now rewrite (IH Hs).
Qed.

Lemma split_pieces_no_sep (sep : ascii) (s : string) :
  Forall (fun seg => Str.existsb (Char.is_char sep) seg = false)
         (Str.split sep s).
Proof.
  induction s as [|c s IH]; simpl.
  - repeat constructor.
  - destruct (Ascii.eqb c sep) eqn:E.
    + constructor; [reflexivity | exact IH].
    + destruct (Str.split sep s) as [|seg rest].
      * repeat constructor. simpl. unfold Char.is_char. now rewrite E.
      * inversion IH as [|? ? Hseg Hrest]; subst. constructor; [|exact Hrest].
        simpl. unfold Char.is_char at 1. now rewrite E.
Qed.

Lemma join_cons2 (sep x y : string) (r : list string) :
  Str.join sep (x :: y :: r) = x +:+ sep +:+ Str.join sep (y :: r).
Proof. reflexivity. Qed.

Lemma split_join (segs : list string) :
  segs <> [] ->
  Forall (fun seg => Str.existsb (Char.is_char "/") seg = false) segs ->
  Str.split "/" (Str.join "/" segs) = segs.
Proof.
  induction segs as [|x r IH]; [congruence|]. intros _ H.
  inversion H as [|? ? Hx Hr]; subst.
  destruct r as [|y r].
  - simpl. now apply split_no_sep.
  - rewrite join_cons2. change ("/" +:+ Str.join "/" (y :: r))
      with (String "/" (Str.join "/" (y :: r))).
    rewrite split_app, (split_no_sep _ _ Hx), IH by (congruence || assumption).
    reflexivity.
Qed.

Lemma proper_push (a : bool) (acc : list string) (seg : string) :
  proper_segment seg = true -> Path.push_segment a acc seg = seg :: acc.
Proof.
  unfold proper_segment, Path.push_segment. intros H.
  repeat (apply andb_true_iff in H; destruct H as [H ?]).
  destruct seg as [|c s]; [discriminate|].
  replace (String.eqb (String c s) "") with false by reflexivity.
  destruct (String.eqb (String c s) "."); [discriminate|].
  destruct (String.eqb (String c s) ".."); [discriminate|].
  reflexivity.
Qed.

Lemma fold_push_proper (a : bool) (ps acc : list string) :
  Forall (fun s => proper_segment s = true) ps ->
  fold_left (Path.push_segment a) ps acc = (rev ps ++ acc)%list.
Proof.
  revert acc; induction ps as [|p ps IH]; intros acc H; [reflexivity|].
  inversion H; subst. simpl. rewrite proper_push by assumption.
  rewrite IH by assumption. now rewrite <- app_assoc.
Qed.

Lemma proper_not_dotdot (s : string) :
  proper_segment s = true -> String.eqb s ".." = false.
Proof.
  unfold proper_segment. intros H.
  repeat (apply andb_true_iff in H; destruct H as [H ?]).
  now destruct (String.eqb s "..").
Qed.

Lemma segment_cases (seg : string) :
  Str.existsb (Char.is_char "/") seg = false ->
  seg = "" \/ seg = "." \/ seg = ".." \/ proper_segment seg = true.
Proof.
  intros Hs.
  destruct seg as [|c s]; [left; reflexivity|].
  destruct (String.eqb_spec (String c s) ".") as [|H2]; [auto|].
  destruct (String.eqb_spec (String c s) "..") as [|H3]; [auto|].
  right; right; right. unfold proper_segment.
  apply String.eqb_neq in H2, H3. rewrite Hs, H2, H3. reflexivity.
Qed.

Lemma push_false_dotdot (acc : list string) :
  all_proper acc -> Path.push_segment false acc ".." = skipn 1 acc.
Proof.
  intros H. unfold Path.push_segment. simpl.
  destruct acc as [|top rest]; [reflexivity|].
  inversion H; subst. now rewrite proper_not_dotdot.
Qed.

Lemma all_proper_skipn (k : nat) (acc : list string) :
  all_proper acc -> all_proper (skipn k acc).
Proof.
  revert acc; induction k as [|k IH]; intros [|x acc] H; simpl; auto.
  inversion H; subst. now apply IH.
Qed.

Lemma push_false_keeps_proper (acc : list string) (seg : string) :
  Str.existsb (Char.is_char "/") seg = false ->
  all_proper acc -> all_proper (Path.push_segment false acc seg).
Proof.
  intros Hs Hacc.
  destruct (segment_cases seg Hs) as [->|[->|[->|Hp]]].
  - exact Hacc.
  - exact Hacc.
  - rewrite push_false_dotdot by assumption. now apply all_proper_skipn.
  - rewrite proper_push by assumption. now constructor.
Qed.

Lemma fold_push_false_keeps_proper (xs acc : list string) :
  all_no_slash xs -> all_proper acc ->
  all_proper (fold_left (Path.push_segment false) xs acc).
Proof.
  revert acc; induction xs as [|x xs IH]; intros acc Hx Hacc; [exact Hacc|].
  inversion Hx; subst. simpl. apply IH; [assumption|].
  now apply push_false_keeps_proper.
Qed.

Lemma fold_push_false_dotdots (k : nat) (acc : list string) :
  all_proper acc ->
  fold_left (Path.push_segment false) (repeat ".." k) acc = skipn k acc.
Proof.
  revert acc; induction k as [|k IH]; intros acc H; [reflexivity|].
  simpl repeat. simpl fold_left. rewrite push_false_dotdot by assumption.
  rewrite IH by now apply all_proper_skipn.
  destruct acc; [now destruct k | reflexivity].
Qed.

Lemma skipn_S_skipn (k : nat) (acc : list string) :
  skipn 1 (skipn k acc) = skipn (S k) acc.
Proof.
  revert acc; induction k as [|k IH]; intros [|x acc]; try reflexivity.
  simpl skipn at 2. rewrite IH. reflexivity.
Qed.

(** The machine that may climb above its start keeps [..] segments at the
    bottom; replaying its result on a stack of proper segments gives what
    the machine that cannot climb computes directly. *)
Lemma climbing_machine (xs : list string) :
  all_no_slash xs ->
  exists (props : list string) (k : nat),
    fold_left (Path.push_segment true) xs [] = (props ++ repeat ".." k)%list
    /\ all_proper props
    /\ forall acc, all_proper acc ->
         fold_left (Path.push_segment false) xs acc
         = (props ++ skipn k acc)%list.
Proof.
  induction xs as [|x xs IH] using rev_ind; intros Hxs.
  - exists [], 0%nat. repeat split; auto.
  - apply Forall_app in Hxs as [Hxs Hx]. inversion Hx as [|? ? Hx' _]; subst.
    destruct (IH Hxs) as (props & k & Ht & Hp & Hf).
    destruct (segment_cases x Hx') as [->|[->|[->|Hpx]]].
    + exists props, k. split; [|split; [exact Hp|]].
      * rewrite fold_left_app. simpl. now rewrite Ht.
      * intros acc Hacc. rewrite fold_left_app. simpl. now rewrite (Hf acc Hacc).
    + exists props, k. split; [|split; [exact Hp|]].
      * rewrite fold_left_app. simpl. now rewrite Ht.
      * intros acc Hacc. rewrite fold_left_app. simpl. now rewrite (Hf acc Hacc).
    + destruct props as [|top props].
      * exists [], (S k). split; [|split; [constructor|]].
        -- rewrite fold_left_app. simpl fold_left. rewrite Ht.
           destruct k; reflexivity.
        -- intros acc Hacc. rewrite fold_left_app. simpl fold_left.
           rewrite (Hf acc Hacc). simpl app.
           rewrite push_false_dotdot by now apply all_proper_skipn.
           apply skipn_S_skipn.
      * inversion Hp as [|? ? Htop Hp']; subst.
        exists props, k. split; [|split; [exact Hp'|]].
        -- rewrite fold_left_app. simpl fold_left. rewrite Ht.
           unfold Path.push_segment. simpl app.
           change (String.eqb ".." "") with false.
           change (String.eqb ".." ".") with false.
           change (String.eqb ".." "..") with true. simpl orb.
           cbv iota. now rewrite (proper_not_dotdot top Htop).
        -- intros acc Hacc. rewrite fold_left_app. simpl fold_left.
           rewrite (Hf acc Hacc).
           rewrite push_false_dotdot.
           ++ reflexivity.
           ++ apply Forall_app. split; [exact Hp|].
              now apply all_proper_skipn.
    + exists (x :: props), k. split; [|split; [now constructor|]].
      * rewrite fold_left_app. simpl fold_left. rewrite Ht.
        now rewrite proper_push.
      * intros acc Hacc. rewrite fold_left_app. simpl fold_left.
        rewrite (Hf acc Hacc). now rewrite proper_push.
Qed.

Lemma replay_normalized (xs acc : list string) :
  all_no_slash xs -> all_proper acc ->
  fold_left (Path.push_segment false)
            (Path.normalize_segments true xs) acc
  = fold_left (Path.push_segment false) xs acc.
Proof.
  intros Hxs Hacc. destruct (climbing_machine xs Hxs) as (props & k & Ht & Hp & Hf).
  unfold Path.normalize_segments. rewrite Ht, (Hf acc Hacc).
  rewrite rev_app_distr, fold_left_app.
  assert (Hrep : rev (repeat ".." k) = repeat ".." k).
  { clear. induction k as [|k IH]; [reflexivity|].
    simpl. rewrite IH. clear IH. induction k as [|k IH]; [reflexivity|].
    simpl. now rewrite IH. }
  rewrite Hrep, fold_push_false_dotdots by assumption.
  rewrite fold_push_proper.
  - now rewrite rev_involutive.
  - apply Forall_rev. exact Hp.
Qed.

Lemma split_app_slash (a b : string) :
  Str.split "/" (a +:+ "/" +:+ b)
  = (Str.split "/" a ++ Str.split "/" b)%list.
Proof. apply (split_app "/" a b). Qed.

Lemma normalize_segments_app_empty (a : bool) (xs : list string) :
  Path.normalize_segments a (xs ++ [""]) = Path.normalize_segments a xs.
Proof. unfold Path.normalize_segments. now rewrite fold_left_app. Qed.

Lemma isAbsolute_app (a b : string) :
  Str.is_empty a = false -> Path.isAbsolute (a +:+ b) = Path.isAbsolute a.
Proof. destruct a; [discriminate | reflexivity]. Qed.

Lemma resolve_abs (cwd p : string) :
  Path.isAbsolute cwd = true ->
  Path.resolve cwd [p] = "/" +:+ Str.join "/" (abs_segments cwd p).
Proof.
  intros Hcwd. unfold Path.resolve, abs_segments. simpl rev.
  unfold Path.resolve_loop.
  assert (Hne : Str.is_empty cwd = false) by (destruct cwd; [discriminate|reflexivity]).
  destruct (Str.is_empty p) eqn:Ep.
  - destruct p; [|discriminate]. rewrite Hne, Hcwd. simpl Path.isAbsolute.
    cbn [negb]. unfold Path.normalizeString.
    rewrite split_app_slash. reflexivity.
  - destruct (Path.isAbsolute p) eqn:Ea.
    + cbn [negb]. unfold Path.normalizeString.
      rewrite split_app_slash. simpl app.
      now rewrite normalize_segments_app_empty.
    + rewrite Hne, Hcwd. cbn [negb]. unfold Path.normalizeString.
      rewrite !split_app_slash. rewrite app_assoc.
      now rewrite normalize_segments_app_empty.
Qed.

Lemma abs_segments_proper (cwd p : string) : all_proper (abs_segments cwd p).
Proof.
  unfold abs_segments, Path.normalize_segments. apply Forall_rev.
  apply fold_push_false_keeps_proper; [|constructor].
  apply Forall_app. split; [|apply split_pieces_no_sep].
  destruct (Path.isAbsolute p); [constructor | apply split_pieces_no_sep].
Qed.

Lemma proper_facts (s : string) :
  proper_segment s = true ->
  Str.is_empty s = false /\ s <> "." /\ s <> ".."
  /\ Str.existsb (Char.is_char "/") s = false.
Proof.
  unfold proper_segment. intros H.
  repeat (apply andb_true_iff in H; destruct H as [H ?]).
  repeat split.
  - now destruct (Str.is_empty s).
  - intros ->. discriminate.
  - intros ->. discriminate.
  - now destruct (Str.existsb _ s).
Qed.

Lemma all_proper_no_slash (ps : list string) : all_proper ps -> all_no_slash ps.
Proof.
  intros H. eapply Forall_impl; [exact H|].
  intros s Hs. now apply proper_facts in Hs.
Qed.

Lemma normalize_segments_proper (a : bool) (ps : list string) :
  all_proper ps -> Path.normalize_segments a ps = ps.
Proof.
  intros H. unfold Path.normalize_segments.
  rewrite fold_push_proper by assumption.
  now rewrite app_nil_r, rev_involutive.
Qed.

Lemma filter_proper (ps : list string) :
  all_proper ps -> List.filter (fun s => negb (Str.is_empty s)) ps = ps.
Proof.
  induction 1 as [|y l Hy Hl IH]; [reflexivity|].
  simpl. apply proper_facts in Hy as (-> & _). simpl. now rewrite IH.
Qed.

Lemma split_abs (ps : list string) :
  all_proper ps ->
  Path.normalize_segments false (Str.split "/" ("/" +:+ Str.join "/" ps)) = ps
  /\ Path.segments ("/" +:+ Str.join "/" ps) = ps.
Proof.
  intros H. destruct ps as [|x r]; [split; reflexivity|].
  assert (Hs : Str.split "/" ("/" +:+ Str.join "/" (x :: r)) = "" :: x :: r).
  { change ("/" +:+ Str.join "/" (x :: r))
      with ("" +:+ String "/" (Str.join "/" (x :: r))).
    rewrite split_app. rewrite split_join; [reflexivity|discriminate|].
    now apply all_proper_no_slash. }
  unfold Path.segments. rewrite Hs. split.
  - change (Path.normalize_segments false ("" :: x :: r))
      with (Path.normalize_segments false (x :: r)).
    now apply normalize_segments_proper.
  - change (List.filter (fun s => negb (Str.is_empty s)) ("" :: x :: r))
      with (List.filter (fun s => negb (Str.is_empty s)) (x :: r)).
    now apply filter_proper.
Qed.

Lemma abs_segments_of_abs (cwd : string) (ps : list string) :
  all_proper ps -> abs_segments cwd ("/" +:+ Str.join "/" ps) = ps.
Proof. intros H. unfold abs_segments. simpl. now apply split_abs. Qed.

Lemma resolve_idem (cwd : string) (ps : list string) :
  Path.isAbsolute cwd = true -> all_proper ps ->
  Path.resolve cwd ["/" +:+ Str.join "/" ps] = "/" +:+ Str.join "/" ps.
Proof.
  intros Hc H. rewrite resolve_abs by assumption.
  now rewrite abs_segments_of_abs.
Qed.

Lemma join_nonempty (x : string) (r : list string) :
  Str.is_empty x = false -> Str.is_empty (Str.join "/" (x :: r)) = false.
Proof. destruct x; [discriminate|]. intros _. now destruct r. Qed.


Lemma ends_with_slash_abs (x : string) (r : list string) :
  all_proper (x :: r) ->
  Path.ends_with_slash ("/" +:+ Str.join "/" (x :: r)) = false.
Proof.
  intros H. unfold Path.ends_with_slash.
  change ("/" +:+ Str.join "/" (x :: r))
    with ("" +:+ String "/" (Str.join "/" (x :: r))).
  rewrite split_app, split_join;
    [|discriminate|now apply all_proper_no_slash].
  simpl app.
  assert (Hlast : exists l front, ("" :: x :: r) = (front ++ [l])%list
                                  /\ Str.is_empty l = false).
  { destruct r as [|y r'] using rev_ind.
    - exists x, [""]. split; [reflexivity|].
      inversion H as [|? ? Hx _]; subst. now apply proper_facts in Hx.
    - exists y, ("" :: x :: r'). split; [reflexivity|].
      inversion H as [|? ? _ Hr]; subst.
      apply Forall_app in Hr as [_ Hy]. inversion Hy as [|? ? Hy' _]; subst.
      now apply proper_facts in Hy'. }
  destruct Hlast as (l & front & -> & Hl).
  rewrite rev_app_distr. simpl. rewrite Hl. now destruct (rev front).
Qed.

Lemma normalize_abs (ps : list string) :
  all_proper ps ->
  Path.normalize ("/" +:+ Str.join "/" ps) = "/" +:+ Str.join "/" ps.
Proof.
  intros H. destruct ps as [|x r]; [reflexivity|].
  pose proof (ends_with_slash_abs x r H) as Hend.
  destruct (split_abs (x :: r) H) as [Hn _].
  inversion H as [|? ? Hx Hr]; subst.
  apply proper_facts in Hx as (Hx & _).
  pose proof (join_nonempty x r Hx) as Hj.
  set (J := Str.join "/" (x :: r)) in *.
  unfold Path.normalize, Path.normalizeString. cbv zeta.
  change (Str.is_empty ("/" +:+ J)) with false.
  change (Path.isAbsolute ("/" +:+ J)) with true.
  cbn [negb]. rewrite Hend, Hn. fold J. rewrite Hj. reflexivity.
Qed.

Lemma strip_common_prefix (rs rest : list string) :
  Path.strip_common rs (rs ++ rest) = ([], rest).
Proof.
  induction rs as [|x rs IH]; simpl; [now destruct rest|].
  now rewrite String.eqb_refl.
Qed.

Lemma strip_common_not_prefix (rs ps : list string) :
  (forall rest, ps <> (rs ++ rest)%list) ->
  exists u up down, Path.strip_common rs ps = (u :: up, down).
Proof.
  revert ps; induction rs as [|x rs IH]; intros ps H.
  - exfalso. apply (H ps). reflexivity.
  - destruct ps as [|y ps]; simpl; [eauto|].
    destruct (String.eqb_spec x y) as [->|Hne]; [|eauto].
    apply IH. intros rest ->. apply (H rest). reflexivity.
Qed.

Lemma abs_path_inj (rs ps : list string) :
  all_proper rs -> all_proper ps ->
  "/" +:+ Str.join "/" rs = "/" +:+ Str.join "/" ps -> rs = ps.
Proof.
  intros Hr Hp E.
  destruct (split_abs rs Hr) as [_ <-]. destruct (split_abs ps Hp) as [_ <-].
  now rewrite E.
Qed.

Lemma relative_abs (cwd : string) (rs ps : list string) :
  Path.isAbsolute cwd = true -> all_proper rs -> all_proper ps ->
  rs <> ps ->
  Path.relative cwd ("/" +:+ Str.join "/" rs) ("/" +:+ Str.join "/" ps)
  = let '(up, down) := Path.strip_common rs ps in
    Str.join "/" (List.map (fun _ => "..") up ++ down)%list.
Proof.
  intros Hc Hr Hp Hne. unfold Path.relative.
  assert (E : String.eqb ("/" +:+ Str.join "/" rs) ("/" +:+ Str.join "/" ps)
              = false).
  { apply String.eqb_neq. intros E. apply Hne. now apply abs_path_inj. }
  rewrite E. rewrite !resolve_idem by assumption. rewrite E.
  destruct (split_abs rs Hr) as [_ ->]. destruct (split_abs ps Hp) as [_ ->].
  reflexivity.
Qed.

Lemma startsWith_dotdot_join (x : string) (r : list string) :
  proper_segment x = true ->
  Str.startsWith ".." (Str.join "/" (x :: r)) = Str.startsWith ".." x.
Proof.
  intros _.
  destruct r as [|y r]; [reflexivity|]. rewrite join_cons2.
  destruct x as [|a [|b x']]; reflexivity.
Qed.

Lemma isAbsolute_join (x : string) (r : list string) :
  proper_segment x = true -> Path.isAbsolute (Str.join "/" (x :: r)) = false.
Proof.
  intros H. apply proper_facts in H as (Hn & _ & _ & Hs).
  destruct x as [|a x']; [discriminate|].
  simpl in Hs. apply orb_false_iff in Hs as [Ha _].
  unfold Char.is_char in Ha.
  destruct r; simpl; exact Ha.
Qed.

(** What [inside_root] decides, on absolute forms given by their segments. *)
Lemma inside_root_segments (cfg : Config) (rs ps : list string) :
  Path.isAbsolute (cwd cfg) = true -> all_proper rs -> all_proper ps ->
  inside_root cfg ("/" +:+ Str.join "/" ps) ("/" +:+ Str.join "/" rs)
  = match Path.strip_common rs ps with
    | ([], []) => true
    | ([], x :: _) => negb (Str.startsWith ".." x)
    | (_ :: _, _) => false
    end.
Proof.
  intros Hc Hr Hp. unfold inside_root.
  destruct (list_eq_dec rs ps) as [->|Hne].
  - unfold Path.relative. rewrite String.eqb_refl. simpl.
    pose proof (strip_common_prefix ps []) as E.
    rewrite app_nil_r in E. now rewrite E.
  - rewrite relative_abs by assumption.
    destruct (Path.strip_common rs ps) as [up down] eqn:E.
    destruct up as [|u up].
    + destruct down as [|x down].
      * reflexivity.
      * simpl app.
        assert (Hx : proper_segment x = true).
        { clear -E Hp. revert ps E Hp.
          induction rs as [|r rs IH]; intros ps E Hp; simpl in E.
          - destruct ps; inversion E; subst. now inversion Hp.
          - destruct ps as [|p ps]; [discriminate|].
            destruct (String.eqb r p); [|discriminate].
            inversion Hp; subst. now apply (IH ps). }
        rewrite startsWith_dotdot_join, isAbsolute_join by assumption.
        now rewrite andb_true_r.
    + simpl List.map. simpl app.
      destruct (List.map (fun _ : string => "..") up ++ down)%list; reflexivity.
Qed.

Lemma absolute_form_segments (cfg : Config) (raw : string) :
  Path.isAbsolute (cwd cfg) = true ->
  absolute_form cfg raw = "/" +:+ Str.join "/" (abs_segments (cwd cfg) raw).
Proof.
  intros Hc. unfold absolute_form. rewrite resolve_abs by assumption.
  apply normalize_abs, abs_segments_proper.
Qed.

(** [resolveSandboxed], read on segments. *)
Lemma resolveSandboxed_segments (cfg : Config) (raw : string) :
  Path.isAbsolute (cwd cfg) = true ->
  resolveSandboxed cfg raw
  = if inside_segments (abs_segments (cwd cfg) (WORKDIR cfg))
                       (abs_segments (cwd cfg) raw)
       || inside_segments (abs_segments (cwd cfg) (ORCA_USER_DIR cfg))
                          (abs_segments (cwd cfg) raw)
    then Ok (absolute_form cfg raw)
    else Throw (SandboxError
                  (access_denied_message raw (absolute_form cfg raw)
                                         (getAllowedRoots cfg))).
Proof.
  intros Hc. unfold resolveSandboxed. fold (absolute_form cfg raw).
  unfold getAllowedRoots at 1. simpl List.existsb.
  rewrite absolute_form_segments by assumption.
  rewrite !resolve_abs by assumption.
  rewrite !inside_root_segments by (assumption || apply abs_segments_proper).
  fold (inside_segments (abs_segments (cwd cfg) (WORKDIR cfg))
                        (abs_segments (cwd cfg) raw)).
  fold (inside_segments (abs_segments (cwd cfg) (ORCA_USER_DIR cfg))
                        (abs_segments (cwd cfg) raw)).
  rewrite orb_false_r.
  destruct (_ || _); reflexivity.
Qed.

Lemma segments_absolute_form (cfg : Config) (raw : string) :
  Path.isAbsolute (cwd cfg) = true ->
  Path.segments (absolute_form cfg raw) = abs_segments (cwd cfg) raw.
Proof.
  intros Hc. rewrite absolute_form_segments by assumption.
  apply split_abs, abs_segments_proper.
Qed.

Lemma segments_root (cwd base : string) :
  Path.isAbsolute cwd = true ->
  Path.segments (Path.resolve cwd [base]) = abs_segments cwd base.
Proof.
  intros Hc. rewrite resolve_abs by assumption.
  apply split_abs, abs_segments_proper.
Qed.

(** *** A validated name joined under a directory *)

Lemma name_start_facts (c : ascii) :
  Char.is_name_start c = true ->
  Ascii.eqb c "/" = false /\ Ascii.eqb "." c = false.
Proof.
  destruct c as [[] [] [] [] [] [] [] []]; intros H;
    (split; reflexivity) || discriminate H.
Qed.

Lemma name_char_not_slash (c : ascii) :
  Char.is_name_char c = true -> Char.is_char "/" c = false.
Proof.
  destruct c as [[] [] [] [] [] [] [] []]; intros H;
    reflexivity || discriminate H.
Qed.

Lemma string_eqb_cons (c : ascii) (s t : string) (d : ascii) :
  String.eqb (String c s) (String d t) = Ascii.eqb c d && String.eqb s t.
Proof. simpl. now destruct (Ascii.eqb c d). Qed.

Lemma allowed_name_proper (name : string) :
  allowed_name name = true ->
  proper_segment name = true /\ Str.startsWith ".." name = false.
Proof.
  destruct name as [|c rest]; [discriminate|].
  unfold allowed_name. intros H. apply andb_true_iff in H as [Hc Hrest].
  destruct (name_start_facts c Hc) as [Hslash Hdot].
  split.
  2:{ cbn [Str.startsWith]. now rewrite Hdot. }
  unfold proper_segment. cbn [Str.is_empty negb andb].
  change "." with (String "." "") at 1. change ".." with (String "." ".").
  rewrite !string_eqb_cons, (Ascii.eqb_sym c "."), Hdot.
  cbn [negb andb]. cbn [Str.existsb].
  unfold Char.is_char at 1. rewrite Hslash. cbn [orb].
  apply negb_true_iff.
  induction rest as [|d rest IH]; [reflexivity|].
  cbn [Str.forallb] in Hrest. apply andb_true_iff in Hrest as [Hd Hrest].
  cbn [Str.existsb]. rewrite (name_char_not_slash d Hd). now apply IH.
Qed.

Lemma validateFilename_ok (name : string) :
  validateFilename name = Ok tt -> allowed_name name = true.
Proof.
  rewrite validateFilename_allowed. now destruct (allowed_name name).
Qed.

Lemma normalize_segments_snoc (a : bool) (xs : list string) (name : string) :
  proper_segment name = true ->
  Path.normalize_segments a (xs ++ [name])
  = (Path.normalize_segments a xs ++ [name])%list.
Proof.
  intros H. unfold Path.normalize_segments. rewrite fold_left_app. simpl.
  now rewrite proper_push.
Qed.

Lemma join_snoc_nonempty (l : list string) (name : string) :
  Str.is_empty name = false -> Str.is_empty (Str.join "/" (l ++ [name])) = false.
Proof.
  intros H. destruct l as [|x l]; [exact H|].
  simpl app. destruct (l ++ [name])%list eqn:E.
  - now destruct l.
  - rewrite join_cons2. now destruct x.
Qed.

Lemma ends_with_slash_snoc (b name : string) :
  Str.is_empty name = false ->
  Str.existsb (Char.is_char "/") name = false ->
  Path.ends_with_slash (b +:+ "/" +:+ name) = false.
Proof.
  intros Hn Hs. unfold Path.ends_with_slash.
  rewrite split_app_slash, (split_no_sep _ _ Hs), rev_app_distr. simpl.
  rewrite Hn. now destruct (rev (Str.split "/" b)).
Qed.

Lemma normalize_single (name : string) :
  proper_segment name = true -> Path.normalize name = name.
Proof.
  intros H. pose proof (proper_facts name H) as (Hn & _ & _ & Hs).
  unfold Path.normalize, Path.normalizeString. cbv zeta. rewrite Hn.
  rewrite (split_no_sep _ _ Hs).
  rewrite (normalize_segments_proper _ [name]) by (now constructor).
  simpl Str.join. rewrite Hn.
  replace (Path.isAbsolute name) with false.
  - unfold Path.ends_with_slash. now rewrite (split_no_sep _ _ Hs).
  - destruct name as [|c r]; [discriminate|]. cbn [Str.existsb] in Hs.
    apply orb_false_iff in Hs as [Hc _]. unfold Char.is_char in Hc.
    cbn [Path.isAbsolute]. now rewrite Hc.
Qed.

Lemma isAbsolute_join_head (x : string) (r : list string) :
  Path.isAbsolute x = false -> Str.is_empty x = false ->
  Path.isAbsolute (Str.join "/" (x :: r)) = false.
Proof.
  intros Ha Hn. destruct x as [|c x]; [discriminate|].
  destruct r; exact Ha.
Qed.

Lemma normalize_true_entries (xs : list string) :
  all_no_slash xs ->
  Forall (fun s => Str.is_empty s = false
                   /\ Str.existsb (Char.is_char "/") s = false)
         (Path.normalize_segments true xs).
Proof.
  intros Hxs. destruct (climbing_machine xs Hxs) as (props & k & Ht & Hp & _).
  unfold Path.normalize_segments. rewrite Ht. apply Forall_rev.
  apply Forall_app. split.
  - eapply Forall_impl; [exact Hp|]. intros s Hs.
    now apply proper_facts in Hs as (? & _ & _ & ?).
  - clear. induction k; constructor; auto.
Qed.

Lemma abs_segments_join (cwd base name : string) :
  proper_segment name = true ->
  abs_segments cwd (Path.join [base; name])
  = (abs_segments cwd base ++ [name])%list.
Proof.
  intros Hname. pose proof (proper_facts name Hname) as (Hn & _ & _ & Hs).
  assert (Hrel : Path.isAbsolute name = false).
  { destruct name as [|c r]; [discriminate|]. cbn [Str.existsb] in Hs.
    apply orb_false_iff in Hs as [Hc _]. exact Hc. }
  unfold Path.join. cbn [List.filter]. rewrite Hn. cbn [negb].
  destruct (Str.is_empty base) eqn:Eb.
  - (* nothing to join under *)
    destruct base; [|discriminate]. cbn [negb Str.join].
    rewrite normalize_single by assumption.
    unfold abs_segments. rewrite Hrel. cbn [Path.isAbsolute].
    rewrite (split_no_sep _ _ Hs).
    change (Str.split "/" "") with [""].
    rewrite normalize_segments_app_empty.
    now apply normalize_segments_snoc.
  - cbn [negb]. rewrite join_cons2. cbn [Str.join].
    unfold Path.normalize, Path.normalizeString. cbv zeta.
    assert (E0 : Str.is_empty (base +:+ "/" +:+ name) = false)
      by (destruct base; [discriminate | reflexivity]).
    rewrite E0, (isAbsolute_app base _ Eb), ends_with_slash_snoc by assumption.
    rewrite split_app_slash, (split_no_sep _ _ Hs).
    rewrite normalize_segments_snoc by assumption.
    rewrite join_snoc_nonempty by assumption.
    destruct (Path.isAbsolute base) eqn:Ea; cbn [negb].
    + (* an absolute directory *)
      set (nb := Path.normalize_segments false (Str.split "/" base)).
      assert (Hnb : all_proper nb).
      { unfold nb, Path.normalize_segments. apply Forall_rev.
        apply fold_push_false_keeps_proper; [apply split_pieces_no_sep|constructor]. }
      rewrite abs_segments_of_abs.
      * unfold abs_segments. rewrite Ea. reflexivity.
      * apply Forall_app. split; [exact Hnb | now constructor].
    + (* a directory relative to the working directory *)
      set (nt := Path.normalize_segments true (Str.split "/" base)).
      pose proof (normalize_true_entries (Str.split "/" base)
                    (split_pieces_no_sep "/" base)) as Hnt. fold nt in Hnt.
      assert (Hlist : Forall (fun s => Str.is_empty s = false
                         /\ Str.existsb (Char.is_char "/") s = false)
                        (nt ++ [name])%list).
      { apply Forall_app. split; [exact Hnt | now constructor]. }
      assert (Hj : Path.isAbsolute (Str.join "/" (nt ++ [name])) = false).
      { destruct (nt ++ [name])%list as [|x r] eqn:E; [reflexivity|].
        inversion Hlist as [|? ? [Hx1 Hx2] _]; subst.
        apply isAbsolute_join_head; [|exact Hx1].
        destruct x as [|c x]; [discriminate|]. cbn [Str.existsb] in Hx2.
        apply orb_false_iff in Hx2 as [Hc _]. exact Hc. }
      unfold abs_segments. rewrite Hj, Ea.
      rewrite split_join.
      2:{ now destruct nt. }
      2:{ eapply Forall_impl; [exact Hlist|]. now intros s [_ ?]. }
      rewrite app_assoc, normalize_segments_snoc by assumption.
      f_equal. unfold Path.normalize_segments. f_equal.
      rewrite !fold_left_app. unfold nt.
      apply replay_normalized; [apply split_pieces_no_sep|].
      apply fold_push_false_keeps_proper;
        [apply split_pieces_no_sep | constructor].
Qed.

Lemma inside_segments_app (rs rest : list string) :
  inside_segments rs (rs ++ rest)
  = match rest with
    | [] => true
    | x :: _ => negb (Str.startsWith ".." x)
    end.
Proof. unfold inside_segments. now rewrite strip_common_prefix. Qed.

Lemma inside_segments_not_prefix (rs ps : list string) :
  (forall rest, ps <> (rs ++ rest)%list) -> inside_segments rs ps = false.
Proof.
  intros H. unfold inside_segments.
  destruct (strip_common_not_prefix rs ps H) as (u & up & down & ->).
  reflexivity.
Qed.

Lemma abs_segments_resolve (cwd base : string) :
  Path.isAbsolute cwd = true ->
  abs_segments cwd (Path.resolve cwd [base]) = abs_segments cwd base.
Proof.
  intros Hc. rewrite resolve_abs by assumption.
  apply abs_segments_of_abs, abs_segments_proper.
Qed.

(** C10. For every filename the validator accepts and for each of the two
    allowed roots, taken as configured or in its resolved form, the name
    joined under the root is accepted by the sandbox, and the path it
    returns is the entry of that name directly in the root. *)
Theorem validated_name_resolves_to_direct_child :
  forall (cfg : Config) (name base : string),
    Path.isAbsolute (cwd cfg) = true ->
    validateFilename name = Ok tt ->
    In base [WORKDIR cfg; ORCA_USER_DIR cfg] \/ In base (getAllowedRoots cfg) ->
    exists p : string,
      resolveSandboxed cfg (Path.join [base; name]) = Ok p
      /\ direct_child (Path.resolve (cwd cfg) [base]) p name.
Proof.
  intros cfg name base Hc Hv Hbase.
  apply validateFilename_ok, allowed_name_proper in Hv as [Hp Hdd].
  exists (absolute_form cfg (Path.join [base; name])). split.
  - rewrite resolveSandboxed_segments by assumption.
    rewrite !abs_segments_join by assumption.
    assert (Hin : forall b,
               abs_segments (cwd cfg) base = abs_segments (cwd cfg) b ->
               inside_segments (abs_segments (cwd cfg) b)
                 (abs_segments (cwd cfg) base ++ [name]) = true).
    { intros b ->. rewrite inside_segments_app. now rewrite Hdd. }
    assert (Hroot : abs_segments (cwd cfg) base
                    = abs_segments (cwd cfg) (WORKDIR cfg)
                    \/ abs_segments (cwd cfg) base
                       = abs_segments (cwd cfg) (ORCA_USER_DIR cfg)).
    { unfold getAllowedRoots in Hbase. simpl in Hbase.
      destruct Hbase as [[<-|[<-|[]]] | [<-|[<-|[]]]]; auto;
        rewrite abs_segments_resolve by assumption; auto. }
    destruct Hroot as [E|E]; rewrite (Hin _ E); [reflexivity|].
    now rewrite orb_true_r.
  - unfold direct_child.
    rewrite segments_absolute_form, segments_root by assumption.
    now apply abs_segments_join.
Qed.

Lemma validated_name_resolves_to_direct_child_witness :
  exists p : string,
    resolveSandboxed sample_config
                     (Path.join [WORKDIR sample_config; "test_cube.stl"])
    = Ok p
    /\ direct_child (Path.resolve (cwd sample_config) [WORKDIR sample_config])
                    p "test_cube.stl".
Proof.
  apply validated_name_resolves_to_direct_child.
  - reflexivity.
  - reflexivity.
  - left. left. reflexivity.
Defined.

(** *** The sandbox on arbitrary paths *)

Lemma access_denied_message_includes (raw normalised r1 r2 : string) :
  let message := access_denied_message raw normalised [r1; r2] in
  includes raw message = true
  /\ includes normalised message = true
  /\ includes r1 message = true
  /\ includes r2 message = true.
Proof.
  unfold access_denied_message. cbn [Str.join].
  repeat split.
  - do 2 apply includes_app_r. apply includes_prefix.
  - do 6 apply includes_app_r. apply includes_prefix.
  - do 9 apply includes_app_r. apply includes_prefix.
  - do 11 apply includes_app_r. apply includes_self.
Qed.

(** Inside a root, on a segment that does not begin with two periods:
    accepted, and the result is the absolute form, a descendant. *)
Lemma resolveSandboxed_accepts (cfg : Config) (raw base : string)
      (rest : list string) :
  Path.isAbsolute (cwd cfg) = true ->
  base = WORKDIR cfg \/ base = ORCA_USER_DIR cfg ->
  Path.segments (absolute_form cfg raw)
  = (Path.segments (Path.resolve (cwd cfg) [base]) ++ rest)%list ->
  match rest with
  | [] => True
  | x :: _ => Str.startsWith ".." x = false
  end ->
  resolveSandboxed cfg raw = Ok (absolute_form cfg raw)
  /\ descendant_or_self (Path.resolve (cwd cfg) [base]) (absolute_form cfg raw).
Proof.
  intros Hc Hbase Hseg Hrest. split; [|now exists rest].
  rewrite segments_absolute_form, segments_root in Hseg by assumption.
  rewrite resolveSandboxed_segments by assumption. rewrite Hseg.
  assert (Hin : inside_segments (abs_segments (cwd cfg) base)
                  (abs_segments (cwd cfg) base ++ rest) = true).
  { rewrite inside_segments_app. destruct rest; [reflexivity|].
    now rewrite Hrest. }
  destruct Hbase as [-> | ->]; rewrite Hin; [reflexivity|].
  now rewrite orb_true_r.
Qed.

(** Outside both roots: AccessDenied, and the message shows the raw input,
    the resolved form and both roots. *)
Lemma resolveSandboxed_rejects (cfg : Config) (raw : string) :
  Path.isAbsolute (cwd cfg) = true ->
  ~ descendant_or_self (Path.resolve (cwd cfg) [WORKDIR cfg])
                       (absolute_form cfg raw) ->
  ~ descendant_or_self (Path.resolve (cwd cfg) [ORCA_USER_DIR cfg])
                       (absolute_form cfg raw) ->
  exists message,
    resolveSandboxed cfg raw = Throw (SandboxError message)
    /\ includes raw message = true
    /\ includes (absolute_form cfg raw) message = true
    /\ Forall (fun root => includes root message = true) (getAllowedRoots cfg).
Proof.
  intros Hc H1 H2.
  unfold descendant_or_self in H1, H2.
  rewrite segments_absolute_form, segments_root in H1, H2 by assumption.
  rewrite resolveSandboxed_segments by assumption.
  rewrite !inside_segments_not_prefix by (intros rest E; eauto).
  eexists. split; [reflexivity|].
  destruct (access_denied_message_includes raw (absolute_form cfg raw)
              (Path.resolve (cwd cfg) [WORKDIR cfg])
              (Path.resolve (cwd cfg) [ORCA_USER_DIR cfg]))
    as (Ha & Hb & Hr1 & Hr2).
  unfold getAllowedRoots. repeat split; auto.
Qed.

(** C1, where the code departs from the claim.  The entry [..foo] of the
    work directory lies under an allowed root, yet the sandbox rejects
    it: its path relative to the root, [..foo], begins with two periods,
    and [inside_root] takes that for a step out of the root. *)
Theorem resolveSandboxed_rejects_entry_beginning_with_two_periods :
  let root := Path.resolve (cwd sample_config) [WORKDIR sample_config] in
  absolute_form sample_config "/work/..foo" = "/work/..foo"
  /\ descendant_or_self root (absolute_form sample_config "/work/..foo")
  /\ Path.relative (cwd sample_config) root "/work/..foo" = "..foo"
  /\ exists message,
       resolveSandboxed sample_config "/work/..foo"
       = Throw (SandboxError message).
Proof.
  split; [reflexivity|]. split; [|split].
  - exists ["..foo"]. reflexivity.
  - reflexivity.
  - eexists. vm_compute. reflexivity.
Qed.

(** ** Updating a profile *)

(** C5, where the code departs from the claim.  With the key [__proto__]
    the handler answers success and writes the sibling file, but the
    assignment reached the accessor inherited from [Object.prototype]: the
    sibling holds the document as it was, without the key.  The same
    happens for every document that does not own a [__proto__]: the
    assignment leaves it as it is. *)
Theorem handleUpdateProfileSetting_loses_proto_key :
  let w := sample_world sample_profiles in
  let run :=
    handleUpdateProfileSetting sample_config sample_runtime
                               (sample_update "__proto__" (JNum 40)) w in
  let original := "/orca/process/standard_quality.json" in
  let sibling := "/orca/process/standard_quality_tuned.json" in
  is_ok (fst run) = true
  /\ files (fs (snd run)) !! original = files (fs w) !! original
  /\ (exists text props,
         files (fs (snd run)) !! sibling = Some text
         /\ JSON_parse sample_runtime text = Some (JObj props)
         /\ Obj.own props "__proto__" = None
         /\ Obj.own props "infill_density" = Some (JNum 20))
  /\ (forall (document : Obj.props) (value : Json),
         Obj.set document "__proto__" value
         = if Obj.has_own document "__proto__"
           then Obj.replace document "__proto__" value
           else document).
Proof.
  split; [vm_compute; reflexivity|]. split; [vm_compute; reflexivity|].
  split.
  - eexists. eexists. split; [vm_compute; reflexivity|].
    split; [vm_compute; reflexivity|]. split; reflexivity.
  - intros document value. unfold Obj.set.
    now destruct (Obj.has_own document "__proto__").
Qed.

(** The same update with the key [infill_density]. *)
Example handleUpdateProfileSetting_scenario :
  let w := sample_world sample_profiles in
  let run :=
    handleUpdateProfileSetting sample_config sample_runtime
                               (sample_update "infill_density" (JNum 40)) w in
  let original := "/orca/process/standard_quality.json" in
  let sibling := "/orca/process/standard_quality_tuned.json" in
  is_ok (fst run) = true
  /\ files (fs (snd run)) !! original = Some sample_profile_text
  /\ exists text props,
       files (fs (snd run)) !! sibling = Some text
       /\ JSON_parse sample_runtime text = Some (JObj props)
       /\ Obj.own props "infill_density" = Some (JNum 40)
       /\ Obj.own props "layer_height" = Some (JNum 2).
Proof.
  split; [vm_compute; reflexivity|]. split; [vm_compute; reflexivity|].
  eexists. eexists. split; [vm_compute; reflexivity|].
  split; [vm_compute; reflexivity|]. split; reflexivity.
Qed.

(** *** Profile paths *)

Lemma type_name_proper (t : ProfileType) :
  proper_segment (type_name t) = true
  /\ Str.startsWith ".." (type_name t) = false.
Proof. destruct t; split; reflexivity. Qed.

Lemma profile_path_segments (cfg : Config) (t : ProfileType) (n : string) :
  proper_segment n = true ->
  abs_segments (cwd cfg) (Path.join [profileDir cfg t; n])
  = (abs_segments (cwd cfg) (ORCA_USER_DIR cfg) ++ [type_name t; n])%list.
Proof.
  intros Hn. unfold profileDir.
  rewrite !abs_segments_join by (assumption || apply type_name_proper).
  now rewrite <- app_assoc.
Qed.

Lemma resolveSandboxed_profile (cfg : Config) (t : ProfileType) (n : string) :
  Path.isAbsolute (cwd cfg) = true ->
  proper_segment n = true ->
  resolveSandboxed cfg (Path.join [profileDir cfg t; n])
  = Ok (absolute_form cfg (Path.join [profileDir cfg t; n])).
Proof.
  intros Hc Hn. rewrite resolveSandboxed_segments by assumption.
  rewrite profile_path_segments by assumption.
  rewrite (inside_segments_app _ [type_name t; n]).
  destruct (type_name_proper t) as [_ ->]. cbn [negb].
  now rewrite orb_true_r.
Qed.

Lemma profile_paths_differ (cfg : Config) (t : ProfileType) (n m : string) :
  Path.isAbsolute (cwd cfg) = true ->
  proper_segment n = true -> proper_segment m = true -> n <> m ->
  absolute_form cfg (Path.join [profileDir cfg t; n])
  <> absolute_form cfg (Path.join [profileDir cfg t; m]).
Proof.
  intros Hc Hn Hm Hne E.
  apply (f_equal Path.segments) in E.
  rewrite !segments_absolute_form, !profile_path_segments in E by assumption.
  apply app_inv_head in E. congruence.
Qed.

(** *** The name of the copy *)

Lemma from_last_dot_suffix (s : string) :
  exists pre, s = pre +:+ Path.from_last_dot s
              /\ (Path.from_last_dot s = ""
                  \/ exists r, Path.from_last_dot s = String "." r).
Proof.
  induction s as [|c s (pre & Hpre & Hshape)]; [exists ""; auto|].
  cbn [Path.from_last_dot].
  destruct (Path.has_dot s).
  - exists (String c pre). split; [simpl; now rewrite <- Hpre | exact Hshape].
  - destruct (Ascii.eqb_spec c ".") as [->|Hc].
    + exists "". split; [reflexivity | right; eauto].
    + exists (String c s). split; [now rewrite app_empty_r | now left].
Qed.

Lemma take_app_len (a b : string) : Str.take (Str.len a) (a +:+ b) = a.
Proof. induction a as [|c a IH]; simpl; [now destruct b | now rewrite IH]. Qed.

Lemma segments_single (n : string) :
  proper_segment n = true -> Path.segments n = [n].
Proof.
  intros H. apply proper_facts in H as (Hn & _ & _ & Hs).
  unfold Path.segments. rewrite (split_no_sep _ _ Hs). simpl. now rewrite Hn.
Qed.

(** For a validated name, the copy is named by putting [_tuned] before
    the extension. *)
Lemma targetName_of_allowed (name : string) :
  allowed_name name = true ->
  exists base ext,
    name = base +:+ ext
    /\ ext = Path.extname name
    /\ targetName_of name true = base +:+ "_tuned" +:+ ext
    /\ Str.is_empty base = false.
Proof.
  intros Ha. pose proof (allowed_name_proper name Ha) as [Hp _].
  pose proof (proper_facts name Hp) as (Hne & _ & Hdd & _).
  destruct (from_last_dot_suffix name) as (pre & Hpre & Hshape).
  set (e := Path.from_last_dot name) in *.
  assert (Hseg : Path.last_portion name = name).
  { unfold Path.last_portion. now rewrite segments_single. }
  assert (Hfirst : e <> name).
  { destruct Hshape as [He | [r He]]; rewrite He.
    - intros E. rewrite <- E in Hne. discriminate.
    - destruct name as [|c rest]; [discriminate|]. intros E.
      injection E as <- _. unfold allowed_name in Ha.
      apply andb_true_iff in Ha as [Hc _]. discriminate. }
  assert (Hext : Path.extname name = e).
  { unfold Path.extname. rewrite Hseg. fold e.
    apply String.eqb_neq in Hfirst, Hdd. now rewrite Hfirst, Hdd. }
  assert (Hpre_ne : Str.is_empty pre = false).
  { destruct pre; [|reflexivity]. exfalso. apply Hfirst.
    symmetry. exact Hpre. }
  exists pre, e. split; [exact Hpre|]. split; [now rewrite Hext|].
  split; [|exact Hpre_ne].
  unfold targetName_of. rewrite Hext. f_equal.
  unfold Path.basename. rewrite Hseg.
  destruct (Str.is_empty e) eqn:Ee.
  - destruct e; [|discriminate]. now rewrite app_empty_r in Hpre.
  - apply String.eqb_neq in Hfirst. rewrite Hfirst.
    assert (Hend : Path.ends_with e name = true).
    { unfold Path.ends_with. rewrite Hpre at 1 2 3. rewrite len_app.
      replace (Str.len pre + Str.len e - Str.len e)%nat
        with (Str.len pre + 0)%nat by lia.
      rewrite drop_app_len. simpl Str.drop. rewrite String.eqb_refl.
      apply andb_true_iff. split; [apply Nat.leb_le; lia | reflexivity]. }
    rewrite Hend. cbn [negb andb].
    rewrite Hpre at 1 2. rewrite len_app.
    replace (Str.len pre + Str.len e - Str.len e)%nat with (Str.len pre) by lia.
    apply take_app_len.
Qed.

Lemma forallb_app (p : ascii -> bool) (a b : string) :
  Str.forallb p (a +:+ b) = Str.forallb p a && Str.forallb p b.
Proof.
  induction a as [|c a IH]; simpl; [reflexivity|].
  now rewrite IH, andb_assoc.
Qed.

Lemma targetName_allowed (name : string) :
  allowed_name name = true ->
  allowed_name (targetName_of name true) = true
  /\ targetName_of name true <> name.
Proof.
  intros Ha.
  destruct (targetName_of_allowed name Ha) as (base & ext & Hn & _ & -> & Hb).
  split.
  - destruct base as [|c base']; [discriminate|].
    rewrite Hn in Ha.
    change (String c base' +:+ ext) with (String c (base' +:+ ext)) in Ha.
    change (String c base' +:+ "_tuned" +:+ ext)
      with (String c (base' +:+ "_tuned" +:+ ext)).
    unfold allowed_name in *. apply andb_true_iff in Ha as [Hc Hrest].
    rewrite forallb_app in Hrest. apply andb_true_iff in Hrest as [H1 H2].
    rewrite Hc, forallb_app, H1, forallb_app, H2. reflexivity.
  - intros E. apply (f_equal Str.len) in E. rewrite Hn in E.
    rewrite !len_app in E. simpl in E. lia.
Qed.

(** *** Assignment to a property *)

Lemma own_replace (o : Obj.props) (k j : string) (v : Json) :
  Obj.own (Obj.replace o k v) j
  = if String.eqb k j
    then (if Obj.has_own o k then Some v else None)
    else Obj.own o j.
Proof.
  unfold Obj.has_own.
  induction o as [|[k' v'] o IH]; simpl.
  - now destruct (String.eqb k j).
  - destruct (String.eqb_spec k' k) as [->|Hk'].
    + simpl. destruct (String.eqb_spec k j) as [->|Hkj]; [reflexivity|].
      reflexivity.
    + simpl. rewrite IH.
      destruct (String.eqb_spec k j) as [->|Hkj].
      * apply String.eqb_neq in Hk'. now rewrite Hk'.
      * reflexivity.
Qed.

Lemma own_insert_index (o : Obj.props) (i : N) (k j : string) (v : Json) :
  Obj.own o k = None ->
  Obj.own (Obj.insert_index o i k v) j
  = if String.eqb k j then Some v else Obj.own o j.
Proof.
  induction o as [|[k' v'] o IH]; simpl; [reflexivity|].
  destruct (String.eqb_spec k' k) as [->|Hk']; [discriminate|]. intros Ho.
  assert (Hgoal : Obj.own ((k, v) :: (k', v') :: o) j
                  = if String.eqb k j then Some v
                    else if String.eqb k' j then Some v' else Obj.own o j)
    by reflexivity.
  destruct (Obj.index_of k') as [n|]; [destruct (n <? i)%N|]; try exact Hgoal.
  simpl. rewrite (IH Ho).
  destruct (String.eqb_spec k' j) as [->|]; [|reflexivity].
  apply not_eq_sym, String.eqb_neq in Hk'. now rewrite Hk'.
Qed.

Lemma own_app (o : Obj.props) (k j : string) (v : Json) :
  Obj.own o k = None ->
  Obj.own (o ++ [(k, v)])%list j
  = if String.eqb k j then Some v else Obj.own o j.
Proof.
  induction o as [|[k' v'] o IH]; simpl; [reflexivity|].
  destruct (String.eqb_spec k' k) as [->|Hk']; [discriminate|]. intros Ho.
  rewrite (IH Ho).
  destruct (String.eqb_spec k' j) as [->|]; [|reflexivity].
  apply not_eq_sym, String.eqb_neq in Hk'. now rewrite Hk'.
Qed.

Lemma own_define (o : Obj.props) (k j : string) (v : Json) :
  Obj.own (Obj.define o k v) j
  = if String.eqb k j then Some v else Obj.own o j.
Proof.
  unfold Obj.define. destruct (Obj.has_own o k) eqn:E.
  - rewrite own_replace, E. reflexivity.
  - assert (Ho : Obj.own o k = None).
    { unfold Obj.has_own in E. now destruct (Obj.own o k). }
    destruct (Obj.index_of k); [now apply own_insert_index | now apply own_app].
Qed.

(** What the assignment [o[k] = v] leaves behind: every other key keeps
    its value, and [k] holds [v] unless it is a [__proto__] that [o] does
    not own. *)
Lemma own_set (o : Obj.props) (k j : string) (v : Json) :
  Obj.own (Obj.set o k v) j
  = if String.eqb k j
    then (if Obj.has_own o k || negb (String.eqb k "__proto__")
          then Some v else Obj.own o j)
    else Obj.own o j.
Proof.
  unfold Obj.set. destruct (Obj.has_own o k) eqn:E; cbn [orb].
  - rewrite own_replace, E. reflexivity.
  - destruct (String.eqb k "__proto__"); cbn [negb].
    + now destruct (String.eqb k j).
    + apply own_define.
Qed.

(** *** The handler *)

Lemma readProfile_ok (cfg : Config) (rt : Runtime) (t : ProfileType)
      (name raw : string) (doc : Json) (w : World) :
  Path.isAbsolute (cwd cfg) = true ->
  allowed_name name = true ->
  Fs.readFile (absolute_form cfg (Path.join [profileDir cfg t; name])) w
  = (Ok raw, w) ->
  JSON_parse rt raw = Some doc ->
  readProfile cfg rt t name w = (Ok doc, w).
Proof.
  intros Hc Ha Hread Hparse.
  unfold readProfile, bind, lift. rewrite validateFilename_allowed, Ha.
  unfold safeReadFile, bind, lift, try_catch.
  rewrite resolveSandboxed_profile
    by (assumption || now apply allowed_name_proper).
  rewrite Hread. unfold parseJSON. now rewrite Hparse.
Qed.

Lemma safeWriteFile_ok (cfg : Config) (t : ProfileType)
      (n content : string) (w : World) :
  Path.isAbsolute (cwd cfg) = true ->
  proper_segment n = true ->
  let target := absolute_form cfg (Path.join [profileDir cfg t; n]) in
  Fs.fault (fs w) target = None ->
  target ∉ dirs (fs w) ->
  safeWriteFile cfg (Path.join [profileDir cfg t; n]) content w
  = (Ok tt,
     {| fs := with_files (fs w) (<[target := content]> (files (fs w)));
        oplog := ("info", "File written") :: oplog w;
        clock := clock w; spawn := spawn w |}).
Proof.
  intros Hc Hn target Hf Hd.
  unfold safeWriteFile, bind, lift.
  rewrite resolveSandboxed_profile by assumption. fold target.
  unfold Fs.writeFile. rewrite Hf.
  rewrite bool_decide_eq_false_2 by assumption.
  reflexivity.
Qed.

(** The copy-on-write update, for every document that is an object: the
    original file is left as it is and the sibling named with [_tuned]
    before the extension holds the document after the assignment, in which
    every other key keeps its value and the updated key has the new value,
    unless that key is a [__proto__] the document does not own. *)
Lemma handleUpdateProfileSetting_dry_run
      (cfg : Config) (rt : Runtime) (t : ProfileType)
      (name key raw : string) (value : Json) (props : Obj.props) (w : World) :
  let args := {| u_type := t; u_name := name; u_key := key;
                 u_value := value; u_dry_run := true |} in
  let original := absolute_form cfg (Path.join [profileDir cfg t; name]) in
  let sibling :=
    absolute_form cfg (Path.join [profileDir cfg t; targetName_of name true]) in
  let logPath := Path.resolve (cwd cfg) [WORKDIR cfg; AUDIT_LOG_FILENAME] in
  Path.isAbsolute (cwd cfg) = true ->
  validateFilename name = Ok tt ->
  Fs.readFile original w = (Ok raw, w) ->
  JSON_parse rt raw = Some (JObj props) ->
  Fs.fault (fs w) sibling = None ->
  sibling ∉ dirs (fs w) ->
  logPath <> original -> logPath <> sibling ->
  exists (response : ToolResponse) (w' : World) (updated : Obj.props),
    handleUpdateProfileSetting cfg rt args w = (Ok response, w')
    /\ isError response = false
    /\ sibling <> original
    /\ files (fs w') !! original = files (fs w) !! original
    /\ updated = Obj.set props key value
    /\ files (fs w') !! sibling = Some (JSON_stringify rt 2 (JObj updated))
    /\ (forall k, k <> key -> Obj.own updated k = Obj.own props k)
    /\ (Obj.has_own props key = true \/ key <> "__proto__" ->
        Obj.own updated key = Some value).
Proof.
  intros args original sibling logPath Hc Hv Hread Hparse Hf Hd Hlo Hls.
  apply validateFilename_ok in Hv.
  destruct (targetName_allowed name Hv) as [Hta Htne].
  pose proof (allowed_name_proper name Hv) as [Hpn _].
  pose proof (allowed_name_proper _ Hta) as [Hpt _].
  assert (Hso : sibling <> original)
    by (now apply profile_paths_differ).
  unfold handleUpdateProfileSetting, bind. cbn [u_type u_name u_key u_value
                                                u_dry_run args].
  rewrite (readProfile_ok cfg rt t name raw (JObj props) w Hc Hv Hread Hparse).
  cbn [lift property_get property_set].
  rewrite (safeWriteFile_ok cfg t (targetName_of name true) _ w Hc Hpt Hf Hd).
  fold sibling.
  set (w1 := {| fs := _; oplog := _ :: _; clock := _; spawn := _ |}).
  match goal with
  | |- context [auditLog cfg rt ?a ?d w1] =>
      destruct (auditLog_run cfg rt a d w1) as (w' & Hrun & Hframe & _);
      rewrite Hrun
  end.
  eexists. exists w', (Obj.set props key value).
  split; [reflexivity|]. split; [reflexivity|]. split; [exact Hso|].
  fold logPath in Hframe.
  split; [|split; [reflexivity|split; [|split]]].
  - rewrite Hframe by congruence. unfold w1. cbn [fs files with_files].
    now rewrite lookup_insert_ne.
  - rewrite Hframe by congruence. unfold w1. cbn [fs files with_files].
    apply lookup_insert_eq.
  - intros k Hk. rewrite own_set.
    apply not_eq_sym, String.eqb_neq in Hk. now rewrite Hk.
  - intros Hown. rewrite own_set, String.eqb_refl.
    destruct Hown as [-> | Hk]; [reflexivity|].
    apply String.eqb_neq in Hk. rewrite Hk. now rewrite orb_true_r.
Qed.


Lemma handleUpdateProfileSetting_dry_run_sample :
  exists response w' updated,
    handleUpdateProfileSetting sample_config sample_runtime
      (sample_update "infill_density" (JNum 40)) (sample_world sample_profiles)
    = (Ok response, w')
    /\ files (fs w') !! "/orca/process/standard_quality.json"
       = Some sample_profile_text
    /\ files (fs w') !! "/orca/process/standard_quality_tuned.json"
       = Some (JSON_stringify sample_runtime 2 (JObj updated))
    /\ Obj.own updated "infill_density" = Some (JNum 40)
    /\ Obj.own updated "layer_height" = Some (JNum 2).
Proof.
  destruct (handleUpdateProfileSetting_dry_run
              sample_config sample_runtime process "standard_quality.json"
              "infill_density" sample_profile_text (JNum 40)
              [("infill_density", JNum 20); ("layer_height", JNum 2)]
              (sample_world sample_profiles))
    as (response & w' & updated & Hrun & _ & _ & Horig & _ & Hsib & Hother
        & Hkey).
  - reflexivity.
  - vm_compute. reflexivity.
  - vm_compute. reflexivity.
  - vm_compute. reflexivity.
  - vm_compute. reflexivity.
  - apply (bool_decide_eq_false_1 (_ ∈ _)). vm_compute. reflexivity.
  - vm_compute. discriminate.
  - vm_compute. discriminate.
  - assert (E1 : absolute_form sample_config
                   (Path.join [profileDir sample_config process;
                               "standard_quality.json"])
                 = "/orca/process/standard_quality.json")
      by (vm_compute; reflexivity).
    assert (E2 : absolute_form sample_config
                   (Path.join [profileDir sample_config process;
                               targetName_of "standard_quality.json" true])
                 = "/orca/process/standard_quality_tuned.json")
      by (vm_compute; reflexivity).
    rewrite E1 in Horig. rewrite E2 in Hsib.
    exists response, w', updated. split; [exact Hrun|].
    split; [rewrite Horig; vm_compute; reflexivity|]. split; [exact Hsib|].
    split; [apply Hkey; right; discriminate|].
    rewrite Hother by discriminate. reflexivity.
Qed.

(** *** The handler reaches the slicer with sandboxed paths *)

Lemma resolveSandboxed_workdir_entry (cfg : Config) (name : string) :
  Path.isAbsolute (cwd cfg) = true ->
  allowed_name name = true ->
  resolveSandboxed cfg (Path.join [WORKDIR cfg; name])
  = Ok (absolute_form cfg (Path.join [WORKDIR cfg; name])).
Proof.
  intros Hc Ha. apply allowed_name_proper in Ha as [Hp Hdd].
  rewrite resolveSandboxed_segments by assumption.
  rewrite abs_segments_join by assumption.
  rewrite inside_segments_app, Hdd. reflexivity.
Qed.

Lemma resolveSandboxed_idem (cfg : Config) (raw p : string) :
  Path.isAbsolute (cwd cfg) = true ->
  resolveSandboxed cfg raw = Ok p -> resolveSandboxed cfg p = Ok p.
Proof.
  intros Hc H. rewrite resolveSandboxed_segments in H by assumption.
  destruct (_ || _) eqn:E; [|discriminate]. injection H as <-.
  rewrite resolveSandboxed_segments by assumption.
  assert (Hp : absolute_form cfg (absolute_form cfg raw) = absolute_form cfg raw).
  { rewrite (absolute_form_segments cfg raw) by assumption.
    unfold absolute_form at 1.
    rewrite resolve_idem by (assumption || apply abs_segments_proper).
    apply normalize_abs, abs_segments_proper. }
  assert (Hs : abs_segments (cwd cfg) (absolute_form cfg raw)
               = abs_segments (cwd cfg) raw).
  { rewrite absolute_form_segments by assumption.
    apply abs_segments_of_abs, abs_segments_proper. }
  now rewrite Hs, E, Hp.
Qed.

(** With validated names, an input file that exists and no profile, the
    handler runs the slicer on the two sandboxed paths. *)
Lemma handleSliceModel_runs_slicer (cfg : Config) (rt : Runtime)
      (args : SliceModelArgs) (w : World) :
  Path.isAbsolute (cwd cfg) = true ->
  validateFilename (input_file args) = Ok tt ->
  validateFilename (output_file args) = Ok tt ->
  profile_machine args = None -> profile_filament args = None ->
  profile_process args = None ->
  let inputPath := absolute_form cfg (Path.join [WORKDIR cfg; input_file args]) in
  let outputPath :=
    absolute_form cfg (Path.join [WORKDIR cfg; output_file args]) in
  Fs.access inputPath w = (Ok tt, w) ->
  handleSliceModel cfg rt args w
  = run_slicer cfg rt args ["--slice"; inputPath; "-o"; outputPath]
               (snd (log "info" "Slicing" w)).
Proof.
  intros Hc Hin Hout Hm Hf Hp inputPath outputPath Hacc.
  unfold handleSliceModel, bind, lift. rewrite Hin, Hout.
  apply validateFilename_ok in Hin, Hout.
  rewrite !resolveSandboxed_workdir_entry by assumption.
  fold inputPath outputPath.
  unfold safeFileExists, bind, lift, try_catch.
  rewrite (resolveSandboxed_idem cfg (Path.join [WORKDIR cfg; input_file args]))
    by (assumption || now apply resolveSandboxed_workdir_entry).
  fold inputPath. rewrite Hacc. cbn [ret negb].
  unfold push_profile. rewrite Hm, Hf, Hp. cbn [truthy].
  reflexivity.
Qed.

(* ================================================================== *)
(** ** The sandbox accepts nothing outside its roots *)

Lemma strip_common_nil_l (rs ps rest : list string) :
  Path.strip_common rs ps = ([], rest) -> ps = (rs ++ rest)%list.
Proof.
  revert ps. induction rs as [|r rs IH]; intros ps H.
  - simpl in H. injection H as <-. reflexivity.
  - destruct ps as [|p ps]; simpl in H; [discriminate|].
    destruct (String.eqb r p) eqn:E; [|discriminate].
    apply String.eqb_eq in E. subst p. simpl. f_equal. apply IH, H.
Qed.

Lemma inside_segments_prefix (rs ps : list string) :
  inside_segments rs ps = true ->
  exists rest, ps = (rs ++ rest)%list
    /\ match rest with [] => True | x :: _ => Str.startsWith ".." x = false end.
Proof.
  unfold inside_segments. intros H.
  destruct (Path.strip_common rs ps) as [u d] eqn:E.
  destruct u as [|u0 u]; [|discriminate].
  exists d. split; [apply strip_common_nil_l, E|].
  destruct d as [|x d]; [exact I|]. now apply negb_true_iff in H.
Qed.

Lemma resolveSandboxed_inside (cfg : Config) (raw p : string) :
  Path.isAbsolute (cwd cfg) = true ->
  resolveSandboxed cfg raw = Ok p ->
  p = absolute_form cfg raw
  /\ (descendant_or_self (Path.resolve (cwd cfg) [WORKDIR cfg]) p
      \/ descendant_or_self (Path.resolve (cwd cfg) [ORCA_USER_DIR cfg]) p).
Proof.
  intros Habs H. rewrite (resolveSandboxed_segments cfg raw Habs) in H.
  destruct (inside_segments (abs_segments (cwd cfg) (WORKDIR cfg)) _) eqn:E1;
    [|destruct (inside_segments (abs_segments (cwd cfg) (ORCA_USER_DIR cfg)) _) eqn:E2];
    simpl in H; try discriminate; injection H as <-; (split; [reflexivity|]).
  - left. destruct (inside_segments_prefix _ _ E1) as (rest & Hr & _).
    exists rest. now rewrite segments_absolute_form, segments_root.
  - right. destruct (inside_segments_prefix _ _ E2) as (rest & Hr & _).
    exists rest. now rewrite segments_absolute_form, segments_root.
Qed.

(** X1. Whatever [resolveSandboxed] returns is the absolute form of its
    argument, is an absolute path whose segments all name entries (none is
    empty, [.] or [..]), lies in or below one of the two allowed roots,
    and is returned unchanged when it is checked again. *)
Theorem resolveSandboxed_sound (cfg : Config) (raw p : string) :
  Path.isAbsolute (cwd cfg) = true ->
  resolveSandboxed cfg raw = Ok p ->
  p = absolute_form cfg raw
  /\ Path.isAbsolute p = true
  /\ all_proper (Path.segments p)
  /\ (descendant_or_self (Path.resolve (cwd cfg) [WORKDIR cfg]) p
      \/ descendant_or_self (Path.resolve (cwd cfg) [ORCA_USER_DIR cfg]) p)
  /\ resolveSandboxed cfg p = Ok p.
Proof.
  intros Habs H.
  destruct (resolveSandboxed_inside cfg raw p Habs H) as [Hp Hin].
  split; [exact Hp|]. split; [|split; [|split; [exact Hin|]]].
  - rewrite Hp, (absolute_form_segments cfg raw Habs). reflexivity.
  - rewrite Hp, (segments_absolute_form cfg raw Habs).
    apply abs_segments_proper.
  - exact (resolveSandboxed_idem cfg raw p Habs H).
Qed.

Lemma resolveSandboxed_sound_witness :
  resolveSandboxed sample_config "/work/a/../b.gcode" = Ok "/work/b.gcode"
  /\ Path.isAbsolute "/work/b.gcode" = true
  /\ resolveSandboxed sample_config "/work/b.gcode" = Ok "/work/b.gcode".
Proof.
  assert (Hc : Path.isAbsolute (cwd sample_config) = true) by reflexivity.
  assert (H : resolveSandboxed sample_config "/work/a/../b.gcode"
              = Ok "/work/b.gcode") by (vm_compute; reflexivity).
  pose proof (resolveSandboxed_sound sample_config _ _ Hc H)
    as (_ & Ha & _ & _ & Hi).
  split; [exact H|]. split; [exact Ha|exact Hi].
Defined.
(* ================================================================== *)
(** ** The safe file helpers *)

Lemma enoent_to_not_found_run (safe : string) (A : Type) (e : Error)
      (w : World) :
  enoent_to_not_found safe (A := A) e w
  = (Throw (match e with
            | OtherError code =>
                if String.eqb code "ENOENT" then FileNotFoundError safe
                else e
            | _ => e
            end), w).
Proof.
  destruct e; try reflexivity. simpl.
  now destruct (String.eqb code "ENOENT").
Qed.

Lemma readFile_world (p : string) (w : World) : (Fs.readFile p w).2 = w.
Proof.
  unfold Fs.readFile. destruct (Fs.fault (fs w) p); [reflexivity|].
  destruct (files (fs w) !! p); [reflexivity|].
  now destruct (bool_decide (p ∈ dirs (fs w))).
Qed.

Lemma readdir_world (p : string) (w : World) : (Dir.readdir p w).2 = w.
Proof.
  unfold Dir.readdir. destruct (Fs.fault (fs w) p); [reflexivity|].
  destruct (bool_decide (p ∈ dirs (fs w))); [reflexivity|].
  now destruct (files (fs w) !! p).
Qed.

Lemma stat_world (p : string) (w : World) : (Dir.stat p w).2 = w.
Proof.
  unfold Dir.stat. destruct (Fs.fault (fs w) p); [reflexivity|].
  destruct (files (fs w) !! p); [reflexivity|].
  now destruct (bool_decide (p ∈ dirs (fs w))).
Qed.

Lemma safeReadFile_world (cfg : Config) (p : string) (w : World) :
  (safeReadFile cfg p w).2 = w.
Proof.
  unfold safeReadFile, bind, lift, try_catch.
  destruct (resolveSandboxed cfg p) as [safe|e]; [|reflexivity].
  pose proof (readFile_world safe w) as H.
  destruct (Fs.readFile safe w) as [[c|e] w']; simpl in H; subst w';
    [reflexivity|]. now rewrite enoent_to_not_found_run.
Qed.

Lemma safeReaddir_world (cfg : Config) (p : string) (w : World) :
  (safeReaddir cfg p w).2 = w.
Proof.
  unfold safeReaddir, bind, lift, try_catch.
  destruct (resolveSandboxed cfg p) as [safe|e]; [|reflexivity].
  pose proof (readdir_world safe w) as H.
  destruct (Dir.readdir safe w) as [[c|e] w']; simpl in H; subst w';
    [reflexivity|]. now rewrite enoent_to_not_found_run.
Qed.

(** X2. A read through [safeReadFile] changes nothing, and what it
    returns is the content of a file in or below one of the two allowed
    roots: the file at the sandboxed form of the path. *)
Theorem safeReadFile_confined (cfg : Config) (filePath content : string)
        (w w' : World) :
  Path.isAbsolute (cwd cfg) = true ->
  safeReadFile cfg filePath w = (Ok content, w') ->
  w' = w
  /\ exists safe : string,
       resolveSandboxed cfg filePath = Ok safe
       /\ files (fs w) !! safe = Some content
       /\ (descendant_or_self (Path.resolve (cwd cfg) [WORKDIR cfg]) safe
           \/ descendant_or_self
                (Path.resolve (cwd cfg) [ORCA_USER_DIR cfg]) safe).
Proof.
  intros Habs H.
  pose proof (safeReadFile_world cfg filePath w) as Hw.
  rewrite H in Hw. simpl in Hw. split; [exact Hw|].
  unfold safeReadFile, bind, lift, try_catch in H.
  destruct (resolveSandboxed cfg filePath) as [safe|e] eqn:Hs;
    [|discriminate].
  exists safe. split; [reflexivity|].
  split; [|exact (proj2 (resolveSandboxed_inside cfg _ _ Habs Hs))].
  revert H. unfold Fs.readFile.
  destruct (Fs.fault (fs w) safe).
  { rewrite enoent_to_not_found_run. discriminate. }
  destruct (files (fs w) !! safe) as [c|].
  { intros [= -> _]. reflexivity. }
  destruct (bool_decide (safe ∈ dirs (fs w)));
    rewrite enoent_to_not_found_run; discriminate.
Qed.

Lemma safeReadFile_confined_witness :
  exists safe : string,
    resolveSandboxed sample_config "model.stl/../../../work/./model.stl"
    = Ok safe
    /\ files sample_tree !! safe = Some "solid".
Proof.
  destruct (safeReadFile_confined sample_config
              "model.stl/../../../work/./model.stl" "solid"
              (sample_world sample_tree) (sample_world sample_tree))
    as (_ & safe & Hs & Hf & _).
  - reflexivity.
  - vm_compute. reflexivity.
  - exists safe. split; [exact Hs|exact Hf].
Defined.

Lemma walk_without_files (f : FS) (path : list string) :
  Forall (fun d => files f !! d = None) path ->
  Fs.walk f path = None \/ Fs.walk f path = Some (OtherError "ENOENT").
Proof.
  induction 1 as [|d path Hd _ IH]; simpl; [now left|].
  destruct (bool_decide (d ∈ dirs f)); [exact IH|].
  rewrite Hd. rewrite bool_decide_eq_false_2 by (intros [? ?]; discriminate).
  now right.
Qed.

(** X3. A path the sandbox accepts but under which nothing exists, and
    which does not pass through a regular file, makes the three reading
    helpers fail alike, whether its directory exists or not: each throws
    [FileNotFoundError] for the sandboxed form of the path, changes
    nothing, and the error is reported as
    [[404 Not Found] File not found: <that form>]. *)
Theorem missing_entry_is_not_found (cfg : Config) (filePath safe : string)
        (w : World) :
  resolveSandboxed cfg filePath = Ok safe ->
  faults (fs w) !! safe = None ->
  Forall (fun d => files (fs w) !! d = None) (Fs.ancestors safe) ->
  files (fs w) !! safe = None ->
  safe ∉ dirs (fs w) ->
  safeReadFile cfg filePath w = (Throw (FileNotFoundError safe), w)
  /\ safeReaddir cfg filePath w = (Throw (FileNotFoundError safe), w)
  /\ safeStat cfg filePath w = (Throw (FileNotFoundError safe), w)
  /\ errorToContent (FileNotFoundError safe)
     = "[404 Not Found] File not found: " +:+ safe.
Proof.
  intros Hs Hf Ha Hn Hd.
  unfold safeReadFile, safeReaddir, safeStat, bind, lift, try_catch,
    Fs.readFile, Dir.readdir, Dir.stat, Fs.fault.
  rewrite Hs, Hf, Hn, (bool_decide_eq_false_2 _ Hd).
  destruct (walk_without_files (fs w) _ Ha) as [-> | ->]; repeat split.
Qed.

Lemma missing_entry_is_not_found_witness :
  safeReadFile sample_config "/work/jobs/absent.gcode"
               (sample_world sample_tree)
  = (Throw (FileNotFoundError "/work/jobs/absent.gcode"),
     sample_world sample_tree)
  /\ errorToContent (FileNotFoundError "/work/jobs/absent.gcode")
     = "[404 Not Found] File not found: /work/jobs/absent.gcode".
Proof.
  destruct (missing_entry_is_not_found sample_config
              "/work/jobs/absent.gcode" "/work/jobs/absent.gcode"
              (sample_world sample_tree))
    as (Hr & _ & _ & Ht).
  - vm_compute. reflexivity.
  - vm_compute. reflexivity.
  - repeat constructor.
  - vm_compute. reflexivity.
  - apply (bool_decide_eq_false_1 (_ ∈ _)). vm_compute. reflexivity.
  - split; [exact Hr|exact Ht].
Defined.

(** X4. After a write through [safeWriteFile] that succeeds, the file at
    the sandboxed form of the path holds exactly what was written, and a
    read of the same path through [safeReadFile], when it succeeds,
    returns exactly that. *)
Theorem safeWriteFile_then_safeReadFile (cfg : Config)
        (filePath content : string) (w w' : World) :
  safeWriteFile cfg filePath content w = (Ok tt, w') ->
  (exists safe : string,
     resolveSandboxed cfg filePath = Ok safe
     /\ files (fs w') !! safe = Some content)
  /\ forall back : string,
       (safeReadFile cfg filePath w').1 = Ok back -> back = content.
Proof.
  unfold safeWriteFile, safeReadFile, bind, lift, try_catch.
  destruct (resolveSandboxed cfg filePath) as [safe|e]; [|discriminate].
  unfold Fs.writeFile, Fs.readFile.
  destruct (Fs.fault (fs w) safe); [discriminate|].
  destruct (bool_decide (safe ∈ dirs (fs w))); [discriminate|].
  unfold log. intros [= <-]. cbn [fs files with_fs with_files].
  split.
  - exists safe. split; [reflexivity|apply lookup_insert_eq].
  - intros back.
    destruct (Fs.fault _ safe).
    + rewrite enoent_to_not_found_run. discriminate.
    + rewrite lookup_insert_eq. now intros [= <-].
Qed.

Lemma safeWriteFile_then_safeReadFile_witness :
  let w' := (safeWriteFile sample_config "/work/out.gcode" "G28"
               (sample_world sample_tree)).2 in
  files (fs w') !! "/work/out.gcode" = Some "G28"
  /\ (safeReadFile sample_config "/work/out.gcode" w').1 = Ok "G28".
Proof.
  cbv zeta.
  destruct (safeWriteFile_then_safeReadFile sample_config "/work/out.gcode"
              "G28" (sample_world sample_tree)
              (safeWriteFile sample_config "/work/out.gcode" "G28"
                 (sample_world sample_tree)).2) as [_ Hback].
  - vm_compute. reflexivity.
  - split; [vm_compute; reflexivity|].
    destruct (safeReadFile sample_config "/work/out.gcode" _).1 as [back|e]
      eqn:E; [|vm_compute in E; discriminate].
    now rewrite (Hback back eq_refl).
Defined.



(* ================================================================== *)
(** ** Listing and searching profiles *)

Lemma ascii_compare_trans_lt (a b c : ascii) :
  Ascii.compare a b = Lt -> Ascii.compare b c = Lt -> Ascii.compare a c = Lt.
Proof.
  unfold Ascii.compare. rewrite !N.compare_lt_iff. lia.
Qed.

Lemma string_leb_trans (a b c : string) :
  String.leb a b = true -> String.leb b c = true -> String.leb a c = true.
Proof.
  unfold String.leb. revert b c.
  induction a as [|x a IH]; intros [|y b] [|z c]; simpl; try easy.
  destruct (Ascii.compare x y) eqn:Exy; try easy;
    destruct (Ascii.compare y z) eqn:Eyz; try easy.
  - apply Ascii.compare_eq_iff in Exy, Eyz. subst.
    assert (H : Ascii.compare z z = Eq) by (unfold Ascii.compare; apply N.compare_refl).
    rewrite H. apply IH.
  - apply Ascii.compare_eq_iff in Exy. subst. now rewrite Eyz.
  - apply Ascii.compare_eq_iff in Eyz. subst. now rewrite Exy.
  - now rewrite (ascii_compare_trans_lt _ _ _ Exy Eyz).
Qed.

Lemma arr_insert_perm (x : string) (l : list string) :
  Arr.insert x l ≡ₚ x :: l.
Proof.
  induction l as [|y l IH]; simpl; [reflexivity|].
  destruct (String.leb x y); [reflexivity|].
  rewrite IH. apply Permutation_swap.
Qed.

Lemma arr_insert_ascending (x : string) (l : list string) :
  ascending l -> ascending (Arr.insert x l).
Proof.
  induction l as [|y l IH]; intros H; simpl.
  - constructor; constructor.
  - inversion H as [|? ? Hl Hy]; subst.
    destruct (String.leb x y) eqn:E.
    + constructor; [exact H|]. constructor; [exact E|].
      eapply Forall_impl; [exact Hy|].
      intros z Hz. exact (string_leb_trans _ _ _ E Hz).
    + constructor; [apply IH, Hl|].
      rewrite (arr_insert_perm x l). constructor; [|exact Hy].
      destruct (String.leb_total x y) as [H1|H1]; [congruence|exact H1].
Qed.

Lemma arr_sort_perm (l : list string) : Arr.sort l ≡ₚ l.
Proof.
  induction l as [|x l IH]; simpl; [reflexivity|].
  rewrite arr_insert_perm. now rewrite IH.
Qed.

Lemma arr_sort_ascending (l : list string) : ascending (Arr.sort l).
Proof.
  induction l as [|x l IH]; simpl; [constructor|].
  apply arr_insert_ascending, IH.
Qed.

Lemma listProfileFiles_run (cfg : Config) (t : ProfileType) (w : World) :
  listProfileFiles cfg t w
  = (Ok match safeReaddir cfg (profileDir cfg t) w with
        | (Ok entries, _) =>
            Arr.sort (List.filter (Path.ends_with ".json") entries)
        | (Throw _, _) => []
        end, w).
Proof.
  unfold listProfileFiles, bind, try_catch, ret.
  pose proof (safeReaddir_world cfg (profileDir cfg t) w) as Hw.
  destruct (safeReaddir cfg (profileDir cfg t) w) as [[entries|e] w'];
    simpl in Hw; subst w'; reflexivity.
Qed.

(** X6. [listProfileFiles] never throws and changes nothing.  Its result
    is in ascending order, holds only names that end in [.json], and is a
    rearrangement of the [.json] entries [safeReaddir] lists in the
    directory of the profile type; it is empty when that directory cannot
    be listed. *)
Theorem listProfileFiles_listing (cfg : Config) (t : ProfileType)
        (w : World) :
  exists names : list string,
    listProfileFiles cfg t w = (Ok names, w)
    /\ ascending names
    /\ Forall (fun f => Path.ends_with ".json" f = true) names
    /\ match safeReaddir cfg (profileDir cfg t) w with
       | (Ok entries, _) =>
           names ≡ₚ List.filter (Path.ends_with ".json") entries
       | (Throw _, _) => names = []
       end.
Proof.
  eexists. split; [apply listProfileFiles_run|].
  destruct (safeReaddir cfg (profileDir cfg t) w) as [[entries|e] w'].
  - split; [apply arr_sort_ascending|]. split; [|apply arr_sort_perm].
    rewrite arr_sort_perm. apply Forall_forall. intros f Hf.
    apply list_elem_of_In, filter_In in Hf. apply Hf.
  - split; [constructor|]. split; [constructor|reflexivity].
Qed.
Lemma readProfile_world (cfg : Config) (rt : Runtime) (t : ProfileType)
      (name : string) (w : World) :
  (readProfile cfg rt t name w).2 = w
  /\ (is_ok (readProfile cfg rt t name w).1 = true ->
      allowed_name name = true).
Proof.
  unfold readProfile, bind, lift.
  rewrite validateFilename_allowed.
  destruct (allowed_name name); [|split; [reflexivity|discriminate]].
  pose proof (safeReadFile_world cfg
                (Path.join [profileDir cfg t; name]) w) as Hw.
  destruct (safeReadFile cfg _ w) as [[raw|e] w']; simpl in Hw; subst w';
    [|split; [reflexivity|discriminate]].
  destruct (parseJSON rt raw _); split; reflexivity.
Qed.

Lemma search_entries_run (q : string) (t : ProfileType) (f : string)
      (entries : list (string * Json)) (results : list Json) :
  search_entries q t f entries results
  = (results
       ++ List.map (fun kv => search_match t f kv.1 kv.2)
            (List.filter (fun kv => includes q (Str.toLowerCase kv.1))
                         entries))%list.
Proof.
  unfold search_entries. revert results.
  induction entries as [|[key value] entries IH]; intros results; simpl.
  - now rewrite app_nil_r.
  - rewrite IH. destruct (includes q (Str.toLowerCase key)); simpl.
    + now rewrite <- app_assoc.
    + reflexivity.
Qed.

Lemma search_profile_appends (cfg : Config) (rt : Runtime) (q : string)
      (t : ProfileType) (f : string) (results : list Json) (w : World) :
  search_profile cfg rt q t f results w
  = (Ok (results
           ++ match (search_profile cfg rt q t f [] w).1 with
              | Ok found => found
              | Throw _ => []
              end)%list, w).
Proof.
  unfold search_profile, try_catch, bind, lift, ret.
  destruct (readProfile_world cfg rt t f w) as [Hw _].
  destruct (readProfile cfg rt t f w) as [[data|e] w']; simpl in Hw; subst w'.
  - destruct (object_entries data) as [entries|e]; simpl.
    + now rewrite (search_entries_run q t f entries results),
        (search_entries_run q t f entries []).
    + now rewrite app_nil_r.
  - simpl. now rewrite app_nil_r.
Qed.

Lemma for_of_appends {A B : Type} (body : A -> list B -> M (list B))
      (g : A -> list B) (l : list A) (w : World) :
  (forall x s, body x s w = (Ok (s ++ g x)%list, w)) ->
  forall s, Arr.for_of l body s w = (Ok (s ++ flat_map g l)%list, w).
Proof.
  intros Hb. induction l as [|x l IH]; intros s; simpl.
  - now rewrite app_nil_r.
  - unfold bind. rewrite Hb, IH. now rewrite <- app_assoc.
Qed.

Lemma handleSearchSettings_run (cfg : Config) (rt : Runtime)
      (args : SearchSettingsArgs) (w : World) :
  let q := Str.toLowerCase (s_query args) in
  let types :=
    match s_type args with
    | Some t => [t]
    | None => [machine; filament; process]
    end in
  let found t f :=
    match (search_profile cfg rt q t f [] w).1 with
    | Ok matches => matches
    | Throw _ => []
    end in
  let listed t :=
    match (listProfileFiles cfg t w).1 with
    | Ok names => names
    | Throw _ => []
    end in
  handleSearchSettings cfg rt args w
  = (Ok {| isError := false;
           text :=
             JSON_stringify rt 2
               (JObj [ ("query", JStr (s_query args));
                       ("matches",
                        JArr (flat_map
                                (fun t => flat_map (found t) (listed t))
                                types)) ]) |}, w).
Proof.
  intros q types found listed. unfold handleSearchSettings.
  fold q. fold types.
  assert (Hbody : forall t0 s,
             (let* files := listProfileFiles cfg t0 in
              Arr.for_of files (search_profile cfg rt q t0) s) w
             = (Ok (s ++ flat_map (found t0) (listed t0))%list, w)).
  { intros t0 s. unfold bind, listed. rewrite listProfileFiles_run.
    cbn [fst]. apply for_of_appends. intros x s0.
    apply search_profile_appends. }
  unfold bind at 1.
  rewrite (for_of_appends _ (fun t => flat_map (found t) (listed t))
             types w Hbody []).
  reflexivity.
Qed.

(** X7. [handleListProfiles] and [handleSearchSettings] never throw, never
    answer with an error and change nothing.  Every match a search
    reports is an entry of a profile: its file is one that
    [listProfileFiles] lists for its type (the requested type when one is
    given), the profile read from that file has the key with the reported
    value, and the key contains the query, letter case apart. *)
Theorem listing_and_search_never_throw (cfg : Config) (rt : Runtime)
        (t : ProfileType) (args : SearchSettingsArgs) (w : World) :
  (exists response : ToolResponse,
     handleListProfiles cfg rt t w = (Ok response, w)
     /\ isError response = false)
  /\ exists results : list Json,
       handleSearchSettings cfg rt args w
       = (Ok {| isError := false;
                text :=
                  JSON_stringify rt 2
                    (JObj [ ("query", JStr (s_query args));
                            ("matches", JArr results) ]) |}, w)
       /\ Forall (search_hit cfg rt w (Str.toLowerCase (s_query args))
                             (s_type args))
                 results.
Proof.
  split.
  - unfold handleListProfiles, bind, ret.
    rewrite listProfileFiles_run. eexists. split; reflexivity.
  - eexists. split; [apply handleSearchSettings_run|].
    apply List.Forall_forall. intros m Hm.
    apply in_flat_map in Hm as (t0 & Ht0 & Hm).
    apply in_flat_map in Hm as (f & Hf & Hm).
    destruct (listProfileFiles_listing cfg t0 w)
      as (names & Hnames & _ & Hjson & _).
    rewrite Hnames in Hf. cbn [fst] in Hf.
    revert Hm. unfold search_profile, try_catch, bind, lift, ret.
    destruct (readProfile_world cfg rt t0 f w) as [Hw Hok].
    destruct (readProfile cfg rt t0 f w) as [[data|e] w0] eqn:Hread;
      simpl in Hw, Hok; subst w0; [|intros []].
    destruct (object_entries data) as [entries|e] eqn:Hentries;
      [|intros []].
    cbn [fst]. rewrite search_entries_run. cbn [app]. intros Hm.
    apply in_map_iff in Hm as ([key value] & <- & Hkv).
    apply filter_In in Hkv as [Hkv Hinc].
    exists t0, names, f, data, entries, key, value.
    split; [reflexivity|]. split.
    { destruct (s_type args) as [t'|]; [|exact I].
      destruct Ht0 as [<-|[]]. reflexivity. }
    split; [exact Hnames|]. split; [exact Hf|]. split; [exact Hread|].
    split; [exact Hentries|]. split; [exact Hkv|]. split; [exact Hinc|].
    split; [now apply Hok|].
    rewrite List.Forall_forall in Hjson. now apply Hjson.
Qed.

(* ================================================================== *)
(** ** The health check, and the boundary of the tool handlers *)

Lemma resolveSandboxed_root (cfg : Config) (root : string) :
  Path.isAbsolute (cwd cfg) = true ->
  root = WORKDIR cfg \/ root = ORCA_USER_DIR cfg ->
  resolveSandboxed cfg root = Ok (Path.resolve (cwd cfg) [root]).
Proof.
  intros Habs Hroot.
  destruct (resolveSandboxed_accepts cfg root root [] Habs Hroot) as [H _].
  - rewrite app_nil_r, (segments_absolute_form cfg root Habs).
    now rewrite (segments_root _ root Habs).
  - exact I.
  - rewrite H, (absolute_form_segments cfg root Habs).
    now rewrite (resolve_abs _ root Habs).
Qed.

(** X8. The two configured directories always pass the sandbox, each
    resolving to its own root; so the health check never takes its error
    branch: it never throws, changes nothing, and reports the settings
    directory as accessible exactly when it exists. *)
Theorem handleHealthCheck_report (cfg : Config) (rt : Runtime) (w : World) :
  Path.isAbsolute (cwd cfg) = true ->
  resolveSandboxed cfg (WORKDIR cfg)
  = Ok (Path.resolve (cwd cfg) [WORKDIR cfg])
  /\ resolveSandboxed cfg (ORCA_USER_DIR cfg)
     = Ok (Path.resolve (cwd cfg) [ORCA_USER_DIR cfg])
  /\ handleHealthCheck cfg rt w
     = (Ok {| isError := false;
              text :=
                JSON_stringify rt 2
                  (JObj [ ("orcaSlicerPath", JStr (ORCA_SLICER_PATH cfg));
                          ("binaryFound",
                           JBool (Dir.existsSync (cwd cfg)
                                    (ORCA_SLICER_PATH cfg) w));
                          ("userDir", JStr (ORCA_USER_DIR cfg));
                          ("userDirAccessible",
                           JBool (Dir.existsSync (cwd cfg)
                                    (ORCA_USER_DIR cfg) w));
                          ("workDir", JStr (WORKDIR cfg));
                          ("workDirAccessible",
                           JBool (Dir.existsSync (cwd cfg)
                                    (WORKDIR cfg) w)) ]) |}, w).
Proof.
  intros Habs.
  pose proof (resolveSandboxed_root cfg (WORKDIR cfg) Habs (or_introl eq_refl))
    as Hw.
  pose proof (resolveSandboxed_root cfg (ORCA_USER_DIR cfg) Habs
                (or_intror eq_refl)) as Hu.
  split; [exact Hw|]. split; [exact Hu|].
  unfold handleHealthCheck. now rewrite Hu.
Qed.

Lemma handleHealthCheck_report_witness :
  resolveSandboxed sample_config "/orca" = Ok "/orca"
  /\ is_ok (handleHealthCheck sample_config sample_runtime
              (sample_world sample_tree)).1 = true.
Proof.
  destruct (handleHealthCheck_report sample_config sample_runtime
              (sample_world sample_tree)) as (_ & Hu & Hh).
  - reflexivity.
  - split; [exact Hu|]. rewrite Hh. reflexivity.
Defined.

(** X9. The [try] statement of the tool dispatcher never lets an
    exception out.  A handler that returns has its answer passed on; a
    handler that throws is answered with an error response whose text is
    [errorToContent] of what was thrown, after one [error] record is
    logged, and the file system is left as the handler left it. *)
Theorem callTool_never_throws (name : string) (handler : M ToolResponse)
        (w : World) :
  exists (response : ToolResponse) (w' : World),
    callTool name handler w = (Ok response, w')
    /\ match handler (log "debug" ("Tool called: " +:+ name) w).2 with
       | (Ok r, w1) => response = r /\ w' = w1
       | (Throw e, w1) =>
           isError response = true
           /\ text response = errorToContent e
           /\ fs w' = fs w1
           /\ oplog w' = ("error", "Tool error: " +:+ name) :: oplog w1
       end.
Proof.
  unfold callTool, bind, try_catch. simpl.
  destruct (handler _) as [[r|e] w1].
  - exists r, w1. repeat split.
  - eexists _, _. split; [reflexivity|]. repeat split.
Qed.

(** X10. The tag at the head of an error text tells the class of the
    error: [403 Forbidden] is for a sandbox error and nothing else,
    [404 Not Found] for a missing file, [Parse Error] for a parse error,
    [CLI Error] for a failed slicer run, and [Internal Error] for every
    other error. *)
Theorem errorToContent_tags (err : Error) :
  (Str.startsWith "[403 Forbidden] " (errorToContent err) = true
   <-> exists m, err = SandboxError m)
  /\ (Str.startsWith "[404 Not Found] File not found: " (errorToContent err)
      = true
      <-> exists p, err = FileNotFoundError p)
  /\ (Str.startsWith "[Parse Error] " (errorToContent err) = true
      <-> exists m, err = ParseError m)
  /\ (Str.startsWith "[CLI Error] " (errorToContent err) = true
      <-> exists m c, err = CliExecutionError m c)
  /\ (Str.startsWith "[Internal Error] " (errorToContent err) = true
      <-> (exists c s m, err = ExecaError c s m)
          \/ exists code, err = OtherError code).
Proof.
  destruct err; simpl;
    repeat match goal with
           | |- _ /\ _ => split
           | |- _ <-> _ => split; intros H
           end;
    try discriminate; try reflexivity;
    repeat match goal with
           | H : exists _, _ |- _ => destruct H as [? H]
           | H : _ \/ _ |- _ => destruct H as [H|H]
           end;
    try discriminate; eauto.
Qed.


(* ================================================================== *)
(** ** What an update writes *)

(** X12. However an update ends, and with or without [dry_run], it leaves
    every file as it was except the target, which is the profile itself
    or its [_tuned] sibling in the directory of the profile type, and the
    audit log. *)
Theorem handleUpdateProfileSetting_frame (cfg : Config) (rt : Runtime)
        (args : UpdateProfileSettingArgs) (w : World) (q : string) :
  Path.isAbsolute (cwd cfg) = true ->
  q <> absolute_form cfg
         (Path.join [profileDir cfg (u_type args);
                     targetName_of (u_name args) (u_dry_run args)]) ->
  q <> Path.resolve (cwd cfg) [WORKDIR cfg; AUDIT_LOG_FILENAME] ->
  files (fs (handleUpdateProfileSetting cfg rt args w).2) !! q
  = files (fs w) !! q.
Proof.
  intros Habs Hqt Hql.
  unfold handleUpdateProfileSetting, bind.
  destruct (readProfile_world cfg rt (u_type args) (u_name args) w)
    as [Hw _].
  destruct (readProfile cfg rt (u_type args) (u_name args) w)
    as [[data|e] w0]; simpl in Hw; subst w0; [|reflexivity].
  unfold lift at 1 2.
  destruct (property_get rt data (u_key args)) as [oldValue|e];
    [|reflexivity].
  destruct (property_set rt data (u_key args) (u_value args)) as [data'|e];
    [|reflexivity].
  unfold safeWriteFile at 1, bind, lift.
  destruct (resolveSandboxed cfg _) as [safe|e] eqn:Hs; [|reflexivity].
  apply (resolveSandboxed_inside cfg _ _ Habs) in Hs as [-> _].
  unfold Fs.writeFile.
  destruct (Fs.fault (fs w) _); [reflexivity|].
  destruct (bool_decide _); [reflexivity|].
  cbn [log ret].
  match goal with
  | |- context [auditLog cfg rt ?a ?d ?w1] =>
      destruct (auditLog_run cfg rt a d w1) as (w' & Hrun & Hframe & _);
      rewrite Hrun
  end.
  cbn [snd]. rewrite Hframe by exact Hql.
  cbn [fs files with_fs with_files]. now rewrite lookup_insert_ne.
Qed.

Lemma handleUpdateProfileSetting_frame_witness :
  files (fs (handleUpdateProfileSetting sample_config sample_runtime
               (sample_update "infill_density" (JNum 40))
               (sample_world sample_tree)).2)
    !! "/orca/process/draft.json"
  = files (fs (sample_world sample_tree)) !! "/orca/process/draft.json".
Proof.
  apply (handleUpdateProfileSetting_frame sample_config sample_runtime
           (sample_update "infill_density" (JNum 40))
           (sample_world sample_tree) "/orca/process/draft.json").
  - reflexivity.
  - vm_compute. discriminate.
  - vm_compute. discriminate.
Defined.


(** X14. For a name the validator accepts, the copy a dry run writes is
    named by putting [_tuned] before the extension of the name; that name
    passes the validator too and differs from the original.  Without
    [dry_run] the target is the name itself. *)
Theorem targetName_of_tuned (name : string) :
  validateFilename name = Ok tt ->
  (exists base : string,
     name = base +:+ Path.extname name
     /\ Str.is_empty base = false
     /\ targetName_of name true = base +:+ "_tuned" +:+ Path.extname name)
  /\ validateFilename (targetName_of name true) = Ok tt
  /\ targetName_of name true <> name
  /\ targetName_of name false = name.
Proof.
  intros Hv. apply validateFilename_ok in Hv.
  destruct (targetName_of_allowed name Hv) as (base & ext & Hn & He & Ht & Hb).
  destruct (targetName_allowed name Hv) as [Ha Hne].
  split; [|split; [|split; [exact Hne|reflexivity]]].
  - exists base. subst ext. repeat split; assumption.
  - rewrite validateFilename_allowed. now rewrite Ha.
Qed.

Lemma targetName_of_tuned_witness :
  targetName_of "PLA-Generic.v2.json" true <> "PLA-Generic.v2.json"
  /\ validateFilename (targetName_of "PLA-Generic.v2.json" true) = Ok tt.
Proof.
  destruct (targetName_of_tuned "PLA-Generic.v2.json") as (_ & Hv & Hne & _).
  - vm_compute. reflexivity.
  - split; [exact Hne|exact Hv].
Defined.

(* ================================================================== *)
(** ** The audit log only grows *)

(** X15. [auditLog] only ever appends to its file.  What the log file
    held before is a prefix of what it holds afterwards, and directories
    are never touched.  When nothing stands in the way of the file (no
    fault on it, its directory exists, it is not a directory itself), it
    holds afterwards what it held before followed by exactly one line:
    the serialisation of the object built from the time stamp, the action
    and then the details, ended by a line feed. *)
Theorem auditLog_appends (cfg : Config) (rt : Runtime) (action : string)
        (details : Obj.props) (w : World) :
  let logPath := Path.resolve (cwd cfg) [WORKDIR cfg; AUDIT_LOG_FILENAME] in
  let w' := (auditLog cfg rt action details w).2 in
  let before := default "" (files (fs w) !! logPath) in
  let entry :=
    JSON_stringify rt 0
      (JObj (Obj.spread [("ts", JStr (clock w)); ("action", JStr action)]
                        details)) in
  dirs (fs w') = dirs (fs w)
  /\ (exists suffix : string,
        default "" (files (fs w') !! logPath) = before +:+ suffix)
  /\ (Fs.fault (fs w) logPath = None ->
      logPath ∉ dirs (fs w) ->
      files (fs w') !! logPath = Some (before +:+ entry +:+ nl)).
Proof.
  cbv zeta. unfold auditLog, try_catch, Fs.appendFile.
  destruct (Fs.fault (fs w) _).
  { split; [reflexivity|]. split; [|discriminate].
    exists "". now rewrite app_empty_r. }
  destruct (bool_decide _) eqn:Hd.
  { split; [reflexivity|]. split.
    - exists "". now rewrite app_empty_r.
    - intros _ Hn. apply bool_decide_eq_true in Hd. contradiction. }
  cbn [snd fs files dirs with_fs with_files].
  split; [reflexivity|]. rewrite lookup_insert_eq. split.
  - eexists. reflexivity.
  - reflexivity.
Qed.

Lemma auditLog_appends_witness :
  files (fs (auditLog sample_config sample_runtime "slice_model"
               [("input", JStr "cube.stl")] (sample_world sample_tree)).2)
    !! "/work/tuning_history.log"
  = Some (JSON_stringify sample_runtime 0
            (JObj [ ("ts", JStr "2024-01-01T00:00:00.000Z");
                    ("action", JStr "slice_model");
                    ("input", JStr "cube.stl") ]) +:+ nl).
Proof.
  apply (auditLog_appends sample_config sample_runtime "slice_model"
           [("input", JStr "cube.stl")] (sample_world sample_tree)).
  - vm_compute. reflexivity.
  - apply (bool_decide_eq_false_1 (_ ∈ _)). vm_compute. reflexivity.
Defined.

(* ================================================================== *)
(** ** When the slicer is started, and with what *)

Lemma push_profile_run (cfg : Config) (flag : string) (t : ProfileType)
      (profile : option string) (cliArgs : list string) :
  Path.isAbsolute (cwd cfg) = true ->
  profile_allowed profile = true ->
  push_profile cfg flag t profile cliArgs
  = Ok (cliArgs ++ profile_args cfg flag t profile)%list.
Proof.
  intros Habs. unfold push_profile, profile_allowed, profile_args.
  destruct (truthy profile) as [name|]; [|now rewrite app_nil_r].
  intros Ha. rewrite validateFilename_allowed, Ha.
  now rewrite (resolveSandboxed_profile cfg t name Habs
                 (proj1 (allowed_name_proper name Ha))).
Qed.

Lemma push_profile_rejects (cfg : Config) (flag : string) (t : ProfileType)
      (profile : option string) (cliArgs : list string) :
  profile_allowed profile = false ->
  exists m, push_profile cfg flag t profile cliArgs = Throw (SandboxError m).
Proof.
  unfold push_profile, profile_allowed.
  destruct (truthy profile) as [name|]; [|discriminate].
  intros Ha. rewrite validateFilename_allowed, Ha. eauto.
Qed.

Lemma safeFileExists_run (cfg : Config) (p : string) (w : World) :
  Path.isAbsolute (cwd cfg) = true ->
  resolveSandboxed cfg p = Ok p ->
  safeFileExists cfg p w = (Ok (is_ok (Fs.access p w).1), w).
Proof.
  intros Habs Hp. unfold safeFileExists, bind, lift, try_catch. rewrite Hp.
  unfold Fs.access. destruct (Fs.fault (fs w) p); [reflexivity|].
  destruct (files (fs w) !! p); [reflexivity|].
  now destruct (bool_decide _).
Qed.

(** X16. [handleSliceModel] stops before anything happens when a check
    fails: when the input or the output name is not an allowed name, when
    the input file does not exist, or when a profile that is given is not
    an allowed name.  It then answers [404 Not Found] for the missing
    input or throws a sandbox error, and the world is exactly as before:
    no process was started and nothing was written or logged. *)
Theorem handleSliceModel_refuses (cfg : Config) (rt : Runtime)
        (args : SliceModelArgs) (w : World) :
  Path.isAbsolute (cwd cfg) = true ->
  allowed_name (input_file args) = false
  \/ allowed_name (output_file args) = false
  \/ is_ok (Fs.access
              (absolute_form cfg (Path.join [WORKDIR cfg; input_file args]))
              w).1 = false
  \/ profile_allowed (profile_machine args) = false
  \/ profile_allowed (profile_filament args) = false
  \/ profile_allowed (profile_process args) = false ->
  exists result : Result ToolResponse,
    handleSliceModel cfg rt args w = (result, w)
    /\ (result
        = Ok {| isError := true;
                text := "[404 Not Found] Input file not found: "
                          +:+ input_file args |}
        \/ exists m, result = Throw (SandboxError m)).
Proof.
  intros Habs H.
  unfold handleSliceModel, bind, lift.
  rewrite !validateFilename_allowed.
  destruct (allowed_name (input_file args)) eqn:Hin;
    [|eexists; split; [reflexivity|right; eauto]].
  destruct (allowed_name (output_file args)) eqn:Hout;
    [|eexists; split; [reflexivity|right; eauto]].
  rewrite !resolveSandboxed_workdir_entry by assumption.
  rewrite safeFileExists_run
    by (try assumption;
        apply (resolveSandboxed_idem cfg
                 (Path.join [WORKDIR cfg; input_file args])); try assumption;
        now apply resolveSandboxed_workdir_entry).
  destruct (is_ok (Fs.access _ w).1) eqn:Hacc;
    [|eexists; split; [reflexivity|now left]].
  cbn [negb].
  destruct H as [H|[H|[H|H]]]; try discriminate.
  destruct (profile_allowed (profile_machine args)) eqn:Hm.
  2:{ destruct (push_profile_rejects cfg "--load-settings" machine
                  (profile_machine args)
                  ["--slice";
                   absolute_form cfg (Path.join [WORKDIR cfg; input_file args]);
                   "-o";
                   absolute_form cfg (Path.join [WORKDIR cfg; output_file args])]
                  Hm) as [m ->].
      eexists; split; [reflexivity|right; eauto]. }
  rewrite (push_profile_run cfg "--load-settings" _ _ _ Habs Hm).
  destruct (profile_allowed (profile_filament args)) eqn:Hf.
  2:{ match goal with
      | |- context [push_profile cfg ?f ?t ?p ?c] =>
          destruct (push_profile_rejects cfg f t p c Hf) as [m ->]
      end.
      eexists; split; [reflexivity|right; eauto]. }
  rewrite (push_profile_run cfg "--load-filaments" _ _ _ Habs Hf).
  destruct H as [H|[H|H]]; try discriminate.
  match goal with
  | |- context [push_profile cfg ?f ?t ?p ?c] =>
      destruct (push_profile_rejects cfg f t p c H) as [m ->]
  end.
  eexists; split; [reflexivity|right; eauto].
Qed.

Lemma handleSliceModel_refuses_witness :
  exists result : Result ToolResponse,
    handleSliceModel sample_config sample_runtime
      {| input_file := "model.stl"; output_file := "out.gcode";
         profile_machine := None; profile_filament := Some "../../x.json";
         profile_process := None; timeout_ms := 300000 |}
      (sample_world sample_tree)
    = (result, sample_world sample_tree)
    /\ (result
        = Ok {| isError := true;
                text := "[404 Not Found] Input file not found: model.stl" |}
        \/ exists m, result = Throw (SandboxError m)).
Proof.
  apply (handleSliceModel_refuses sample_config sample_runtime
           {| input_file := "model.stl"; output_file := "out.gcode";
              profile_machine := None;
              profile_filament := Some "../../x.json";
              profile_process := None; timeout_ms := 300000 |}
           (sample_world sample_tree)).
  - reflexivity.
  - right. right. right. right. left. vm_compute. reflexivity.
Defined.

(** X17. When every check passes, [handleSliceModel] logs once and runs
    the slicer on this argument vector: [--slice], the input, [-o], the
    output, then for each profile that is given its flag and its path, in
    the order machine, filament, process.  Every path in that vector is
    an entry of the work directory or of a profile directory in its
    absolute form, and is itself accepted by the sandbox. *)
Theorem handleSliceModel_argv (cfg : Config) (rt : Runtime)
        (args : SliceModelArgs) (w : World) :
  let inputPath :=
    absolute_form cfg (Path.join [WORKDIR cfg; input_file args]) in
  let outputPath :=
    absolute_form cfg (Path.join [WORKDIR cfg; output_file args]) in
  let cliArgs :=
    (["--slice"; inputPath; "-o"; outputPath]
       ++ profile_args cfg "--load-settings" machine (profile_machine args)
       ++ profile_args cfg "--load-filaments" filament
                       (profile_filament args)
       ++ profile_args cfg "--load-process" process (profile_process args))%list in
  Path.isAbsolute (cwd cfg) = true ->
  validateFilename (input_file args) = Ok tt ->
  validateFilename (output_file args) = Ok tt ->
  profile_allowed (profile_machine args) = true ->
  profile_allowed (profile_filament args) = true ->
  profile_allowed (profile_process args) = true ->
  Fs.access inputPath w = (Ok tt, w) ->
  handleSliceModel cfg rt args w
  = run_slicer cfg rt args cliArgs (log "info" "Slicing" w).2
  /\ Forall (fun a => Path.isAbsolute a = true -> resolveSandboxed cfg a = Ok a)
            cliArgs.
Proof.
  intros inputPath outputPath cliArgs Habs Hin Hout Hm Hf Hp Hacc.
  pose proof (validateFilename_ok _ Hin) as Hin'.
  pose proof (validateFilename_ok _ Hout) as Hout'.
  assert (Hidem : forall raw, resolveSandboxed cfg raw
                              = Ok (absolute_form cfg raw) ->
                  resolveSandboxed cfg (absolute_form cfg raw)
                  = Ok (absolute_form cfg raw)).
  { intros raw H. exact (resolveSandboxed_idem cfg raw _ Habs H). }
  assert (Hprof : forall flag t p, Path.isAbsolute flag = false ->
            profile_allowed p = true ->
            Forall (fun a => Path.isAbsolute a = true ->
                             resolveSandboxed cfg a = Ok a)
                   (profile_args cfg flag t p)).
  { intros flag t p Hflag Hpa. unfold profile_args, profile_allowed in *.
    destruct (truthy p) as [name|]; [|constructor].
    constructor; [|constructor; [|constructor]].
    - intros Hx. rewrite Hflag in Hx. discriminate.
    - intros _. apply Hidem, resolveSandboxed_profile; [assumption|].
      now apply allowed_name_proper. }
  split.
  - unfold handleSliceModel, bind, lift. rewrite Hin, Hout.
    rewrite !resolveSandboxed_workdir_entry by assumption.
    fold inputPath outputPath.
    rewrite safeFileExists_run
      by (try assumption; apply Hidem;
          now apply resolveSandboxed_workdir_entry).
    rewrite Hacc. cbn [negb is_ok fst].
    rewrite (push_profile_run cfg _ _ _ _ Habs Hm).
    rewrite (push_profile_run cfg _ _ _ _ Habs Hf).
    rewrite (push_profile_run cfg _ _ _ _ Habs Hp).
    unfold cliArgs. now rewrite <- !app_assoc.
  - unfold cliArgs. repeat first [apply Forall_app; split
                                   | apply Hprof; [reflexivity|assumption]].
    constructor; [discriminate|]. constructor.
    { intros _. apply Hidem. now apply resolveSandboxed_workdir_entry. }
    constructor; [discriminate|]. constructor; [|constructor].
    intros _. apply Hidem. now apply resolveSandboxed_workdir_entry.
Qed.

Lemma handleSliceModel_argv_witness :
  handleSliceModel sample_config sample_runtime
    {| input_file := "model.stl"; output_file := "out.gcode";
       profile_machine := None; profile_filament := Some "";
       profile_process := Some "draft.json"; timeout_ms := 300000 |}
    (sample_world sample_tree)
  = run_slicer sample_config sample_runtime
      {| input_file := "model.stl"; output_file := "out.gcode";
         profile_machine := None; profile_filament := Some "";
         profile_process := Some "draft.json"; timeout_ms := 300000 |}
      ["--slice"; "/work/model.stl"; "-o"; "/work/out.gcode";
       "--load-process"; "/orca/process/draft.json"]
      (log "info" "Slicing" (sample_world sample_tree)).2.
Proof.
  destruct (handleSliceModel_argv sample_config sample_runtime
              {| input_file := "model.stl"; output_file := "out.gcode";
                 profile_machine := None; profile_filament := Some "";
                 profile_process := Some "draft.json";
                 timeout_ms := 300000 |}
              (sample_world sample_tree)) as [Hrun _].
  - reflexivity.
  - vm_compute. reflexivity.
  - vm_compute. reflexivity.
  - reflexivity.
  - reflexivity.
  - vm_compute. reflexivity.
  - vm_compute. reflexivity.
  - exact Hrun.
Defined.
(* ================================================================== *)
(** ** More on the metadata parser *)

Lemma processLine_not_comment (meta : GcodeMetadata) (line : string) :
  is_comment line = false -> Gcode.processLine meta line = meta.
Proof.
  unfold is_comment, Gcode.processLine. cbv zeta. now intros ->.
Qed.

Lemma fold_processLine_comments (lines : list string) (meta : GcodeMetadata) :
  fold_left Gcode.processLine lines meta
  = fold_left Gcode.processLine (List.filter is_comment lines) meta.
Proof.
  revert meta. induction lines as [|l lines IH]; intros meta; [reflexivity|].
  simpl. destruct (is_comment l) eqn:E; simpl.
  - apply IH.
  - rewrite processLine_not_comment by exact E. apply IH.
Qed.

(** X18. Only comment lines count: the metadata of a text is what its
    comment lines alone give, in their order, among the lines of the last
    4096 characters; a text without comment lines there gives the empty
    mapping. *)
Theorem parseGcodeMetadata_comments_only (gcode : string) :
  let lines := Str.split LF (Str.slice_last 4096 gcode) in
  Gcode.parseGcodeMetadata gcode
  = fold_left Gcode.processLine (List.filter is_comment lines) ∅
  /\ (List.forallb (fun l => negb (is_comment l)) lines = true ->
      Gcode.parseGcodeMetadata gcode = ∅).
Proof.
  cbv zeta. unfold Gcode.parseGcodeMetadata.
  rewrite fold_processLine_comments. split; [reflexivity|].
  intros H. replace (List.filter is_comment _) with (@nil string);
    [reflexivity|].
  induction (Str.split LF _) as [|l ls IH]; [reflexivity|].
  simpl in *. apply andb_true_iff in H as [Hl Hls].
  apply negb_true_iff in Hl. rewrite Hl. now apply IH.
Qed.

Lemma parseGcodeMetadata_comments_only_witness :
  Gcode.parseGcodeMetadata ("G28" +:+ nl +:+ "G1 X10 Y10 ; move" +:+ nl) = ∅.
Proof.
  apply (parseGcodeMetadata_comments_only
           ("G28" +:+ nl +:+ "G1 X10 Y10 ; move" +:+ nl)).
  vm_compute. reflexivity.
Defined.

(** *** The shape of the entries *)

Lemma exec_LitCI {A : Type} (lit s : string) (caps : list string)
      (k : string -> list string -> option A) (x : A) :
  Regex.exec (Regex.LitCI lit) s caps k = Some x ->
  exists s', k s' caps = Some x.
Proof.
  revert s. induction lit as [|c lit IH]; intros s; simpl.
  - eauto.
  - destruct s as [|d s]; [discriminate|].
    destruct (Char.is_ci c d); [apply IH|discriminate].
Qed.

Lemma exec_Lit {A : Type} (lit s : string) (caps : list string)
      (k : string -> list string -> option A) (x : A) :
  Regex.exec (Regex.Lit lit) s caps k = Some x ->
  exists s', k s' caps = Some x.
Proof.
  revert s. induction lit as [|c lit IH]; intros s; simpl.
  - eauto.
  - destruct s as [|d s]; [discriminate|].
    destruct (Char.is_char c d); [apply IH|discriminate].
Qed.

Lemma star_greedy_some {A : Type} (p : ascii -> bool) (s : string)
      (k : string -> option A) (x : A) :
  Regex.star_greedy p s k = Some x ->
  exists a b, s = a +:+ b /\ Str.forallb p a = true /\ k b = Some x.
Proof.
  induction s as [|c s IH]; simpl.
  - intros H. exists "", "". auto.
  - destruct (p c) eqn:Hp.
    + destruct (Regex.star_greedy p s k) as [y|] eqn:E.
      * intros [= ->]. destruct (IH eq_refl) as (a & b & -> & Ha & Hk).
        exists (String c a), b. simpl. rewrite Hp, Ha. auto.
      * intros H. exists "", (String c s). auto.
    + intros H. exists "", (String c s). auto.
Qed.

(** What [(\d+)] captures at the end of the layer pattern. *)
Lemma re_layers_capture (body : string) (m : list string) :
  Regex.matches Gcode.re_layers body = Some m ->
  exists c ds, Regex.group 1 m = String c ds
               /\ Str.forallb Char.is_digit (String c ds) = true.
Proof.
  unfold Regex.matches, Gcode.re_layers. cbn [Regex.seq].
  cbn [Regex.exec]. intros H.
  apply exec_LitCI in H as [s1 H].
  apply star_greedy_some in H as (? & s2 & _ & _ & H).
  apply exec_Lit in H as [s3 H].
  apply star_greedy_some in H as (? & s4 & _ & _ & H).
  unfold Regex.Plus in H. cbn [Regex.exec] in H.
  destruct s4 as [|c r]; [discriminate|].
  destruct (Char.is_digit c) eqn:Hc; [|discriminate].
  apply star_greedy_some in H as (a & b & -> & Ha & H).
  injection H as <-. exists c, a. split.
  - unfold Regex.group. cbn [nth Nat.sub app].
    change (Str.len (String c (a +:+ b))) with (S (Str.len (a +:+ b))).
    rewrite len_app.
    replace (S (Str.len a + Str.len b) - Str.len b)%nat
      with (S (Str.len a)) by lia.
    cbn [Str.take]. now rewrite take_app_len.
  - simpl. now rewrite Hc, Ha.
Qed.

Lemma span_all (p : ascii -> bool) (s : string) :
  Str.forallb p s = true -> Number.span p s = (s, "").
Proof.
  induction s as [|c s IH]; simpl; [reflexivity|].
  destruct (p c); [|discriminate]. intros H. now rewrite (IH H).
Qed.

Lemma digit_facts (c : ascii) :
  Char.is_digit c = true ->
  Char.is_space c = false /\ c <> "-"%char /\ c <> "+"%char.
Proof.
  destruct c as [[] [] [] [] [] [] [] []]; try discriminate;
    (split; [reflexivity|split; discriminate]).
Qed.

Lemma Qred_inject_Z (z : Z) : Qred (inject_Z z) = inject_Z z.
Proof.
  unfold Qred, inject_Z.
  generalize (Z.ggcd_gcd z 1) (Z.ggcd_correct_divisors z 1).
  destruct (Z.ggcd z 1) as [g [a b]]. simpl. intros Hg [Ha Hb].
  rewrite Z.gcd_1_r in Hg. subst g. rewrite Z.mul_1_l in Ha, Hb.
  now subst.
Qed.

Lemma div_half_even_nonneg (a b : Z) :
  (0 <= a)%Z -> (0 < b)%Z -> (0 <= Number.div_half_even a b)%Z.
Proof.
  intros Ha Hb. unfold Number.div_half_even.
  pose proof (Z.div_pos a b Ha Hb).
  destruct (2 * (a mod b) ?= b)%Z; [destruct (Z.even _)| |]; lia.
Qed.

Lemma div_half_even_1 (a : Z) : Number.div_half_even a 1 = a.
Proof.
  unfold Number.div_half_even. now rewrite Z.mod_1_r, Z.div_1_r.
Qed.

(** What [to_double] returns for a rational that is not negative: a
    rational that is not negative, or [Infinity]. *)
Lemma to_double_not_negative (q : Q) :
  (0 <= Qnum q)%Z ->
  Number.to_double q = Infinity false
  \/ exists r : Q, Number.to_double q = Num r /\ (0 <= r)%Q.
Proof.
  intros Hq. unfold Number.to_double.
  destruct (Qnum q <=? 0)%Z;
    [right; exists 0%Q; split; [reflexivity|apply Qle_refl]|].
  set (e := Z.max _ _).
  set (m := if (0 <=? e)%Z then _ else _).
  destruct (_ || _); [now left|]. right. eexists. split; [reflexivity|].
  rewrite Qred_correct. apply Qmult_le_0_compat.
  - assert (Hm : (0 <= m)%Z).
    { unfold m. destruct (0 <=? e)%Z eqn:He.
      - apply div_half_even_nonneg; [exact Hq|].
        apply Z.leb_le in He.
        pose proof (Z.pow_pos_nonneg 2 e). lia.
      - apply div_half_even_nonneg; [|lia].
        apply Z.leb_gt in He.
        pose proof (Z.pow_pos_nonneg 2 (- e)). nia. }
    unfold Qle. simpl. lia.
  - apply Qpower_0_le. discriminate.
Qed.

(** What [to_double] returns for a natural number: a natural number, or
    [Infinity]. *)
Lemma to_double_integer (z : Z) :
  (0 <= z)%Z ->
  Number.to_double (inject_Z z) = Infinity false
  \/ exists n : N, Number.to_double (inject_Z z) = Num (inject_Z (Z.of_N n)).
Proof.
  intros Hz. unfold Number.to_double. cbn [Qnum Qden inject_Z].
  destruct (z <=? 0)%Z; [right; now exists 0%N|].
  set (e := Z.max _ _).
  set (m := if (0 <=? e)%Z then _ else _).
  destruct (_ || _); [now left|]. right.
  assert (H : exists z' : Z,
             (0 <= z')%Z /\ inject_Z m * Qpower 2 e == inject_Z z').
  { unfold m. destruct (0 <=? e)%Z eqn:He.
    - apply Z.leb_le in He. eexists. split.
      2:{ rewrite <- (Zpower_Qpower 2 e He), <- inject_Z_mult. reflexivity. }
      apply Z.mul_nonneg_nonneg; [|apply Z.pow_nonneg; lia].
      apply div_half_even_nonneg; [exact Hz|].
      pose proof (Z.pow_pos_nonneg 2 e). lia.
    - apply Z.leb_gt in He. exists z. split; [exact Hz|].
      rewrite div_half_even_1, inject_Z_mult.
      rewrite (Zpower_Qpower 2 (- e)) by lia.
      rewrite <- Qmult_assoc.
      rewrite <- (Qpower_plus (inject_Z 2) (- e) e) by discriminate.
      replace (- e + e)%Z with 0%Z by lia. simpl. ring. }
  destruct H as (z' & Hz' & Heq).
  exists (Z.to_N z'). rewrite (Qred_complete _ _ Heq), Qred_inject_Z.
  now rewrite Z2N.id.
Qed.

Lemma parseInt_digits (c : ascii) (ds : string) :
  Str.forallb Char.is_digit (String c ds) = true ->
  Number.parseInt (String c ds) = Infinity false
  \/ exists n : N,
       Number.parseInt (String c ds) = Num (inject_Z (Z.of_N n)).
Proof.
  intros H. pose proof H as H0. simpl in H0.
  apply andb_true_iff in H0 as [Hc _].
  destruct (digit_facts c Hc) as (Hs & Hm & Hp).
  unfold Number.parseInt. cbn [Str.trimStart]. rewrite Hs.
  assert (Hsign : Number.sign (String c ds) = (false, String c ds)).
  { unfold Number.sign.
    destruct c as [[] [] [] [] [] [] [] []]; try reflexivity; congruence. }
  rewrite Hsign, (span_all _ _ H). cbn [Str.is_empty].
  destruct (to_double_integer (Number.digits_value (String c ds)))
    as [-> | [n ->]].
  - unfold Number.digits_value. lia.
  - now left.
  - right. now exists n.
Qed.

Lemma grp_plus_capture (p : ascii -> bool) (s : string) (m : list string) :
  Regex.exec (Regex.Cat (Regex.Grp (Regex.Plus p)) Regex.Eps) s []
             (fun _ caps => Some caps) = Some m ->
  exists c ds, Regex.group 1 m = String c ds
               /\ Str.forallb p (String c ds) = true.
Proof.
  unfold Regex.Plus. cbn [Regex.exec]. intros H.
  destruct s as [|c r]; [discriminate|].
  destruct (p c) eqn:Hc; [|discriminate].
  apply star_greedy_some in H as (a & b & -> & Ha & H).
  injection H as <-. exists c, a. split.
  - unfold Regex.group. cbn [nth Nat.sub app].
    change (Str.len (String c (a +:+ b))) with (S (Str.len (a +:+ b))).
    rewrite len_app.
    replace (S (Str.len a + Str.len b) - Str.len b)%nat
      with (S (Str.len a)) by lia.
    cbn [Str.take]. now rewrite take_app_len.
  - simpl. now rewrite Hc, Ha.
Qed.

Lemma re_number_capture (r : Regex.regex) (body : string) (m : list string) :
  r = Gcode.re_filament_mm \/ r = Gcode.re_filament_g \/ r = Gcode.re_cost ->
  Regex.matches r body = Some m ->
  exists c ds, Regex.group 1 m = String c ds
               /\ Char.is_digit_or_dot c = true.
Proof.
  intros Hr H.
  assert (Hc : exists c ds, Regex.group 1 m = String c ds
                 /\ Str.forallb Char.is_digit_or_dot (String c ds) = true).
  { revert H. unfold Regex.matches.
    destruct Hr as [ -> | [ -> | -> ] ];
      unfold Gcode.re_filament_mm, Gcode.re_filament_g, Gcode.re_cost;
      cbn [Regex.seq]; cbn [Regex.exec]; intros H;
      repeat first
        [ apply exec_LitCI in H as [? H]
        | apply exec_Lit in H as [? H]
        | apply star_greedy_some in H as (? & ? & _ & _ & H) ];
      exact (grp_plus_capture _ _ _ H). }
  destruct Hc as (c & ds & Hg & Hall). exists c, ds. split; [exact Hg|].
  simpl in Hall. now apply andb_true_iff in Hall.
Qed.

Lemma parseFloat_not_negative (c : ascii) (ds : string) :
  Char.is_digit_or_dot c = true ->
  Number.parseFloat (String c ds) = NaN
  \/ Number.parseFloat (String c ds) = Infinity false
  \/ exists q, Number.parseFloat (String c ds) = Num q /\ (0 <= q)%Q.
Proof.
  intros Hc.
  assert (Hfacts : Char.is_space c = false
                   /\ Number.sign (String c ds) = (false, String c ds)
                   /\ Str.startsWith "Infinity" (String c ds) = false).
  { unfold Number.sign.
    destruct c as [[] [] [] [] [] [] [] []]; try discriminate;
      repeat split. }
  destruct Hfacts as (Hs & Hsign & Hinf).
  unfold Number.parseFloat. cbn [Str.trimStart]. rewrite Hs, Hsign, Hinf.
  destruct (Number.span Char.is_digit (String c ds)) as [ip r].
  destruct (match r with
            | String "."%char r' => Number.span Char.is_digit r'
            | _ => (EmptyString, r)
            end) as [fp r'].
  destruct (Str.is_empty ip && Str.is_empty fp); [now left|].
  right.
  destruct (to_double_not_negative
              (inject_Z (Number.digits_value (ip +:+ fp))
               * Number.pow10 (Number.exponent r' - Z.of_nat (Str.len fp))))
    as [-> | (q & -> & Hq)].
  - simpl. apply Z.mul_nonneg_nonneg.
    + unfold Number.digits_value. lia.
    + pose proof (Qpower_0_le (10 # 1)
                    (Number.exponent r' - Z.of_nat (Str.len fp))) as Hp.
      unfold Qle in Hp. simpl in Hp. unfold Number.pow10.
      specialize (Hp ltac:(discriminate)). lia.
  - now left.
  - right. exists q. split; [reflexivity|exact Hq].
Qed.

Lemma no_upper_neq (k name : string) :
  Str.existsb Char.is_upper k = false ->
  Str.existsb Char.is_upper name = true ->
  String.eqb k name = false.
Proof.
  intros Hk Hn. apply String.eqb_neq. intros ->. congruence.
Qed.

Lemma typed_generic (k s : string) :
  Str.existsb Char.is_upper k = false ->
  Str.existsb Char.is_space k = false ->
  Obj.is_inherited k = false ->
  typed_entry k (VStr s).
Proof.
  intros Hu Hs Hi. unfold typed_entry.
  rewrite !(no_upper_neq k _ Hu) by reflexivity. cbn [orb].
  split; [now exists s|]. auto.
Qed.

Lemma processLine_typed (meta : GcodeMetadata) (line : string) :
  (forall k v, meta !! k = Some v -> typed_entry k v) ->
  forall k v, Gcode.processLine meta line !! k = Some v -> typed_entry k v.
Proof.
  intros Hmeta k v. unfold Gcode.processLine. cbv zeta.
  destruct (negb _); [apply Hmeta|].
  repeat match goal with
         | |- context [match Regex.matches ?r ?b with _ => _ end] =>
             let E := fresh "E" in destruct (Regex.matches r b) eqn:E
         end;
    try apply Hmeta;
    try (match goal with
         | |- <[?name := _]> _ !! _ = _ -> _ =>
             destruct (decide (name = k)) as [<-|Hne];
             [rewrite lookup_insert_eq; intros [= <-]
             |rewrite lookup_insert_ne by exact Hne; apply Hmeta]
         end).
  - unfold typed_entry. simpl. eauto.
  - destruct (re_number_capture _ _ _ (or_introl eq_refl) E0)
      as (c & ds & -> & Hc).
    unfold typed_entry. simpl. eexists. split; [reflexivity|].
    exact (parseFloat_not_negative c ds Hc).
  - destruct (re_number_capture _ _ _ (or_intror (or_introl eq_refl)) E1)
      as (c & ds & -> & Hc).
    unfold typed_entry. simpl. eexists. split; [reflexivity|].
    exact (parseFloat_not_negative c ds Hc).
  - destruct (re_number_capture _ _ _ (or_intror (or_intror eq_refl)) E2)
      as (c & ds & -> & Hc).
    unfold typed_entry. simpl. eexists. split; [reflexivity|].
    exact (parseFloat_not_negative c ds Hc).
  - destruct (re_layers_capture _ _ E3) as (c & ds & -> & Hd).
    unfold typed_entry. simpl.
    destruct (parseInt_digits c ds Hd) as [-> | [n ->]];
      [now left|right; now exists n].
  - destruct (key_in _ meta) eqn:Ein; cbn [negb]; [apply Hmeta|].
    destruct (decide (Gcode.normalize_key (Regex.group 1 l) = k))
      as [<-|Hne];
      [rewrite lookup_insert_eq; intros [= <-]
      |rewrite lookup_insert_ne by exact Hne; apply Hmeta].
    destruct (normalize_key_shape (Regex.group 1 l)) as [Hu Hs].
    apply typed_generic; [exact Hu|exact Hs|].
    unfold key_in in Ein. now apply orb_false_iff in Ein.
Qed.

(** X19. Every entry of the metadata has the shape its key calls for,
    whatever the text: [estimatedTime] is a string; [filamentUsedMm],
    [filamentUsedG] and [filamentCost] are numbers, each [NaN], [Infinity]
    or a number that is not negative; [layerCount] is a natural number or
    [Infinity]; every other key has no capital letter and no blank, is
    not a name that objects inherit, and has a string value. *)
Theorem parseGcodeMetadata_typed (gcode k : string) (v : JsVal) :
  Gcode.parseGcodeMetadata gcode !! k = Some v -> typed_entry k v.
Proof.
  unfold Gcode.parseGcodeMetadata. cbv zeta.
  generalize (Str.split LF (Str.slice_last 4096 gcode)). intros lines.
  assert (H : forall meta : GcodeMetadata,
             (forall k v, meta !! k = Some v -> typed_entry k v) ->
             forall k v, fold_left Gcode.processLine lines meta !! k = Some v ->
                         typed_entry k v).
  { induction lines as [|l lines IH]; intros meta Hm; [exact Hm|].
    simpl. apply IH. now apply processLine_typed. }
  apply H. intros k' v'. rewrite lookup_empty. discriminate.
Qed.

Lemma parseGcodeMetadata_typed_witness :
  typed_entry "layerCount" (VNum (Num 150)).
Proof.
  apply (parseGcodeMetadata_typed
           ("; Total Layers Count = 150" +:+ nl +:+ "; layerCount = many")
           "layerCount" (VNum (Num 150))).
  vm_compute. reflexivity.
Defined.

(** *** A well-known field takes its last value *)

Lemma processLine_well_known (meta : GcodeMetadata) (line name : string)
      (v : JsVal) :
  well_known_field line = Some (name, v) ->
  Gcode.processLine meta line = <[name := v]> meta
  /\ Str.existsb Char.is_upper name = true.
Proof.
  unfold well_known_field, Gcode.processLine, is_comment, body_of.
  cbv zeta. destruct (negb _); [discriminate|].
  repeat match goal with
         | |- context [match Regex.matches ?r ?b with _ => _ end] =>
             destruct (Regex.matches r b)
         end;
    try discriminate; intros [= <- <-]; split; reflexivity.
Qed.

Lemma processLine_other_field (meta : GcodeMetadata) (line name : string) :
  Str.existsb Char.is_upper name = true ->
  option_map fst (well_known_field line) <> Some name ->
  Gcode.processLine meta line !! name = meta !! name.
Proof.
  intros Hu Hother.
  destruct (well_known_field line) as [[name' v']|] eqn:E.
  - destruct (processLine_well_known meta line name' v' E) as [-> _].
    apply lookup_insert_ne. intros ->. now apply Hother.
  - clear Hother. revert E.
    unfold well_known_field, Gcode.processLine, is_comment, body_of.
    cbv zeta. destruct (negb _); [reflexivity|].
    repeat match goal with
           | |- context [match Regex.matches ?r ?b with _ => _ end] =>
               destruct (Regex.matches r b)
           end;
      try discriminate; try reflexivity.
    intros _. destruct (key_in _ meta); cbn [negb]; [reflexivity|].
    apply lookup_insert_ne. intros E.
    pose proof (proj1 (normalize_key_shape (Regex.group 1 l))) as Hk.
    rewrite E in Hk. congruence.
Qed.

(** X20. A well-known field takes its last value.  When the lines of the
    last 4096 characters hold a line that sets one of the five well-known
    fields and no later line sets that field, the metadata has the field
    with the value of that line, whatever came before and whatever
    generic lines follow. *)
Theorem well_known_last_occurrence_wins
        (gcode : string) (before after : list string) (line name : string)
        (v : JsVal) :
  Str.split LF (Str.slice_last 4096 gcode) = (before ++ line :: after)%list ->
  well_known_field line = Some (name, v) ->
  Forall (fun l => option_map fst (well_known_field l) <> Some name) after ->
  Gcode.parseGcodeMetadata gcode !! name = Some v.
Proof.
  intros Hlines Hline Hafter.
  unfold Gcode.parseGcodeMetadata. cbv zeta.
  rewrite Hlines, fold_left_app. cbn [fold_left].
  generalize (fold_left Gcode.processLine before ∅). intros meta.
  destruct (processLine_well_known meta line name v Hline) as [-> Hu].
  assert (H : <[name := v]> meta !! name = Some v) by apply lookup_insert_eq.
  revert H. generalize (<[name := v]> meta). clear Hlines.
  induction Hafter as [|l after Hl Hafter IH]; intros m Hm; [exact Hm|].
  simpl. apply IH. now rewrite (processLine_other_field m l name Hu Hl).
Qed.

Lemma well_known_last_occurrence_wins_witness :
  Gcode.parseGcodeMetadata
    ("; filament cost = 1.5" +:+ nl +:+ "; filament cost = 2" +:+ nl
       +:+ "; filamentCost = 9" +:+ nl +:+ "; total layers count = 3")
    !! "filamentCost"
  = Some (VNum (Num 2)).
Proof.
  apply (well_known_last_occurrence_wins _
           ["; filament cost = 1.5"]
           ["; filamentCost = 9"; "; total layers count = 3"]
           "; filament cost = 2").
  - vm_compute. reflexivity.
  - vm_compute. reflexivity.
  - repeat constructor; vm_compute; discriminate.
Defined.
(* ================================================================== *)
(** ** The configuration *)

(** X21. The log threshold.  Whatever [MCP_LOG_LEVEL] holds, a record at
    level [error] is written.  A record at level [info] is dropped
    exactly when the variable is [error], and a record at level [debug] is
    dropped unless the variable is [debug]: an unset or unknown value
    behaves as [info]. *)
Theorem log_threshold (raw : option string) (message : string) (w : World) :
  let LOG_LEVEL := parseLogLevel raw in
  oplog (log_at LOG_LEVEL LevelError message w).2
  = ("error", message) :: oplog w
  /\ (log_at LOG_LEVEL LevelInfo message w = (Ok tt, w)
      <-> raw = Some "error")
  /\ (log_at LOG_LEVEL LevelDebug message w = (Ok tt, w)
      <-> raw <> Some "debug").
Proof.
  cbv zeta.
  assert (Hlog : forall level, log level message w <> (Ok tt, w)).
  { intros level H. apply (f_equal (fun r => length (oplog r.2))) in H.
    simpl in H. lia. }
  assert (Hcase : raw = Some "debug" \/ raw = Some "info"
                  \/ raw = Some "error"
                  \/ (parseLogLevel raw = LevelInfo
                      /\ raw <> Some "debug" /\ raw <> Some "error")).
  { unfold parseLogLevel. destruct raw as [s|];
      [|right; right; right; repeat split; discriminate].
    destruct (String.eqb_spec s "debug") as [->|Hd]; [now left|].
    destruct (String.eqb_spec s "info") as [->|Hi]; [now right; left|].
    destruct (String.eqb_spec s "error") as [->|He];
      [now right; right; left|].
    right; right; right. repeat split; congruence. }
  destruct Hcase as [->|[->|[->|(-> & Hd & He)]]]; unfold log_at; simpl;
    (split; [reflexivity|]); split; split; intros H;
    try reflexivity; try discriminate; try congruence;
    try (exfalso; exact (Hlog _ H)).
Qed.

Lemma resolve_resolved (cwd p : string) :
  Path.isAbsolute cwd = true ->
  let r := Path.resolve cwd [p] in
  Path.isAbsolute r = true
  /\ Path.resolve cwd [r] = r
  /\ all_proper (Path.segments r).
Proof.
  intros Habs. cbv zeta. rewrite (resolve_abs cwd p Habs).
  pose proof (abs_segments_proper cwd p) as Hp.
  split; [reflexivity|]. split; [now apply resolve_idem|].
  now rewrite (proj2 (split_abs _ Hp)).
Qed.

Lemma star_greedy_to_end {A : Type} (p : ascii -> bool) (s : string)
      (k : string -> option A) :
  (forall c s', k (String c s') = None) ->
  Regex.star_greedy p s k = if Str.forallb p s then k "" else None.
Proof.
  intros Hk. induction s as [|c s IH]; simpl; [reflexivity|].
  destruct (p c); simpl; [|apply Hk].
  rewrite IH. destruct (Str.forallb p s); [|apply Hk].
  destruct (k "") eqn:E; [reflexivity|apply Hk].
Qed.

Lemma re_workdir_matches (d : string) :
  d <> "" -> Str.forallb Char.dot d = true ->
  Regex.matches re_workdir ("--workdir=" +:+ d) = Some [d].
Proof.
  intros Hd Hdot. unfold Regex.matches, re_workdir.
  cbn [Regex.seq]. cbn -[Regex.Plus Str.take Str.len].
  destruct d as [|c r]; [congruence|].
  simpl in Hdot. apply andb_true_iff in Hdot as [Hc Hr].
  unfold Regex.Plus. cbn [Regex.exec]. rewrite Hc.
  rewrite star_greedy_to_end by reflexivity. rewrite Hr.
  cbn [app]. rewrite Nat.sub_0_r.
  pose proof (take_app_len (String c r) "") as T.
  rewrite app_empty_r in T. now rewrite T.
Qed.

(** X22. The work directory taken from the command line.  The first
    argument after the first two that has the form [--workdir=<d>], with
    [<d>] not empty and free of line breaks, decides: the work directory
    is [<d>] resolved from the current directory.  It is then an absolute
    path in resolved form, so the sandbox root made from it is the work
    directory itself.  Without such an argument the work directory is the
    current directory. *)
Theorem parseWorkdir_resolved (cwd : string) (argv : list string) :
  Path.isAbsolute cwd = true ->
  let rest := skipn 2 argv in
  (Forall (fun a => Regex.test re_workdir a = false) rest ->
   parseWorkdir cwd argv = cwd)
  /\ forall (pre post : list string) (d : string),
       rest = (pre ++ ("--workdir=" +:+ d) :: post)%list ->
       Forall (fun a => Regex.test re_workdir a = false) pre ->
       d <> "" -> Str.forallb Char.dot d = true ->
       parseWorkdir cwd argv = Path.resolve cwd [d]
       /\ Path.isAbsolute (parseWorkdir cwd argv) = true
       /\ Path.resolve cwd [parseWorkdir cwd argv] = parseWorkdir cwd argv.
Proof.
  intros Habs rest. unfold parseWorkdir. fold rest.
  assert (Hskip : forall pre tail,
             Forall (fun a => Regex.test re_workdir a = false) pre ->
             parseWorkdir_args cwd (pre ++ tail) = parseWorkdir_args cwd tail).
  { intros pre tail Hpre. induction Hpre as [|a pre Ha Hpre IH];
      [reflexivity|].
    simpl. unfold Regex.test in Ha.
    destruct (Regex.matches re_workdir a); [discriminate|exact IH]. }
  split.
  - intros Hnone. rewrite <- (app_nil_r rest).
    now rewrite (Hskip rest [] Hnone).
  - intros pre post d -> Hpre Hd Hdot.
    rewrite (Hskip pre _ Hpre). cbn [parseWorkdir_args].
    rewrite (re_workdir_matches d Hd Hdot). cbn [Regex.group nth Nat.sub].
    destruct (resolve_resolved cwd d Habs) as (Ha & Hi & _).
    split; [reflexivity|]. split; assumption.
Qed.

Lemma parseWorkdir_resolved_witness :
  parseWorkdir "/home/user"
    ["node"; "index.js"; "--verbose"; "--workdir="; "--workdir=../proj/a/";
     "--workdir=/other"]
  = Path.resolve "/home/user" ["../proj/a/"]
  /\ parseWorkdir "/home/user" ["node"; "index.js"; "--workdir"] = "/home/user".
Proof.
  destruct (parseWorkdir_resolved "/home/user"
              ["node"; "index.js"; "--verbose"; "--workdir=";
               "--workdir=../proj/a/"; "--workdir=/other"] eq_refl)
    as [_ H].
  destruct (H ["--verbose"; "--workdir="] ["--workdir=/other"] "../proj/a/")
    as [Hw _].
  - reflexivity.
  - repeat constructor.
  - discriminate.
  - reflexivity.
  - split; [exact Hw|].
    apply (parseWorkdir_resolved "/home/user" ["node"; "index.js"; "--workdir"]
             eq_refl).
    repeat constructor.
Defined.

(** X23. After [overrideConfig] has set both directories, each is an
    absolute path in resolved form, the two sandbox roots are the
    configured directories themselves, and both pass the sandbox
    unchanged.  The slicer path is taken as given, and a setting that is
    not overridden keeps its value. *)
Theorem overrideConfig_roots (cfg : Config) (workdir userDir : string)
        (slicer : option string) :
  Path.isAbsolute (cwd cfg) = true ->
  let cfg' :=
    overrideConfig cfg {| o_workdir := Some workdir;
                          o_orcaUserDir := Some userDir;
                          o_orcaSlicerPath := slicer |} in
  getAllowedRoots cfg' = [WORKDIR cfg'; ORCA_USER_DIR cfg']
  /\ resolveSandboxed cfg' (WORKDIR cfg') = Ok (WORKDIR cfg')
  /\ resolveSandboxed cfg' (ORCA_USER_DIR cfg') = Ok (ORCA_USER_DIR cfg')
  /\ ORCA_SLICER_PATH cfg' = default (ORCA_SLICER_PATH cfg) slicer
  /\ overrideConfig cfg {| o_workdir := None; o_orcaUserDir := None;
                           o_orcaSlicerPath := None |}
     = cfg.
Proof.
  intros Habs cfg'.
  assert (Habs' : Path.isAbsolute (cwd cfg') = true) by exact Habs.
  destruct (resolve_resolved (cwd cfg) workdir Habs) as (_ & Hw & _).
  destruct (resolve_resolved (cwd cfg) userDir Habs) as (_ & Hu & _).
  assert (Hroots : getAllowedRoots cfg' = [WORKDIR cfg'; ORCA_USER_DIR cfg']).
  { unfold getAllowedRoots. cbn [cfg' overrideConfig cwd WORKDIR ORCA_USER_DIR
                                 o_workdir o_orcaUserDir].
    now rewrite Hw, Hu. }
  split; [exact Hroots|].
  split; [|split; [|split]].
  - rewrite (resolveSandboxed_root cfg' _ Habs' (or_introl eq_refl)).
    f_equal. exact Hw.
  - rewrite (resolveSandboxed_root cfg' _ Habs' (or_intror eq_refl)).
    f_equal. exact Hu.
  - now destruct slicer.
  - now destruct cfg.
Qed.

Lemma overrideConfig_roots_witness :
  getAllowedRoots
    (overrideConfig sample_config
       {| o_workdir := Some "tmp/../jobs"; o_orcaUserDir := Some "/etc/orca/";
          o_orcaSlicerPath := None |})
  = ["/home/user/jobs"; "/etc/orca"].
Proof.
  destruct (overrideConfig_roots sample_config "tmp/../jobs" "/etc/orca/" None)
    as (Hroots & _).
  - reflexivity.
  - rewrite Hroots. reflexivity.
Defined.

(** X24. A failed update leaves no trace.  When
    [handleUpdateProfileSetting] throws, nothing has been logged, no
    directory has changed and no file other than the target of the write
    (so not the audit log either, unless the profile path is that very
    file) holds anything else than before.  When
    the profile cannot be read (a name that is not allowed, a missing,
    unreadable or malformed file), the same error is thrown and the world
    is exactly as before.  A name that is not allowed is always rejected,
    with a sandbox error that quotes the name. *)
Theorem handleUpdateProfileSetting_failure_leaves_no_trace
        (cfg : Config) (rt : Runtime) (args : UpdateProfileSettingArgs)
        (w : World) :
  let targetPath :=
    Path.join [profileDir cfg (u_type args);
               targetName_of (u_name args) (u_dry_run args)] in
  (forall (e : Error) (w' : World),
     handleUpdateProfileSetting cfg rt args w = (Throw e, w') ->
     oplog w' = oplog w
     /\ dirs (fs w') = dirs (fs w)
     /\ forall q : string,
          resolveSandboxed cfg targetPath <> Ok q ->
          files (fs w') !! q = files (fs w) !! q)
  /\ (forall e : Error,
        (readProfile cfg rt (u_type args) (u_name args) w).1 = Throw e ->
        handleUpdateProfileSetting cfg rt args w = (Throw e, w))
  /\ (allowed_name (u_name args) = false ->
      exists m : string,
        handleUpdateProfileSetting cfg rt args w = (Throw (SandboxError m), w)
        /\ includes (u_name args) m = true).
Proof.
  intros targetPath.
  assert (Hsame : forall e w',
             handleUpdateProfileSetting cfg rt args w = (Throw e, w') ->
             w' = w).
  { intros e w'. unfold handleUpdateProfileSetting, bind.
    destruct (readProfile_world cfg rt (u_type args) (u_name args) w)
      as [Hw _].
    destruct (readProfile cfg rt (u_type args) (u_name args) w)
      as [[data|e0] w0]; simpl in Hw; subst w0; [|now intros [= _ <-]].
    unfold lift at 1 2.
    destruct (property_get rt data (u_key args)) as [oldValue|e0];
      [|now intros [= _ <-]].
    destruct (property_set rt data (u_key args) (u_value args))
      as [data'|e0]; [|now intros [= _ <-]].
    unfold safeWriteFile at 1, bind, lift.
    destruct (resolveSandboxed cfg _) as [safe|e0]; [|now intros [= _ <-]].
    unfold Fs.writeFile.
    destruct (Fs.fault (fs w) safe); [now intros [= _ <-]|].
    destruct (bool_decide _); [now intros [= _ <-]|].
    cbn [log ret].
    match goal with
    | |- context [auditLog cfg rt ?a ?d ?w1] =>
        destruct (auditLog_run cfg rt a d w1) as (w2 & Hrun & _);
        rewrite Hrun
    end.
    discriminate. }
  split; [|split].
  - intros e w' H. rewrite (Hsame e w' H). repeat split.
  - intros e H. unfold handleUpdateProfileSetting, bind.
    destruct (readProfile_world cfg rt (u_type args) (u_name args) w)
      as [Hw _].
    destruct (readProfile cfg rt (u_type args) (u_name args) w)
      as [[data|e0] w0]; simpl in Hw, H; subst w0; [discriminate|].
    now injection H as ->.
  - intros Ha. unfold handleUpdateProfileSetting, readProfile, bind, lift.
    rewrite validateFilename_allowed, Ha. eexists. split; [reflexivity|].
    apply includes_app_r, includes_app_r, includes_prefix.
Qed.

Lemma handleUpdateProfileSetting_failure_leaves_no_trace_witness :
  exists m : string,
    handleUpdateProfileSetting sample_config sample_runtime
      {| u_type := process; u_name := "../../etc/passwd";
         u_key := "k"; u_value := JNull; u_dry_run := false |}
      (sample_world sample_tree)
    = (Throw (SandboxError m), sample_world sample_tree)
    /\ includes "../../etc/passwd" m = true.
Proof.
  apply (handleUpdateProfileSetting_failure_leaves_no_trace sample_config
           sample_runtime
           {| u_type := process; u_name := "../../etc/passwd";
              u_key := "k"; u_value := JNull; u_dry_run := false |}
           (sample_world sample_tree)).
  reflexivity.
Defined.

(** *** No match is lost *)

(** X25. A search loses no match.  For a profile type the search covers,
    a file [listProfileFiles] lists for it and a profile that can be read,
    every key of the profile that contains the query, letter case apart,
    is among the matches of the answer, with its type, file and value. *)
Theorem handleSearchSettings_complete
        (cfg : Config) (rt : Runtime) (args : SearchSettingsArgs) (w : World)
        (t : ProfileType) (names : list string) (f : string) (data : Json)
        (entries : list (string * Json)) (key : string) (value : Json) :
  s_type args = None \/ s_type args = Some t ->
  listProfileFiles cfg t w = (Ok names, w) ->
  In f names ->
  readProfile cfg rt t f w = (Ok data, w) ->
  object_entries data = Ok entries ->
  In (key, value) entries ->
  includes (Str.toLowerCase (s_query args)) (Str.toLowerCase key) = true ->
  exists results : list Json,
    handleSearchSettings cfg rt args w
    = (Ok {| isError := false;
             text :=
               JSON_stringify rt 2
                 (JObj [ ("query", JStr (s_query args));
                         ("matches", JArr results) ]) |}, w)
    /\ In (search_match t f key value) results.
Proof.
  intros Ht Hnames Hf Hread Hentries Hkv Hinc.
  unfold handleSearchSettings.
  set (q := Str.toLowerCase (s_query args)) in *.
  set (types := match s_type args with
                | Some t0 => [t0]
                | None => [machine; filament; process]
                end).
  set (g := fun t0 f0 =>
              match (search_profile cfg rt q t0 f0 [] w).1 with
              | Ok found => found
              | Throw _ => []
              end).
  set (G := fun t0 =>
              flat_map (g t0)
                match (listProfileFiles cfg t0 w).1 with
                | Ok ns => ns
                | Throw _ => []
                end).
  assert (Hbody : forall t0 s,
             (let* files := listProfileFiles cfg t0 in
              Arr.for_of files (search_profile cfg rt q t0) s) w
             = (Ok (s ++ G t0)%list, w)).
  { intros t0 s. unfold bind, G. rewrite listProfileFiles_run. cbn [fst].
    apply for_of_appends. intros x s0. apply search_profile_appends. }
  unfold bind at 1.
  rewrite (for_of_appends _ G types w Hbody []). cbn [app ret].
  eexists. split; [reflexivity|].
  apply in_flat_map. exists t. split.
  { subst types. destruct Ht as [-> | ->]; [destruct t|]; simpl; auto. }
  unfold G. rewrite Hnames. cbn [fst].
  apply in_flat_map. exists f. split; [exact Hf|].
  unfold g, search_profile, try_catch, bind, lift, ret.
  rewrite Hread, Hentries. cbn [fst].
  rewrite search_entries_run. cbn [app].
  apply in_map_iff. exists (key, value). split; [reflexivity|].
  apply filter_In. split; [exact Hkv|exact Hinc].
Qed.

Lemma handleSearchSettings_complete_witness :
  exists results : list Json,
    handleSearchSettings sample_config sample_runtime
      {| s_query := "Layer"; s_type := None |} (sample_world sample_tree)
    = (Ok {| isError := false;
             text :=
               JSON_stringify sample_runtime 2
                 (JObj [ ("query", JStr "Layer");
                         ("matches", JArr results) ]) |},
       sample_world sample_tree)
    /\ In (search_match process "standard_quality.json" "layer_height"
                        (JNum 2)) results.
Proof.
  apply (handleSearchSettings_complete sample_config sample_runtime
           {| s_query := "Layer"; s_type := None |}
           (sample_world sample_tree) process
           ["draft.json"; "standard_quality.json"] "standard_quality.json"
           (JObj [("infill_density", JNum 20); ("layer_height", JNum 2)])
           [("infill_density", JNum 20); ("layer_height", JNum 2)]).
  - left. reflexivity.
  - vm_compute. reflexivity.
  - right. left. reflexivity.
  - vm_compute. reflexivity.
  - reflexivity.
  - right. left. reflexivity.
  - vm_compute. reflexivity.
Defined.
